(** * kubectl-getinfo: resource resolution and scheduling-field extraction

    A shallow embedding of [extractors.go], [resources.go] and [types.go],
    and of the argument handling of [main.go], [completion.go] and the
    kubeconfig lookup.
    Retrieved objects are untyped JSON trees ([map[string]interface{}] in
    Go); Go maps are finite maps of stdpp, Go slices are lists, a nil map or
    nil pointer is [None]. *)

From Stdlib Require Import ZArith Ascii.
From stdpp Require Import gmap strings list fin_maps.

Set Warnings "-register-all".
Open Scope string_scope.
Open Scope list_scope.
Set Warnings "-clear-no-such-hyp".

(** ** JSON values held in an [interface{}]

    The dynamic client decodes numbers to [int64] when they are integral and
    to [float64] otherwise; a [float64] is kept as its 64-bit pattern. *)
Inductive Value : Type :=
  | VNull
  | VBool (b : bool)
  | VInt64 (n : Z)
  | VFloat64 (bits : Z)
  | VString (s : string)
  | VSlice (l : list Value)
  | VMap (m : gmap string Value).

(** [v.(string)], [v.(map[string]interface{})] with the comma-ok form,
    applied to the result of a map index (a missing key indexes to nil). *)
Definition asString (v : Value) : option string :=
  match v with VString s => Some s | _ => None end.

Definition asMap (v : option Value) : option (gmap string Value) :=
  match v with Some (VMap m) => Some m | _ => None end.

(** ** The accessor family of [k8s.io/apimachinery/.../unstructured]

    Every accessor returns [(value, found, err)].  The three outcomes that
    occur are kept apart: [Found v] is [(v, true, nil)], [Absent] is
    [(zero, false, nil)] and [Mismatch] is [(zero, false, err)]. *)
Inductive nested (A : Type) : Type :=
  | Found (a : A)
  | Absent
  | Mismatch.
Arguments Found {A} a.
Arguments Absent {A}.
Arguments Mismatch {A}.

Module unstructured.

Record Unstructured := { Object : gmap string Value }.

(** The loop of [NestedFieldNoCopy], started at [val]. *)
Fixpoint nestedField (val : Value) (fields : list string) : nested Value :=
  match fields with
  | [] => Found val
  | field :: rest =>
      match val with
      | VNull => Absent
      | VMap m =>
          match m !! field with
          | Some v => nestedField v rest
          | None => Absent
          end
      | _ => Mismatch
      end
  end.

Definition NestedFieldNoCopy (obj : gmap string Value) (fields : list string)
  : nested Value :=
  nestedField (VMap obj) fields.

Definition NestedString (obj : gmap string Value) (fields : list string)
  : nested string :=
  match NestedFieldNoCopy obj fields with
  | Found (VString s) => Found s
  | Found _ => Mismatch
  | Absent => Absent
  | Mismatch => Mismatch
  end.

Definition NestedBool (obj : gmap string Value) (fields : list string)
  : nested bool :=
  match NestedFieldNoCopy obj fields with
  | Found (VBool b) => Found b
  | Found _ => Mismatch
  | Absent => Absent
  | Mismatch => Mismatch
  end.

Definition NestedInt64 (obj : gmap string Value) (fields : list string)
  : nested Z :=
  match NestedFieldNoCopy obj fields with
  | Found (VInt64 n) => Found n
  | Found _ => Mismatch
  | Absent => Absent
  | Mismatch => Mismatch
  end.

(** The returned slice and map are deep copies: the same value here. *)
Definition NestedSlice (obj : gmap string Value) (fields : list string)
  : nested (list Value) :=
  match NestedFieldNoCopy obj fields with
  | Found (VSlice l) => Found l
  | Found _ => Mismatch
  | Absent => Absent
  | Mismatch => Mismatch
  end.

Definition NestedMap (obj : gmap string Value) (fields : list string)
  : nested (gmap string Value) :=
  match NestedFieldNoCopy obj fields with
  | Found (VMap m) => Found m
  | Found _ => Mismatch
  | Absent => Absent
  | Mismatch => Mismatch
  end.

(** One non-string member makes the whole call fail. *)
Definition NestedStringMap (obj : gmap string Value) (fields : list string)
  : nested (gmap string string) :=
  match NestedFieldNoCopy obj fields with
  | Found (VMap m) =>
      if bool_decide (map_Forall (λ _ v, is_Some (asString v)) m)
      then Found (omap asString m)
      else Mismatch
  | Found _ => Mismatch
  | Absent => Absent
  | Mismatch => Mismatch
  end.

(** [getNestedString]: the empty string unless found. *)
Definition GetKind (item : Unstructured) : string :=
  match NestedString (Object item) ["kind"] with
  | Found s => s
  | _ => ""
  end.

End unstructured.
Import unstructured.

(** ** types.go *)

Record OwnerReference := {
  ownerNamespace : string;
  ownerKind : string;
  ownerName : string
}.

Record ContainerResources := {
  containerName : string;
  containerRequests : option (gmap string Value);
  containerLimits : option (gmap string Value)
}.

Record SchedulingInfo := {
  NodeSelector : option (gmap string string);
  NodeName : string;
  Affinity : option (gmap string Value);
  Tolerations : list Value;
  TopologySpreadConstraints : list Value;
  ResourceRequests : option (gmap string Value);
  ResourceLimits : option (gmap string Value);
  SchedulerName : string;
  PriorityClassName : string;
  Priority : option Z;
  PreemptionPolicy : string;
  RuntimeClassName : string;
  HostNetwork : bool;
  HostPID : bool;
  HostIPC : bool
}.

(** [OutputItem].  [types.go] declares [Resources] as
    [[]ContainerResources]; [extractSchedulingSubcommand] assigns it a
    [map[string]interface{}], and the field is typed here after the value
    the extractor stores in it. *)
Record OutputItem := {
  itemName : string;
  itemNamespace : string;
  itemLabels : option (gmap string string);
  itemAnnotations : option (gmap string string);
  itemOwnerReferences : list OwnerReference;
  itemScheduling : option SchedulingInfo;
  itemTolerations : list Value;
  itemAffinity : option (gmap string Value);
  itemNodeSelector : option (gmap string string);
  itemResources : option (gmap string Value);
  itemTopologySpreadConstraints : list Value;
  itemPriority : option (gmap string Value);
  itemRuntime : option (gmap string Value)
}.

(** ** extractors.go *)

Definition templateKinds : list string :=
  ["Deployment"; "StatefulSet"; "DaemonSet"; "ReplicaSet"; "Job"; "CronJob"].

Fixpoint templateLoop (kind : string) (tks : list string) : list string :=
  match tks with
  | [] => ["spec"]
  | tk :: rest =>
      if decide (kind = tk) then ["spec"; "template"; "spec"]
      else templateLoop kind rest
  end.

Definition getPodSpecPath (item : Unstructured) : list string :=
  let kind := GetKind item in
  if decide (kind = "Pod") then ["spec"]
  else templateLoop kind templateKinds.

(** Go's [int32(x)] on an [int64]: the low 32 bits, read as signed. *)
Definition int32 (x : Z) : Z := (x + 2 ^ 31) mod 2 ^ 32 - 2 ^ 31.

(** Body of [for k, v := range req] in the full snapshot. *)
Definition mergeEntry (k : string) (v : Value) (requests : gmap string Value)
  : gmap string Value :=
  match requests !! k with
  | Some existing =>
      match asString existing with
      | Some existingStr =>
          match asString v with
          | Some vStr => <[k := VString (existingStr +:+ "," +:+ vStr)]> requests
          | None => requests
          end
      | None => requests
      end
  | None => <[k := v]> requests
  end.

Definition mergeInto (requests req : gmap string Value) : gmap string Value :=
  map_fold mergeEntry requests req.

(** Body of [for _, container := range containers] in the full snapshot;
    the state is the pair of running maps [(requests, limits)]. *)
Definition mergeContainer (st : gmap string Value * gmap string Value)
    (container : Value) : gmap string Value * gmap string Value :=
  match container with
  | VMap containerMap =>
      match asMap (containerMap !! "resources") with
      | Some resources =>
          let requests :=
            match asMap (resources !! "requests") with
            | Some req => mergeInto st.1 req
            | None => st.1
            end in
          let limits :=
            match asMap (resources !! "limits") with
            | Some lim => mergeInto st.2 lim
            | None => st.2
            end in
          (requests, limits)
      | None => st
      end
  | _ => st
  end.

Definition mergeContainers (containers : list Value)
  : gmap string Value * gmap string Value :=
  fold_left mergeContainer containers (∅, ∅).

(** [if len(m) > 0 { field = m }] on a field that starts nil. *)
Definition nonEmptyMap {A} (m : gmap string A) : option (gmap string A) :=
  if decide (0 < size m) then Some m else None.

Definition nonEmptyString (r : nested string) : string :=
  match r with
  | Found s => if decide (s ≠ "") then s else ""
  | _ => ""
  end.

Definition foundBool (r : nested bool) : bool :=
  match r with Found b => b | _ => false end.

Definition nonEmptySlice (r : nested (list Value)) : list Value :=
  match r with
  | Found l => if decide (0 < length l) then l else []
  | _ => []
  end.

(** The record [scheduling] as it stands just before the final nil test. *)
Definition schedulingFields (item : Unstructured) : SchedulingInfo :=
  let specPath := getPodSpecPath item in
  let obj := Object item in
  let resources :=
    match NestedSlice obj (specPath ++ ["containers"]) with
    | Found containers =>
        let st := mergeContainers containers in
        (nonEmptyMap st.1, nonEmptyMap st.2)
    | _ => (None, None)
    end in
  {| NodeSelector :=
       match NestedStringMap obj (specPath ++ ["nodeSelector"]) with
       | Found nodeSelector => nonEmptyMap nodeSelector
       | _ => None
       end;
     NodeName := nonEmptyString (NestedString obj (specPath ++ ["nodeName"]));
     Affinity :=
       match NestedMap obj (specPath ++ ["affinity"]) with
       | Found affinity => nonEmptyMap affinity
       | _ => None
       end;
     Tolerations := nonEmptySlice (NestedSlice obj (specPath ++ ["tolerations"]));
     TopologySpreadConstraints :=
       nonEmptySlice (NestedSlice obj (specPath ++ ["topologySpreadConstraints"]));
     ResourceRequests := resources.1;
     ResourceLimits := resources.2;
     SchedulerName :=
       nonEmptyString (NestedString obj (specPath ++ ["schedulerName"]));
     PriorityClassName :=
       nonEmptyString (NestedString obj (specPath ++ ["priorityClassName"]));
     Priority :=
       match NestedInt64 obj (specPath ++ ["priority"]) with
       | Found priority => Some (int32 priority)
       | _ => None
       end;
     PreemptionPolicy :=
       nonEmptyString (NestedString obj (specPath ++ ["preemptionPolicy"]));
     RuntimeClassName :=
       nonEmptyString (NestedString obj (specPath ++ ["runtimeClassName"]));
     HostNetwork := foundBool (NestedBool obj (specPath ++ ["hostNetwork"]));
     HostPID := foundBool (NestedBool obj (specPath ++ ["hostPID"]));
     HostIPC := foundBool (NestedBool obj (specPath ++ ["hostIPC"])) |}.

(** The condition of the closing [if ... { return nil }]. *)
Definition noSchedulingInfo (scheduling : SchedulingInfo) : bool :=
  bool_decide (NodeSelector scheduling = None)
  && bool_decide (NodeName scheduling = "")
  && bool_decide (Affinity scheduling = None)
  && bool_decide (length (Tolerations scheduling) = 0)
  && bool_decide (length (TopologySpreadConstraints scheduling) = 0)
  && bool_decide (ResourceRequests scheduling = None)
  && bool_decide (ResourceLimits scheduling = None)
  && bool_decide (SchedulerName scheduling = "")
  && bool_decide (PriorityClassName scheduling = "")
  && bool_decide (Priority scheduling = None)
  && bool_decide (PreemptionPolicy scheduling = "")
  && bool_decide (RuntimeClassName scheduling = "")
  && negb (HostNetwork scheduling)
  && negb (HostPID scheduling)
  && negb (HostIPC scheduling).

Definition extractSchedulingInfo (item : Unstructured) : option SchedulingInfo :=
  let scheduling := schedulingFields item in
  if noSchedulingInfo scheduling then None else Some scheduling.

(** Body of [for k, v := range req] in the [resources] subcommand. *)
Definition overwriteEntry (k : string) (v : Value) (requests : gmap string Value)
  : gmap string Value :=
  <[k := v]> requests.

Definition overwriteInto (requests req : gmap string Value) : gmap string Value :=
  map_fold overwriteEntry requests req.

Definition overwriteContainer (st : gmap string Value * gmap string Value)
    (container : Value) : gmap string Value * gmap string Value :=
  match container with
  | VMap containerMap =>
      match asMap (containerMap !! "resources") with
      | Some res =>
          let requests :=
            match asMap (res !! "requests") with
            | Some req => overwriteInto st.1 req
            | None => st.1
            end in
          let limits :=
            match asMap (res !! "limits") with
            | Some lim => overwriteInto st.2 lim
            | None => st.2
            end in
          (requests, limits)
      | None => st
      end
  | _ => st
  end.

Definition overwriteContainers (containers : list Value)
  : gmap string Value * gmap string Value :=
  fold_left overwriteContainer containers (∅, ∅).

(** [if cond { m[k] = v }] on a running map. *)
Definition putIf (cond : bool) (k : string) (v : Value) (m : gmap string Value)
  : gmap string Value :=
  if cond then <[k := v]> m else m.

Definition putString (r : nested string) (k : string) (m : gmap string Value)
  : gmap string Value :=
  match r with
  | Found s => putIf (bool_decide (s ≠ "")) k (VString s) m
  | _ => m
  end.

Definition putBool (r : nested bool) (k : string) (m : gmap string Value)
  : gmap string Value :=
  match r with
  | Found b => <[k := VBool b]> m
  | _ => m
  end.

Definition putInt64 (r : nested Z) (k : string) (m : gmap string Value)
  : gmap string Value :=
  match r with
  | Found n => <[k := VInt64 n]> m
  | _ => m
  end.

(** The map [resources] built by [case "resources"]. *)
Definition resourcesMap (item : Unstructured) : gmap string Value :=
  let specPath := getPodSpecPath item in
  match NestedSlice (Object item) (specPath ++ ["containers"]) with
  | Found containers =>
      let st := overwriteContainers containers in
      let resources := putIf (bool_decide (0 < size st.1)) "requests" (VMap st.1) ∅ in
      putIf (bool_decide (0 < size st.2)) "limits" (VMap st.2) resources
  | _ => ∅
  end.

Definition priorityMap (item : Unstructured) : gmap string Value :=
  let specPath := getPodSpecPath item in
  let obj := Object item in
  let priority :=
    putString (NestedString obj (specPath ++ ["priorityClassName"]))
      "priorityClassName" ∅ in
  let priority :=
    putInt64 (NestedInt64 obj (specPath ++ ["priority"])) "priority" priority in
  putString (NestedString obj (specPath ++ ["preemptionPolicy"]))
    "preemptionPolicy" priority.

Definition runtimeMap (item : Unstructured) : gmap string Value :=
  let specPath := getPodSpecPath item in
  let obj := Object item in
  let runtime :=
    putString (NestedString obj (specPath ++ ["runtimeClassName"]))
      "runtimeClassName" ∅ in
  let runtime :=
    putBool (NestedBool obj (specPath ++ ["hostNetwork"])) "hostNetwork" runtime in
  let runtime :=
    putBool (NestedBool obj (specPath ++ ["hostPID"])) "hostPID" runtime in
  putBool (NestedBool obj (specPath ++ ["hostIPC"])) "hostIPC" runtime.

Definition setTolerations (o : OutputItem) (v : list Value) : OutputItem :=
  {| itemName := itemName o; itemNamespace := itemNamespace o;
     itemLabels := itemLabels o; itemAnnotations := itemAnnotations o;
     itemOwnerReferences := itemOwnerReferences o;
     itemScheduling := itemScheduling o;
     itemTolerations := v;
     itemAffinity := itemAffinity o; itemNodeSelector := itemNodeSelector o;
     itemResources := itemResources o;
     itemTopologySpreadConstraints := itemTopologySpreadConstraints o;
     itemPriority := itemPriority o; itemRuntime := itemRuntime o |}.

Definition setAffinity (o : OutputItem) (v : gmap string Value) : OutputItem :=
  {| itemName := itemName o; itemNamespace := itemNamespace o;
     itemLabels := itemLabels o; itemAnnotations := itemAnnotations o;
     itemOwnerReferences := itemOwnerReferences o;
     itemScheduling := itemScheduling o;
     itemTolerations := itemTolerations o;
     itemAffinity := Some v; itemNodeSelector := itemNodeSelector o;
     itemResources := itemResources o;
     itemTopologySpreadConstraints := itemTopologySpreadConstraints o;
     itemPriority := itemPriority o; itemRuntime := itemRuntime o |}.

Definition setNodeSelector (o : OutputItem) (v : gmap string string) : OutputItem :=
  {| itemName := itemName o; itemNamespace := itemNamespace o;
     itemLabels := itemLabels o; itemAnnotations := itemAnnotations o;
     itemOwnerReferences := itemOwnerReferences o;
     itemScheduling := itemScheduling o;
     itemTolerations := itemTolerations o;
     itemAffinity := itemAffinity o; itemNodeSelector := Some v;
     itemResources := itemResources o;
     itemTopologySpreadConstraints := itemTopologySpreadConstraints o;
     itemPriority := itemPriority o; itemRuntime := itemRuntime o |}.

Definition setResources (o : OutputItem) (v : gmap string Value) : OutputItem :=
  {| itemName := itemName o; itemNamespace := itemNamespace o;
     itemLabels := itemLabels o; itemAnnotations := itemAnnotations o;
     itemOwnerReferences := itemOwnerReferences o;
     itemScheduling := itemScheduling o;
     itemTolerations := itemTolerations o;
     itemAffinity := itemAffinity o; itemNodeSelector := itemNodeSelector o;
     itemResources := Some v;
     itemTopologySpreadConstraints := itemTopologySpreadConstraints o;
     itemPriority := itemPriority o; itemRuntime := itemRuntime o |}.

Definition setTopology (o : OutputItem) (v : list Value) : OutputItem :=
  {| itemName := itemName o; itemNamespace := itemNamespace o;
     itemLabels := itemLabels o; itemAnnotations := itemAnnotations o;
     itemOwnerReferences := itemOwnerReferences o;
     itemScheduling := itemScheduling o;
     itemTolerations := itemTolerations o;
     itemAffinity := itemAffinity o; itemNodeSelector := itemNodeSelector o;
     itemResources := itemResources o;
     itemTopologySpreadConstraints := v;
     itemPriority := itemPriority o; itemRuntime := itemRuntime o |}.

Definition setPriority (o : OutputItem) (v : gmap string Value) : OutputItem :=
  {| itemName := itemName o; itemNamespace := itemNamespace o;
     itemLabels := itemLabels o; itemAnnotations := itemAnnotations o;
     itemOwnerReferences := itemOwnerReferences o;
     itemScheduling := itemScheduling o;
     itemTolerations := itemTolerations o;
     itemAffinity := itemAffinity o; itemNodeSelector := itemNodeSelector o;
     itemResources := itemResources o;
     itemTopologySpreadConstraints := itemTopologySpreadConstraints o;
     itemPriority := Some v; itemRuntime := itemRuntime o |}.

Definition setRuntime (o : OutputItem) (v : gmap string Value) : OutputItem :=
  {| itemName := itemName o; itemNamespace := itemNamespace o;
     itemLabels := itemLabels o; itemAnnotations := itemAnnotations o;
     itemOwnerReferences := itemOwnerReferences o;
     itemScheduling := itemScheduling o;
     itemTolerations := itemTolerations o;
     itemAffinity := itemAffinity o; itemNodeSelector := itemNodeSelector o;
     itemResources := itemResources o;
     itemTopologySpreadConstraints := itemTopologySpreadConstraints o;
     itemPriority := itemPriority o; itemRuntime := Some v |}.

(** [extractSchedulingSubcommand] writes through the pointer [outputItem];
    here it returns the updated item. *)
Definition extractSchedulingSubcommand (item : Unstructured)
    (outputItem : OutputItem) (subCommand : string) : OutputItem :=
  let specPath := getPodSpecPath item in
  let obj := Object item in
  if decide (subCommand = "tolerations") then
    match NestedSlice obj (specPath ++ ["tolerations"]) with
    | Found tolerations =>
        if decide (0 < length tolerations)
        then setTolerations outputItem tolerations else outputItem
    | _ => outputItem
    end
  else if decide (subCommand = "affinity") then
    match NestedMap obj (specPath ++ ["affinity"]) with
    | Found affinity =>
        if decide (0 < size affinity)
        then setAffinity outputItem affinity else outputItem
    | _ => outputItem
    end
  else if decide (subCommand = "nodeselector") then
    match NestedStringMap obj (specPath ++ ["nodeSelector"]) with
    | Found nodeSelector =>
        if decide (0 < size nodeSelector)
        then setNodeSelector outputItem nodeSelector else outputItem
    | _ => outputItem
    end
  else if decide (subCommand = "resources") then
    let resources := resourcesMap item in
    if decide (0 < size resources)
    then setResources outputItem resources else outputItem
  else if decide (subCommand = "topology") then
    match NestedSlice obj (specPath ++ ["topologySpreadConstraints"]) with
    | Found topology =>
        if decide (0 < length topology)
        then setTopology outputItem topology else outputItem
    | _ => outputItem
    end
  else if decide (subCommand = "priority") then
    let priority := priorityMap item in
    if decide (0 < size priority)
    then setPriority outputItem priority else outputItem
  else if decide (subCommand = "runtime") then
    let runtime := runtimeMap item in
    if decide (0 < size runtime)
    then setRuntime outputItem runtime else outputItem
  else outputItem.

(** The [OutputItem] literal of [main]: only the name (and namespace) set. *)
Definition newOutputItem (name namespace : string) : OutputItem :=
  {| itemName := name; itemNamespace := namespace;
     itemLabels := None; itemAnnotations := None;
     itemOwnerReferences := []; itemScheduling := None;
     itemTolerations := []; itemAffinity := None; itemNodeSelector := None;
     itemResources := None; itemTopologySpreadConstraints := [];
     itemPriority := None; itemRuntime := None |}.

(** ** Go's [unicode] package

    For a string that holds a byte outside ASCII, [strings.ToLower] returns
    [strings.Map(unicode.ToLower, s)]: the string is decoded as UTF-8 and
    every rune is lowered by the case tables of the Go release in use.  The
    tables are data of the standard library, not of this program; the
    development is carried out for any such function. *)
Module unicode.

Class Tables := { MapToLower : string → string }.

End unicode.

(** ** Go's [strings] package, on byte strings *)
Module gostrings.

(** [c < utf8.RuneSelf] *)
Definition isASCIIByte (c : ascii) : bool := (N_of_ascii c <? 128)%N.

(** ['A' <= c && c <= 'Z'] *)
Definition isUpperByte (c : ascii) : bool :=
  let n := N_of_ascii c in ((65 <=? n) && (n <=? 90))%N.

(** The first loop of [strings.ToLower]: [isASCII] and [hasUpper]. *)
Fixpoint isASCII (s : string) : bool :=
  match s with
  | EmptyString => true
  | String c rest => isASCIIByte c && isASCII rest
  end.

Fixpoint hasUpper (s : string) : bool :=
  match s with
  | EmptyString => false
  | String c rest => isUpperByte c || hasUpper rest
  end.

(** [c += 'a' - 'A'] for the bytes A-Z; every other byte is kept. *)
Definition lowerByte (c : ascii) : ascii :=
  if isUpperByte c then ascii_of_N (N_of_ascii c + 32) else c.

(** The second loop, which builds the result for an ASCII string. *)
Fixpoint lowerASCII (s : string) : string :=
  match s with
  | EmptyString => EmptyString
  | String c rest => String (lowerByte c) (lowerASCII rest)
  end.

(** [strings.ToLower]: an ASCII string without capitals is returned as it
    is, an ASCII string with capitals is rebuilt byte by byte, any other
    string goes through the Unicode tables. *)
Definition ToLower {tables : unicode.Tables} (s : string) : string :=
  if isASCII s then
    if negb (hasUpper s) then s else lowerASCII s
  else unicode.MapToLower s.

Fixpoint Contains (s substr : string) : bool :=
  String.prefix substr s
  || match s with
     | EmptyString => false
     | String _ rest => Contains rest substr
     end.

(** [strings.Count(s, "/")] *)
Fixpoint CountSlash (s : string) : nat :=
  match s with
  | EmptyString => 0
  | String c rest =>
      (if Ascii.eqb c "/" then 1 else 0) + CountSlash rest
  end.

(** [s[:i], s[i+1:]] for [i := strings.Index(s, "/")], when there is one. *)
Fixpoint CutSlash (s : string) : option (string * string) :=
  match s with
  | EmptyString => None
  | String c rest =>
      if Ascii.eqb c "/" then Some (EmptyString, rest)
      else match CutSlash rest with
           | Some (before, after) => Some (String c before, after)
           | None => None
           end
  end.

End gostrings.

(** ** [k8s.io/apimachinery/pkg/runtime/schema] *)
Module schema.

Record GroupVersionResource := {
  Group : string;
  Version : string;
  Resource : string
}.

(** [ParseGroupVersion]: [None] is the error return. *)
Definition ParseGroupVersion (gv : string) : option (string * string) :=
  if decide (String.length gv = 0 ∨ gv = "/") then Some ("", "")
  else match gostrings.CountSlash gv with
       | 0 => Some ("", gv)
       | 1 => gostrings.CutSlash gv
       | _ => None
       end.

End schema.

(** ** [k8s.io/apimachinery/pkg/apis/meta/v1] *)
Module metav1.

Record APIResource := {
  Name : string;
  Namespaced : bool;
  Kind : string;
  ShortNames : list string
}.

Record APIResourceList := {
  GroupVersion : string;
  APIResources : list APIResource
}.

End metav1.

(** ** resources.go *)

Inductive gvrError : Type :=
  | ErrDiscoveryClient (cause : string)
      (* "error creating discovery client: %v" *)
  | ErrDiscoveryFailed (cause : string)
      (* "API discovery failed: %v" *)
  | ErrNotFound (resourceType : string).
      (* "resource type '%s' not found in cluster" *)

(** What the cluster answers to [getGVR]: the outcome of
    [NewDiscoveryClientForConfig], then of [ServerGroupsAndResources]
    (a slice of pointers that may be nil, with nil members, and an error
    that may come together with a partial slice). *)
Record discovery := {
  clientErr : option string;
  apiResourceLists : option (list (option metav1.APIResourceList));
  discoveryErr : option string
}.

(** The short-name loop: [matched = true; break] on the first hit. *)
Fixpoint shortNameLoop {tables : unicode.Tables}
    (resourceTypeLower : string) (shortNames : list string) : bool :=
  match shortNames with
  | [] => false
  | shortName :: rest =>
      if decide (gostrings.ToLower shortName = resourceTypeLower) then true
      else shortNameLoop resourceTypeLower rest
  end.

(** The value of [matched] at line 70, for an entry that was not skipped. *)
Definition matched {tables : unicode.Tables}
    (resourceTypeLower : string) (apiResource : metav1.APIResource) : bool :=
  let resourceNameLower := gostrings.ToLower (metav1.Name apiResource) in
  let kindLower := gostrings.ToLower (metav1.Kind apiResource) in
  let matched :=
    bool_decide (resourceNameLower = resourceTypeLower)
    || bool_decide (kindLower = resourceTypeLower) in
  if negb matched then shortNameLoop resourceTypeLower (metav1.ShortNames apiResource)
  else matched.

(** The inner loop over [apiResourceList.APIResources]; [None] means the
    loop ran to its end without returning. *)
Fixpoint resourceLoop {tables : unicode.Tables}
    (resourceTypeLower groupVersion : string)
    (apiResources : list metav1.APIResource)
  : option (schema.GroupVersionResource * bool) :=
  match apiResources with
  | [] => None
  | apiResource :: rest =>
      if gostrings.Contains (metav1.Name apiResource) "/" then
        resourceLoop resourceTypeLower groupVersion rest
      else if matched resourceTypeLower apiResource then
        match schema.ParseGroupVersion groupVersion with
        | None => resourceLoop resourceTypeLower groupVersion rest
        | Some (group, version) =>
            Some ({| schema.Group := group;
                     schema.Version := version;
                     schema.Resource := metav1.Name apiResource |},
                  metav1.Namespaced apiResource)
        end
      else resourceLoop resourceTypeLower groupVersion rest
  end.

(** The outer loop over [apiResourceLists]. *)
Fixpoint listLoop {tables : unicode.Tables} (resourceTypeLower : string)
    (lists : list (option metav1.APIResourceList))
  : option (schema.GroupVersionResource * bool) :=
  match lists with
  | [] => None
  | None :: rest => listLoop resourceTypeLower rest
  | Some apiResourceList :: rest =>
      match resourceLoop resourceTypeLower
              (metav1.GroupVersion apiResourceList)
              (metav1.APIResources apiResourceList) with
      | Some r => Some r
      | None => listLoop resourceTypeLower rest
      end
  end.

(** Ranging over a nil slice runs no iteration. *)
Definition sliceOf {A} (s : option (list A)) : list A :=
  match s with Some l => l | None => [] end.

Definition getGVR {tables : unicode.Tables}
    (resourceType : string) (config : discovery)
  : gvrError + (schema.GroupVersionResource * bool) :=
  match clientErr config with
  | Some err => inl (ErrDiscoveryClient err)
  | None =>
      match discoveryErr config, apiResourceLists config with
      | Some err, None => inl (ErrDiscoveryFailed err)
      | _, lists =>
          let resourceTypeLower := gostrings.ToLower resourceType in
          match listLoop resourceTypeLower (sliceOf lists) with
          | Some r => inr r
          | None => inl (ErrNotFound resourceType)
          end
      end
  end.

(** ** Vocabulary of the statements

    Nothing below is executed by the program: these definitions name the
    parts of a document and of a catalog that the properties speak about. *)

(** The value stored under the spec root at key [name]. *)
Definition fieldAt (item : Unstructured) (name : string) : nested Value :=
  NestedFieldNoCopy (Object item) (getPodSpecPath item ++ [name]).

(** What one container declares for resource [k] under
    [resources.requests] or [resources.limits] ([part]). *)
Definition declared (part k : string) (container : Value) : option Value :=
  match container with
  | VMap containerMap =>
      match asMap (containerMap !! "resources") with
      | Some resources =>
          match asMap (resources !! part) with
          | Some m => m !! k
          | None => None
          end
      | None => None
      end
  | _ => None
  end.

(** The accumulated value for a key after one more container: comma-join
    when both are strings, otherwise the earlier value stays. *)
Definition joined (existing v : option Value) : option Value :=
  match v with
  | None => existing
  | Some v' =>
      match existing with
      | None => Some v'
      | Some e =>
          match asString e, asString v' with
          | Some existingStr, Some vStr =>
              Some (VString (existingStr +:+ "," +:+ vStr))
          | _, _ => Some e
          end
      end
  end.

(** Last writer wins: the accumulation of the [resources] subcommand. *)
Definition overwritten (existing v : option Value) : option Value :=
  match v with
  | None => existing
  | Some v' => Some v'
  end.

(** The document with the key at path [fields] removed, otherwise
    identical. *)
Fixpoint deleteField (obj : gmap string Value) (fields : list string)
  : gmap string Value :=
  match fields with
  | [] => obj
  | k :: rest =>
      match rest with
      | [] => delete k obj
      | _ :: _ =>
          match obj !! k with
          | Some (VMap m) => <[k := VMap (deleteField m rest)]> obj
          | _ => obj
          end
      end
  end.

Definition withoutField (item : Unstructured) (name : string) : Unstructured :=
  {| Object := deleteField (Object item) (getPodSpecPath item ++ [name]) |}.

(** Presence rules of the full snapshot, read on the document. *)
Definition stringPresent (item : Unstructured) (name : string) : Prop :=
  ∃ s, fieldAt item name = Found (VString s) ∧ s ≠ "".

Definition slicePresent (item : Unstructured) (name : string) : Prop :=
  ∃ l, fieldAt item name = Found (VSlice l) ∧ l ≠ [].

Definition mapPresent (item : Unstructured) (name : string) : Prop :=
  ∃ m, fieldAt item name = Found (VMap m) ∧ m ≠ ∅.

Definition stringMapPresent (item : Unstructured) (name : string) : Prop :=
  ∃ m, fieldAt item name = Found (VMap m) ∧ m ≠ ∅
       ∧ map_Forall (λ _ v, is_Some (asString v)) m.

Definition intPresent (item : Unstructured) (name : string) : Prop :=
  ∃ n, fieldAt item name = Found (VInt64 n).

Definition flagSet (item : Unstructured) (name : string) : Prop :=
  fieldAt item name = Found (VBool true).

Definition boolPresent (item : Unstructured) (name : string) : Prop :=
  ∃ b, fieldAt item name = Found (VBool b).

Definition resourcesPresent (item : Unstructured) (part : string) : Prop :=
  ∃ containers c k v,
    fieldAt item "containers" = Found (VSlice containers)
    ∧ c ∈ containers ∧ declared part k c = Some v.

Definition anyFieldPresent (item : Unstructured) : Prop :=
  stringMapPresent item "nodeSelector"
  ∨ stringPresent item "nodeName"
  ∨ mapPresent item "affinity"
  ∨ slicePresent item "tolerations"
  ∨ slicePresent item "topologySpreadConstraints"
  ∨ resourcesPresent item "requests"
  ∨ resourcesPresent item "limits"
  ∨ stringPresent item "schedulerName"
  ∨ stringPresent item "priorityClassName"
  ∨ intPresent item "priority"
  ∨ stringPresent item "preemptionPolicy"
  ∨ stringPresent item "runtimeClassName"
  ∨ flagSet item "hostNetwork"
  ∨ flagSet item "hostPID"
  ∨ flagSet item "hostIPC".

(** Presence of the field group a subcommand extracts; an unknown
    subcommand has no group. *)
Definition groupPresent (item : Unstructured) (subCommand : string) : Prop :=
  (subCommand = "tolerations" ∧ slicePresent item "tolerations")
  ∨ (subCommand = "affinity" ∧ mapPresent item "affinity")
  ∨ (subCommand = "nodeselector" ∧ stringMapPresent item "nodeSelector")
  ∨ (subCommand = "resources"
     ∧ (resourcesPresent item "requests" ∨ resourcesPresent item "limits"))
  ∨ (subCommand = "topology" ∧ slicePresent item "topologySpreadConstraints")
  ∨ (subCommand = "priority"
     ∧ (stringPresent item "priorityClassName" ∨ intPresent item "priority"
        ∨ stringPresent item "preemptionPolicy"))
  ∨ (subCommand = "runtime"
     ∧ (stringPresent item "runtimeClassName" ∨ boolPresent item "hostNetwork"
        ∨ boolPresent item "hostPID" ∨ boolPresent item "hostIPC")).

(** The catalog in iteration order: every entry with the group/version
    string of the list it came in; nil lists contribute nothing. *)
Definition entries (lists : list (option metav1.APIResourceList))
  : list (string * metav1.APIResource) :=
  flat_map (λ l, match l with
                 | Some apiResourceList =>
                     map (pair (metav1.GroupVersion apiResourceList))
                         (metav1.APIResources apiResourceList)
                 | None => []
                 end) lists.

(** The match predicate of the resolver on one entry. *)
Definition entryMatches {tables : unicode.Tables}
    (resourceType : string) (apiResource : metav1.APIResource) : bool :=
  negb (gostrings.Contains (metav1.Name apiResource) "/")
  && matched (gostrings.ToLower resourceType) apiResource.

(** The coordinate an entry resolves to, when its group/version parses. *)
Definition coordinate (entry : string * metav1.APIResource)
  : option (schema.GroupVersionResource * bool) :=
  match schema.ParseGroupVersion entry.1 with
  | Some (group, version) =>
      Some ({| schema.Group := group;
               schema.Version := version;
               schema.Resource := metav1.Name entry.2 |},
            metav1.Namespaced entry.2)
  | None => None
  end.

(** An entry the scan returns on: it matches and has a coordinate. *)
Definition selects {tables : unicode.Tables}
    (resourceType : string) (entry : string * metav1.APIResource) : bool :=
  entryMatches resourceType entry.2
  && bool_decide (is_Some (schema.ParseGroupVersion entry.1)).

(** Case-insensitive equality as the resolver computes it. *)
Definition equalFold {tables : unicode.Tables} (a b : string) : Prop :=
  gostrings.ToLower a = gostrings.ToLower b.

(** Equality up to the case of letters, said of the text alone and without
    any lowering: the two strings have the same length and, place by place,
    hold the same byte or the capital and the small form of one of the
    twenty-six letters. *)
Definition capitals : list ascii :=
  String.list_ascii_of_string "ABCDEFGHIJKLMNOPQRSTUVWXYZ".

Definition smalls : list ascii :=
  String.list_ascii_of_string "abcdefghijklmnopqrstuvwxyz".

Definition sameLetter (c d : ascii) : Prop :=
  c = d ∨ (c, d) ∈ zip capitals smalls ∨ (d, c) ∈ zip capitals smalls.

Fixpoint equalIgnoringCase (a b : string) : Prop :=
  match a, b with
  | EmptyString, EmptyString => True
  | String c a', String d b' => sameLetter c d ∧ equalIgnoringCase a' b'
  | _, _ => False
  end.

(** The three keys of a catalog entry are ASCII text. *)
Definition asciiKeys (apiResource : metav1.APIResource) : Prop :=
  gostrings.isASCII (metav1.Name apiResource) = true
  ∧ gostrings.isASCII (metav1.Kind apiResource) = true
  ∧ Forall (λ alias, gostrings.isASCII alias = true)
      (metav1.ShortNames apiResource).

(** The presence rule the specification words for the numeric priority:
    the key exists under the spec root, whatever it holds. *)
Definition keyExists (item : Unstructured) (name : string) : Prop :=
  ∃ v, fieldAt item name = Found v.

(** Some field is present, with the priority counted as the specification
    words it: present when its key exists. *)
Definition anyFieldPresentAsWorded (item : Unstructured) : Prop :=
  stringMapPresent item "nodeSelector"
  ∨ stringPresent item "nodeName"
  ∨ mapPresent item "affinity"
  ∨ slicePresent item "tolerations"
  ∨ slicePresent item "topologySpreadConstraints"
  ∨ resourcesPresent item "requests"
  ∨ resourcesPresent item "limits"
  ∨ stringPresent item "schedulerName"
  ∨ stringPresent item "priorityClassName"
  ∨ keyExists item "priority"
  ∨ stringPresent item "preemptionPolicy"
  ∨ stringPresent item "runtimeClassName"
  ∨ flagSet item "hostNetwork"
  ∨ flagSet item "hostPID"
  ∨ flagSet item "hostIPC".

(** Comma-joined concatenation of strings, in order. *)
Definition commaJoin (l : list string) : string := String.concat "," l.

(** ** Example documents and catalogs *)

Definition podOf (spec : gmap string Value) : Unstructured :=
  {| Object := {[ "kind" := VString "Pod"; "spec" := VMap spec ]} |}.

Definition deploymentOf (spec : gmap string Value) : Unstructured :=
  {| Object := {[ "kind" := VString "Deployment"; "spec" := VMap spec ]} |}.

Definition containerOf (name : string) (requests : gmap string Value) : Value :=
  VMap {[ "name" := VString name;
          "resources" := VMap {[ "requests" := VMap requests ]} ]}.

(** Two containers requesting cpu "1" and "2". *)
Definition twoContainerPod : Unstructured :=
  podOf {[ "containers" :=
             VSlice [containerOf "a" {[ "cpu" := VString "1" ]};
                     containerOf "b" {[ "cpu" := VString "2" ]}] ]}.

(** The second container gives its cpu request as a number. *)
Definition mixedContainerPod : Unstructured :=
  podOf {[ "containers" :=
             VSlice [containerOf "a" {[ "cpu" := VString "1" ]};
                     containerOf "b" {[ "cpu" := VInt64 2 ]}] ]}.

Definition barePod : Unstructured := podOf ∅.

Definition zeroPriorityPod : Unstructured := podOf {[ "priority" := VInt64 0 ]}.

(** [priority: 0.5]: the key exists and holds a float64. *)
Definition fractionalPriorityPod : Unstructured :=
  podOf {[ "priority" := VFloat64 4602678819172646912 ]}.

Definition emptySelectorPod : Unstructured :=
  podOf {[ "nodeSelector" := VMap ∅; "nodeName" := VString "node-1" ]}.

Definition toleration : Value :=
  VMap {[ "key" := VString "gpu"; "operator" := VString "Exists" ]}.

Definition nestedDeployment : Unstructured :=
  deploymentOf
    {[ "template" := VMap {[ "spec" := VMap {[ "tolerations" := VSlice [toleration] ]} ]} ]}.

Definition misplacedDeployment : Unstructured :=
  deploymentOf {[ "tolerations" := VSlice [toleration] ]}.

Definition podsEntry : metav1.APIResource :=
  {| metav1.Name := "pods"; metav1.Namespaced := true;
     metav1.Kind := "Pod"; metav1.ShortNames := ["po"] |}.

Definition podsLogEntry : metav1.APIResource :=
  {| metav1.Name := "pods/log"; metav1.Namespaced := true;
     metav1.Kind := "Pod"; metav1.ShortNames := [] |}.

Definition ingressEntry : metav1.APIResource :=
  {| metav1.Name := "ingresses"; metav1.Namespaced := true;
     metav1.Kind := "Ingress"; metav1.ShortNames := ["ing"] |}.

(** [ingresses] is served by two groups; one list pointer is nil. *)
Definition migrationLists : list (option metav1.APIResourceList) :=
  [Some {| metav1.GroupVersion := "v1";
           metav1.APIResources := [podsEntry; podsLogEntry] |};
   None;
   Some {| metav1.GroupVersion := "extensions/v1beta1";
           metav1.APIResources := [ingressEntry] |};
   Some {| metav1.GroupVersion := "networking.k8s.io/v1";
           metav1.APIResources := [ingressEntry] |}].

Definition migrationCatalog : discovery :=
  {| clientErr := None;
     apiResourceLists := Some migrationLists;
     discoveryErr := None |}.

(** The same lists, returned together with an error for a failed group. *)
Definition partialCatalog : discovery :=
  {| clientErr := None;
     apiResourceLists := Some migrationLists;
     discoveryErr := Some "unable to retrieve the complete list of server APIs" |}.

(** A list whose group/version string has two separators. *)
Definition unparsableCatalog : discovery :=
  {| clientErr := None;
     apiResourceLists :=
       Some [Some {| metav1.GroupVersion := "apps/v1/extra";
                     metav1.APIResources := [podsEntry] |}];
     discoveryErr := None |}.

(** [pods] is served twice; the group/version string of the list that
    comes first has two separators. *)
Definition shadowedCatalog : discovery :=
  {| clientErr := None;
     apiResourceLists :=
       Some [Some {| metav1.GroupVersion := "apps/v1/extra";
                     metav1.APIResources := [podsEntry] |};
             Some {| metav1.GroupVersion := "v1";
                     metav1.APIResources := [podsEntry] |}];
     discoveryErr := None |}.

(** Lowering for the examples, which are text over ASCII and U+0130, the
    capital I with a dot above (UTF-8 bytes C4 B0): Unicode lowers it to i.
    Every other byte is kept. *)
Fixpoint lowerDottedI (s : string) : string :=
  match s with
  | EmptyString => EmptyString
  | String c rest =>
      match rest with
      | String d rest' =>
          if Ascii.eqb c "196" && Ascii.eqb d "176"
          then String "i" (lowerDottedI rest')
          else String (gostrings.lowerByte c) (lowerDottedI rest)
      | EmptyString => String (gostrings.lowerByte c) EmptyString
      end
  end.

Definition exampleTables : unicode.Tables :=
  {| unicode.MapToLower := lowerDottedI |}.

(** "İNG": the short name of [ingressEntry] in capitals, with U+0130 for
    the first letter. *)
Definition dottedING : string := String "196" (String "176" "NG").

(** ** More getters of [Unstructured] *)

Definition GetNamespace (item : Unstructured) : string :=
  match NestedString (Object item) ["metadata"; "namespace"] with
  | Found s => s
  | _ => ""
  end.

(** [m[k].(string)] with the comma-ok form. *)
Definition stringAt (m : gmap string Value) (k : string) : option string :=
  m !! k ≫= asString.

(** ** extractors.go: owner references *)

(** The [ownerRef] built by one iteration of the loop for a map entry. *)
Definition ownerReferenceOf (item : Unstructured) (refMap : gmap string Value)
  : OwnerReference :=
  {| ownerNamespace :=
       match stringAt refMap "namespace" with
       | Some namespace =>
           if decide (namespace ≠ "") then namespace else GetNamespace item
       | None => GetNamespace item
       end;
     ownerKind :=
       match stringAt refMap "kind" with Some kind => kind | None => "" end;
     ownerName :=
       match stringAt refMap "name" with Some name => name | None => "" end |}.

(** [for _, ref := range metadata], with the slice [ownerRefs] built so
    far. *)
Fixpoint ownerLoop (item : Unstructured) (metadata : list Value)
    (ownerRefs : list OwnerReference) : list OwnerReference :=
  match metadata with
  | [] => ownerRefs
  | ref :: rest =>
      match ref with
      | VMap refMap =>
          ownerLoop item rest (ownerRefs ++ [ownerReferenceOf item refMap])
      | _ => ownerLoop item rest ownerRefs
      end
  end.

Definition extractOwnerReferences (item : Unstructured) : list OwnerReference :=
  match NestedSlice (Object item) ["metadata"; "ownerReferences"] with
  | Found metadata => ownerLoop item metadata []
  | _ => []
  end.

(** ** resources.go: retrieval *)

(** The dynamic client as [getResources] uses it.  A resource interface is
    [client.Resource(gvr)], narrowed to one namespace or not ([None]); [Get]
    and [List] answer with an object, a list of objects, or an error. *)
Record dynamicInterface := {
  Get : schema.GroupVersionResource → option string → string
        → string + Unstructured;
  List : schema.GroupVersionResource → option string → string
         → string + list Unstructured
}.

Inductive retrievalError : Type :=
  | ErrGetting (name cause : string)   (* "error getting %s: %v" *)
  | ErrListing (cause : string).       (* "error listing resources: %v" *)

(** The choice of [resourceInterface]. *)
Definition resourceScope (namespaced : bool) (namespace : string)
  : option string :=
  if namespaced then
    if decide (namespace = "") then None else Some namespace
  else None.

(** [for _, name := range resourceNames], with [items] so far. *)
Fixpoint getLoop (get : string → string + Unstructured)
    (resourceNames : list string) (items : list Unstructured)
  : retrievalError + list Unstructured :=
  match resourceNames with
  | [] => inr items
  | name :: rest =>
      match get name with
      | inl err => inl (ErrGetting name err)
      | inr item => getLoop get rest (items ++ [item])
      end
  end.

(** [labelSelector] is nil or a selector, given by its [String()]. *)
Definition getResources (client : dynamicInterface)
    (gvr : schema.GroupVersionResource) (namespaced : bool)
    (namespace : string) (resourceNames : list string)
    (labelSelector : option string)
  : retrievalError + list Unstructured :=
  let scope := resourceScope namespaced namespace in
  if decide (0 < length resourceNames) then
    getLoop (Get client gvr scope) resourceNames []
  else
    let listOptions :=
      match labelSelector with Some selector => selector | None => "" end in
    match List client gvr scope listOptions with
    | inl err => inl (ErrListing err)
    | inr list => inr list
    end.

(** ** main.go: arguments *)
Module gobytes.

(** [strings.HasPrefix(s, prefix)] *)
Definition HasPrefix (s prefix : string) : bool := String.prefix prefix s.

(** [s[n:]] for [n <= len(s)] *)
Fixpoint from (n : nat) (s : string) : string :=
  match n, s with
  | S n', String _ rest => from n' rest
  | _, _ => s
  end.

End gobytes.

Definition validSubcommands : list string :=
  ["tolerations"; "affinity"; "nodeselector";
   "resources"; "topology"; "priority"; "runtime"].

Fixpoint subcommandLoop (cmd : string) (valid : list string) : bool :=
  match valid with
  | [] => false
  | v :: rest => if decide (cmd = v) then true else subcommandLoop cmd rest
  end.

Definition isSchedulingSubcommand (cmd : string) : bool :=
  subcommandLoop cmd validSubcommands.

Definition isHelpFlag (arg : string) : bool :=
  bool_decide (arg = "-h") || bool_decide (arg = "--help")
  || bool_decide (arg = "-help").

Fixpoint containsHelpFlag (args : list string) : bool :=
  match args with
  | [] => false
  | arg :: rest => if isHelpFlag arg then true else containsHelpFlag rest
  end.

(** The keys of the map [stringFlags]; ranging over a Go map visits them
    in an unspecified order, which the functions below take as [order]. *)
Definition stringFlags : list string := ["-o"; "-n"; "-l"].

(** [boolFlags[shortFlag]]: false for a key that is not in the map. *)
Definition boolFlags (shortFlag : string) : bool :=
  bool_decide (shortFlag = "-A") || bool_decide (shortFlag = "-c").

(** [for flag := range stringFlags]: the two words appended when a flag
    with an attached value is found, [None] when the loop ends with
    [expanded] still false. *)
Fixpoint stringFlagLoop (order : list string) (arg : string)
  : option (list string) :=
  match order with
  | [] => None
  | flag :: rest =>
      if gobytes.HasPrefix arg flag
         && (String.length flag <? String.length arg)%nat
      then
        match String.get (String.length flag) arg with
        | Some next =>
            if Ascii.eqb next "=" then stringFlagLoop rest arg
            else Some [flag; gobytes.from (String.length flag) arg]
        | None => stringFlagLoop rest arg
        end
      else stringFlagLoop rest arg
  end.

(** [for i := 1; i < len(arg); i++] over the bytes [arg[1:]]; the one-byte
    string [string(arg[i])] is written [String c ""]. *)
Fixpoint allBoolLoop (bytes : string) : bool :=
  match bytes with
  | EmptyString => true
  | String c rest =>
      if boolFlags ("-" +:+ String c "") then allBoolLoop rest else false
  end.

Fixpoint splitLoop (bytes : string) (result : list string) : list string :=
  match bytes with
  | EmptyString => result
  | String c rest => splitLoop rest (result ++ ["-" +:+ String c ""])
  end.

(** One iteration of [for _, arg := range args]. *)
Definition preprocessArg (order : list string) (result : list string)
    (arg : string) : list string :=
  if negb (gobytes.HasPrefix arg "-") then result ++ [arg]
  else if gobytes.HasPrefix arg "--" then result ++ [arg]
  else
    match stringFlagLoop order arg with
    | Some words => result ++ words
    | None =>
        if (2 <? String.length arg)%nat && allBoolLoop (gobytes.from 1 arg)
        then splitLoop (gobytes.from 1 arg) result
        else result ++ [arg]
    end.

Definition preprocessArgs (order : list string) (args : list string)
  : list string :=
  fold_left (preprocessArg order) args [].

(** What [main] does with [os.Args] before it parses flags. *)
Inductive invocation : Type :=
  | PrintUsage                               (* printUsage, exit 0 *)
  | HandleCompletion (args : list string)    (* handleCompletion, exit 0 *)
  | PrintSchedulingUsage (subCommand : string)  (* exit 0 *)
  | PrintCommandUsage (cmdType : string)     (* exit 0 *)
  | RejectCommand (cmdType : string)         (* error, printUsage, exit 1 *)
  | Proceed (cmdType subCommand resourceType : string) (argsOffset : nat).

Definition parseCommand (osArgs : list string) : invocation :=
  if (length osArgs <? 2)%nat || isHelpFlag (osArgs !!! 1) then PrintUsage
  else
    let cmdType := osArgs !!! 1 in
    if decide (cmdType = "completion") then HandleCompletion (drop 2 osArgs)
    else if decide (cmdType = "scheduling") then
      if (length osArgs <? 3)%nat || isHelpFlag (osArgs !!! 2)
      then PrintSchedulingUsage ""
      else if isSchedulingSubcommand (osArgs !!! 2) then
        let subCommand := osArgs !!! 2 in
        if (length osArgs <? 4)%nat || isHelpFlag (osArgs !!! 3)
        then PrintSchedulingUsage subCommand
        else if containsHelpFlag (drop 4 osArgs)
        then PrintSchedulingUsage subCommand
        else Proceed cmdType subCommand (osArgs !!! 3) 4
      else
        if containsHelpFlag (drop 3 osArgs) then PrintSchedulingUsage ""
        else Proceed cmdType "" (osArgs !!! 2) 3
    else
      if bool_decide (cmdType ≠ "labels")
         && bool_decide (cmdType ≠ "annotations")
         && bool_decide (cmdType ≠ "owner")
      then RejectCommand cmdType
      else if (length osArgs <? 3)%nat || isHelpFlag (osArgs !!! 2)
      then PrintCommandUsage cmdType
      else if containsHelpFlag (drop 3 osArgs)
      then PrintCommandUsage cmdType
      else Proceed cmdType "" (osArgs !!! 2) 3.

(** completion.go *)
Inductive completion : Type :=
  | CompletionUsage                   (* printCompletionUsage, exit 0 *)
  | GenerateBash
  | GenerateZsh
  | GenerateFish
  | UnsupportedShell (shell : string). (* error, exit 1 *)

Definition handleCompletion (args : list string) : completion :=
  if bool_decide (length args = 0)
     || bool_decide (args !!! 0 = "-h") || bool_decide (args !!! 0 = "--help")
  then CompletionUsage
  else
    let shell := args !!! 0 in
    if decide (shell = "bash") then GenerateBash
    else if decide (shell = "zsh") then GenerateZsh
    else if decide (shell = "fish") then GenerateFish
    else UnsupportedShell shell.

(** ** The kubeconfig of the current context *)

Record Context := { contextNamespace : string }.

Record Config := {
  CurrentContext : string;
  Contexts : gmap string (option Context)
}.

(** What [getCurrentNamespace] asks of the operating system: the variable
    KUBECONFIG, [os.UserHomeDir] ([None] on error), [filepath.Join] and
    [clientcmd.LoadFromFile] ([None] on error). *)
Record system := {
  KUBECONFIG : string;
  UserHomeDir : option string;
  Join : list string → string;
  LoadFromFile : string → option Config
}.

Definition getCurrentNamespace (os : system) : string :=
  let kubeconfig :=
    if decide (KUBECONFIG os = "") then
      match UserHomeDir os with
      | None => None
      | Some home => Some (Join os [home; ".kube"; "config"])
      end
    else Some (KUBECONFIG os) in
  match kubeconfig with
  | None => "default"
  | Some kubeconfig =>
      match LoadFromFile os kubeconfig with
      | None => "default"
      | Some config =>
          let contextName := CurrentContext config in
          if decide (contextName = "") then "default"
          else
            match Contexts config !! contextName with
            | Some (Some context) =>
                if decide (contextNamespace context ≠ "")
                then contextNamespace context
                else "default"
            | _ => "default"
            end
      end
  end.

(** The namespace [main] hands to [getResources], from the flags [-A] and
    [-n]. *)
Definition chosenNamespace (os : system) (allNamespaces : bool)
    (namespace : string) (namespaced : bool) : string :=
  if allNamespaces then ""
  else if bool_decide (namespace = "") && namespaced
       then getCurrentNamespace os
       else namespace.

(** ** Vocabulary of the further properties *)

(** The file [getCurrentNamespace] reads: the one KUBECONFIG names, else
    [.kube/config] under the home directory. *)
Definition kubeconfigAt (os : system) (path : string) : Prop :=
  (KUBECONFIG os ≠ "" ∧ path = KUBECONFIG os)
  ∨ (KUBECONFIG os = ""
     ∧ ∃ home, UserHomeDir os = Some home
               ∧ path = Join os [home; ".kube"; "config"]).

(** The current context of the kubeconfig names [namespace]: the file
    loads, its current context has a name and an entry, and the entry
    holds [namespace], which is not empty. *)
Definition currentContextNames (os : system) (namespace : string) : Prop :=
  ∃ path config context,
    kubeconfigAt os path
    ∧ LoadFromFile os path = Some config
    ∧ CurrentContext config ≠ ""
    ∧ Contexts config !! CurrentContext config = Some (Some context)
    ∧ contextNamespace context = namespace
    ∧ namespace ≠ "".

(** The value found at the spec root itself. *)
Definition specRoot (item : Unstructured) : nested Value :=
  NestedFieldNoCopy (Object item) (getPodSpecPath item).

(** What the snapshot binds to a resource key, under requests or limits. *)
Definition snapshotResource (item : Unstructured) (part k : string)
  : option Value :=
  s ← extractSchedulingInfo item;
  m ← (if decide (part = "requests") then ResourceRequests s
       else ResourceLimits s);
  m !! k.

(** What the [resources] subcommand binds to a resource key. *)
Definition subcommandResource (item : Unstructured) (part k : string)
  : option Value :=
  resources ←
    itemResources
      (extractSchedulingSubcommand item (newOutputItem "" "") "resources");
  m ← asMap (resources !! part);
  m !! k.

(** The values the containers of a document declare for a key, in
    container order. *)
Definition declarations (item : Unstructured) (part k : string) : list Value :=
  match fieldAt item "containers" with
  | Found (VSlice containers) => omap (declared part k) containers
  | _ => []
  end.

(** The owner-reference entries of a document that are mappings. *)
Definition ownerEntries (item : Unstructured) : list (gmap string Value) :=
  match NestedFieldNoCopy (Object item) ["metadata"; "ownerReferences"] with
  | Found (VSlice metadata) =>
      omap (λ ref, match ref with VMap refMap => Some refMap | _ => None end)
        metadata
  | _ => []
  end.

(** ** Further example documents *)

(** A node selector with one member that is not a string. *)
Definition mixedSelectorPod : Unstructured :=
  podOf {[ "nodeSelector" := VMap {[ "disk" := VString "ssd";
                                      "zone" := VInt64 3 ]};
           "nodeName" := VString "node-1" ]}.

(** A priority beyond the range of [int32]: 2^32 + 5. *)
Definition hugePriorityPod : Unstructured :=
  podOf {[ "priority" := VInt64 4294967301 ]}.

(** Only [hostNetwork: false] is declared. *)
Definition hostNetworkOffPod : Unstructured :=
  podOf {[ "hostNetwork" := VBool false ]}.

(** Three containers; the second is not a mapping. *)
Definition threeContainerPod : Unstructured :=
  podOf {[ "containers" :=
             VSlice [containerOf "a" {[ "cpu" := VString "1" ]};
                     VString "stray";
                     containerOf "c" {[ "cpu" := VString "3";
                                        "memory" := VString "1Gi" ]}] ]}.

(** An object in namespace [prod] with two owner references and a stray
    entry. *)
Definition ownedPod : Unstructured :=
  {| Object :=
       {[ "kind" := VString "Pod";
          "metadata" :=
            VMap {[ "name" := VString "web-0";
                    "namespace" := VString "prod";
                    "ownerReferences" :=
                      VSlice [VMap {[ "kind" := VString "ReplicaSet";
                                      "name" := VString "web" ]};
                              VInt64 7;
                              VMap {[ "kind" := VString "Node";
                                      "name" := VString "n1";
                                      "namespace" := VString "infra" ]}] ]} ]} |}.

(** A pod that carries every scheduling group. *)
Definition fullPod : Unstructured :=
  podOf {[ "tolerations" := VSlice [toleration];
           "affinity" := VMap {[ "nodeAffinity" := VMap ∅ ]};
           "nodeSelector" := VMap {[ "disk" := VString "ssd" ]};
           "containers" := VSlice [containerOf "a" {[ "cpu" := VString "1" ]}];
           "topologySpreadConstraints" :=
             VSlice [VMap {[ "maxSkew" := VInt64 1 ]}];
           "priority" := VInt64 10;
           "hostPID" := VBool false ]}.

Definition podsGVR : schema.GroupVersionResource :=
  {| schema.Group := ""; schema.Version := "v1"; schema.Resource := "pods" |}.

(** A cluster that knows two pods by name. *)
Definition exampleClient : dynamicInterface :=
  {| Get := λ _ _ name,
       if decide (name = "web-0") then inr ownedPod
       else if decide (name = "bare") then inr barePod
       else inl "not found";
     List := λ _ _ _, inr [ownedPod; barePod] |}.

(** A kubeconfig whose current context names the namespace [team-a]. *)
Definition exampleSystem : system :=
  {| KUBECONFIG := "/etc/kube/config";
     UserHomeDir := None;
     Join := String.concat "/";
     LoadFromFile := λ path,
       if decide (path = "/etc/kube/config")
       then Some {| CurrentContext := "dev";
                    Contexts :=
                      {[ "dev" := Some {| contextNamespace := "team-a" |} ]} |}
       else None |}.

(** * Properties *)

(** ** The spec root *)
Section SpecRoot.

Lemma templateLoop_spec (kind : string) (tks : list string) :
  templateLoop kind tks =
    if bool_decide (kind ∈ tks) then ["spec"; "template"; "spec"] else ["spec"].
Proof.
  induction tks as [|tk rest IH]; cbn [templateLoop].
  - by rewrite bool_decide_eq_false_2 by apply not_elem_of_nil.
  - destruct (decide (kind = tk)) as [->|Hne].
    + by rewrite bool_decide_eq_true_2 by apply list_elem_of_here.
    + rewrite IH. do 2 case_bool_decide; try done.
      * exfalso. auto using list_elem_of_further.
      * exfalso. set_solver.
Qed.

Lemma getPodSpecPath_cases (item : Unstructured) :
  getPodSpecPath item = ["spec"]
  ∨ getPodSpecPath item = ["spec"; "template"; "spec"].
Proof.
  unfold getPodSpecPath. destruct (decide _); [by left|].
  rewrite templateLoop_spec. destruct (bool_decide _); auto.
Qed.

Lemma getPodSpecPath_template (item : Unstructured) :
  getPodSpecPath item = ["spec"; "template"; "spec"]
  ↔ GetKind item ∈ templateKinds.
Proof.
  unfold getPodSpecPath. destruct (decide (GetKind item = "Pod")) as [HP|HP].
  - rewrite HP. split; [discriminate|].
    intros Hin. exfalso. revert Hin. unfold templateKinds.
    rewrite !elem_of_cons, elem_of_nil. naive_solver.
  - rewrite templateLoop_spec. destruct (bool_decide _) eqn:Hb.
    + apply bool_decide_eq_true in Hb. done.
    + apply bool_decide_eq_false in Hb. split; [discriminate|done].
Qed.

Lemma getPodSpecPath_kind (item item' : Unstructured) :
  GetKind item = GetKind item' → getPodSpecPath item = getPodSpecPath item'.
Proof. unfold getPodSpecPath. by intros ->. Qed.

Example getPodSpecPath_deployment :
  getPodSpecPath nestedDeployment = ["spec"; "template"; "spec"].
Proof. reflexivity. Qed.

Example getPodSpecPath_pod : getPodSpecPath barePod = ["spec"].
Proof. reflexivity. Qed.

End SpecRoot.

(** ** Merging the containers' requests and limits *)
Section Merge.

Lemma mergeInto_lookup (requests req : gmap string Value) (k : string) :
  mergeInto requests req !! k = joined (requests !! k) (req !! k).
Proof.
  unfold mergeInto. revert k.
  apply (map_fold_weak_ind
           (λ r m, ∀ k, r !! k = joined (requests !! k) (m !! k))).
  - intros k. by rewrite lookup_empty.
  - intros i x m r Hi IH k. unfold mergeEntry.
    destruct (decide (i = k)) as [->|Hne].
    + rewrite lookup_insert_eq. pose proof (IH k) as Hk.
      rewrite Hi in Hk. cbn [joined] in Hk. rewrite Hk. cbn [joined].
      destruct (requests !! k) as [e|] eqn:He.
      * destruct (asString e), (asString x);
          rewrite ?lookup_insert_eq; done.
      * by rewrite lookup_insert_eq.
    + rewrite lookup_insert_ne by done. rewrite <- IH.
      destruct (r !! i) as [e|]; [|by rewrite lookup_insert_ne].
      destruct (asString e), (asString x);
        rewrite ?lookup_insert_ne; done.
Qed.

Lemma overwriteInto_lookup (requests req : gmap string Value) (k : string) :
  overwriteInto requests req !! k = overwritten (requests !! k) (req !! k).
Proof.
  unfold overwriteInto. revert k.
  apply (map_fold_weak_ind
           (λ r m, ∀ k, r !! k = overwritten (requests !! k) (m !! k))).
  - intros k. by rewrite lookup_empty.
  - intros i x m r Hi IH k. unfold overwriteEntry.
    destruct (decide (i = k)) as [->|Hne].
    + by rewrite !lookup_insert_eq.
    + by rewrite !lookup_insert_ne.
Qed.

Lemma mergeContainer_requests st (c : Value) (k : string) :
  (mergeContainer st c).1 !! k = joined (st.1 !! k) (declared "requests" k c).
Proof.
  unfold mergeContainer, declared.
  destruct c as [| | | | | |containerMap]; try done.
  destruct (asMap (containerMap !! "resources")) as [resources|]; [|done].
  cbn [fst]. destruct (asMap (resources !! "requests")) as [req|]; [|done].
  apply mergeInto_lookup.
Qed.

Lemma mergeContainer_limits st (c : Value) (k : string) :
  (mergeContainer st c).2 !! k = joined (st.2 !! k) (declared "limits" k c).
Proof.
  unfold mergeContainer, declared.
  destruct c as [| | | | | |containerMap]; try done.
  destruct (asMap (containerMap !! "resources")) as [resources|]; [|done].
  cbn [snd]. destruct (asMap (resources !! "limits")) as [lim|]; [|done].
  apply mergeInto_lookup.
Qed.

Lemma overwriteContainer_requests st (c : Value) (k : string) :
  (overwriteContainer st c).1 !! k
  = overwritten (st.1 !! k) (declared "requests" k c).
Proof.
  unfold overwriteContainer, declared.
  destruct c as [| | | | | |containerMap]; try done.
  destruct (asMap (containerMap !! "resources")) as [resources|]; [|done].
  cbn [fst]. destruct (asMap (resources !! "requests")) as [req|]; [|done].
  apply overwriteInto_lookup.
Qed.

Lemma overwriteContainer_limits st (c : Value) (k : string) :
  (overwriteContainer st c).2 !! k
  = overwritten (st.2 !! k) (declared "limits" k c).
Proof.
  unfold overwriteContainer, declared.
  destruct c as [| | | | | |containerMap]; try done.
  destruct (asMap (containerMap !! "resources")) as [resources|]; [|done].
  cbn [snd]. destruct (asMap (resources !! "limits")) as [lim|]; [|done].
  apply overwriteInto_lookup.
Qed.

Lemma mergeContainers_snoc (cs : list Value) (c : Value) :
  mergeContainers (cs ++ [c]) = mergeContainer (mergeContainers cs) c.
Proof. unfold mergeContainers. by rewrite fold_left_app. Qed.

Lemma overwriteContainers_snoc (cs : list Value) (c : Value) :
  overwriteContainers (cs ++ [c]) = overwriteContainer (overwriteContainers cs) c.
Proof. unfold overwriteContainers. by rewrite fold_left_app. Qed.

Lemma joined_None (a v : option Value) :
  joined a v = None ↔ a = None ∧ v = None.
Proof.
  destruct v as [v|], a as [e|]; cbn; try naive_solver.
  destruct (asString e), (asString v); naive_solver.
Qed.

Lemma overwritten_None (a v : option Value) :
  overwritten a v = None ↔ a = None ∧ v = None.
Proof. destruct v, a; cbn; naive_solver. Qed.

(** A key is unbound in the running map exactly when no container so
    far declared it. *)
Lemma mergeContainers_requests_None (cs : list Value) (k : string) :
  (mergeContainers cs).1 !! k = None
  ↔ Forall (λ c, declared "requests" k c = None) cs.
Proof.
  induction cs as [|c cs IH] using rev_ind.
  - split; [constructor|done].
  - rewrite mergeContainers_snoc, mergeContainer_requests, joined_None, IH.
    rewrite Forall_app, Forall_singleton. done.
Qed.

Lemma mergeContainers_limits_None (cs : list Value) (k : string) :
  (mergeContainers cs).2 !! k = None
  ↔ Forall (λ c, declared "limits" k c = None) cs.
Proof.
  induction cs as [|c cs IH] using rev_ind.
  - split; [constructor|done].
  - rewrite mergeContainers_snoc, mergeContainer_limits, joined_None, IH.
    rewrite Forall_app, Forall_singleton. done.
Qed.

Lemma overwriteContainers_requests_None (cs : list Value) (k : string) :
  (overwriteContainers cs).1 !! k = None
  ↔ Forall (λ c, declared "requests" k c = None) cs.
Proof.
  induction cs as [|c cs IH] using rev_ind.
  - split; [constructor|done].
  - rewrite overwriteContainers_snoc, overwriteContainer_requests,
      overwritten_None, IH.
    rewrite Forall_app, Forall_singleton. done.
Qed.

Lemma overwriteContainers_limits_None (cs : list Value) (k : string) :
  (overwriteContainers cs).2 !! k = None
  ↔ Forall (λ c, declared "limits" k c = None) cs.
Proof.
  induction cs as [|c cs IH] using rev_ind.
  - split; [constructor|done].
  - rewrite overwriteContainers_snoc, overwriteContainer_limits,
      overwritten_None, IH.
    rewrite Forall_app, Forall_singleton. done.
Qed.

Lemma nonEmptyMap_Some {A} (m : gmap string A) :
  m ≠ ∅ → nonEmptyMap m = Some m.
Proof.
  intros Hne. unfold nonEmptyMap. destruct (decide _) as [|Hn]; [done|].
  exfalso. apply Hne, map_size_empty_inv. lia.
Qed.

Lemma nonEmptyMap_None {A} (m : gmap string A) :
  nonEmptyMap m = None ↔ m = ∅.
Proof.
  unfold nonEmptyMap. destruct (decide _) as [Hp|Hn].
  - split; [done|]. intros ->. rewrite map_size_empty in Hp. lia.
  - split; [|done]. intros _. apply map_size_empty_inv. lia.
Qed.

Lemma map_nonempty_lookup {A} (m : gmap string A) (k : string) (v : A) :
  m !! k = Some v → m ≠ ∅.
Proof. intros Hk ->. by rewrite lookup_empty in Hk. Qed.

End Merge.

(** ** Comma-joined strings *)
Section CommaJoin.

Lemma append_assoc (a b c : string) : (a +:+ b) +:+ c = a +:+ b +:+ c.
Proof.
  induction a as [|x a IH]; [done|].
  change (String x ((a +:+ b) +:+ c) = String x (a +:+ b +:+ c)). by f_equal.
Qed.

Lemma commaJoin_snoc (l : list string) (s : string) :
  l ≠ [] → commaJoin (l ++ [s]) = commaJoin l +:+ "," +:+ s.
Proof.
  unfold commaJoin. induction l as [|x l IH]; [done|]. intros _.
  destruct l as [|y l]; [done|].
  change (x +:+ "," +:+ String.concat "," ((y :: l) ++ [s])
          = (x +:+ "," +:+ String.concat "," (y :: l)) +:+ "," +:+ s).
  rewrite IH by done. by rewrite !append_assoc.
Qed.

(** The accumulated value of a key is the comma-joined list of what the
    containers declared for it, as long as these are all strings. *)
Lemma mergeContainers_requests_strings (cs : list Value) (k : string)
    (strs : list string) :
  omap (declared "requests" k) cs = VString <$> strs →
  (mergeContainers cs).1 !! k
  = match strs with [] => None | _ => Some (VString (commaJoin strs)) end.
Proof.
  revert strs. induction cs as [|c cs IH] using rev_ind; intros strs Hd.
  - symmetry in Hd. apply fmap_nil_inv in Hd as ->. done.
  - rewrite mergeContainers_snoc, mergeContainer_requests.
    rewrite omap_app in Hd. cbn [omap list_omap] in Hd.
    destruct (declared "requests" k c) as [v|].
    + symmetry in Hd. apply fmap_app_inv in Hd as (l1 & l2 & H1 & H2 & ->).
      destruct l2 as [|s [|? ?]]; try done. injection H2 as ->.
      rewrite (IH l1) by done. destruct l1 as [|x l1]; [done|].
      cbn [joined asString]. by rewrite <- commaJoin_snoc.
    + rewrite app_nil_r in Hd. rewrite (IH strs) by done. done.
Qed.

Lemma mergeContainers_limits_strings (cs : list Value) (k : string)
    (strs : list string) :
  omap (declared "limits" k) cs = VString <$> strs →
  (mergeContainers cs).2 !! k
  = match strs with [] => None | _ => Some (VString (commaJoin strs)) end.
Proof.
  revert strs. induction cs as [|c cs IH] using rev_ind; intros strs Hd.
  - symmetry in Hd. apply fmap_nil_inv in Hd as ->. done.
  - rewrite mergeContainers_snoc, mergeContainer_limits.
    rewrite omap_app in Hd. cbn [omap list_omap] in Hd.
    destruct (declared "limits" k c) as [v|].
    + symmetry in Hd. apply fmap_app_inv in Hd as (l1 & l2 & H1 & H2 & ->).
      destruct l2 as [|s [|? ?]]; try done. injection H2 as ->.
      rewrite (IH l1) by done. destruct l1 as [|x l1]; [done|].
      cbn [joined asString]. by rewrite <- commaJoin_snoc.
    + rewrite app_nil_r in Hd. rewrite (IH strs) by done. done.
Qed.

End CommaJoin.

(** Present every accessor call under the spec root as a [fieldAt]. *)
Ltac fold_fieldAt :=
  unfold NestedString, NestedBool, NestedInt64, NestedSlice, NestedMap,
    NestedStringMap;
  repeat match goal with
    | |- context [NestedFieldNoCopy (Object ?i) (getPodSpecPath ?i ++ [?n])] =>
        change (NestedFieldNoCopy (Object i) (getPodSpecPath i ++ [n]))
          with (fieldAt i n)
    end.

(** ** Presence of each snapshot field, read on the document *)
Section Presence.

Variable item : Unstructured.

Lemma string_field (name : string) :
  nonEmptyString (NestedString (Object item) (getPodSpecPath item ++ [name]))
  = match fieldAt item name with Found (VString s) => s | _ => "" end.
Proof.
  fold_fieldAt. destruct (fieldAt item name) as [[]| |]; try done.
  cbn. by destruct (decide _) as [|Hn]; [|apply dec_stable in Hn].
Qed.

Lemma string_field_empty (name : string) :
  nonEmptyString (NestedString (Object item) (getPodSpecPath item ++ [name])) = ""
  ↔ ¬ stringPresent item name.
Proof.
  rewrite string_field. unfold stringPresent.
  destruct (fieldAt item name) as [[]| |]; try naive_solver.
  destruct (decide (s = "")); naive_solver.
Qed.

Lemma slice_field (name : string) :
  nonEmptySlice (NestedSlice (Object item) (getPodSpecPath item ++ [name]))
  = match fieldAt item name with Found (VSlice l) => l | _ => [] end.
Proof.
  fold_fieldAt. destruct (fieldAt item name) as [[]| |]; try done.
  cbn. destruct (decide _) as [|Hn]; [done|]. destruct l; [done|].
  cbn in Hn. lia.
Qed.

Lemma slice_field_empty (name : string) :
  length (nonEmptySlice (NestedSlice (Object item) (getPodSpecPath item ++ [name]))) = 0
  ↔ ¬ slicePresent item name.
Proof.
  rewrite slice_field, length_zero_iff_nil. unfold slicePresent.
  destruct (fieldAt item name) as [[]| |]; try naive_solver.
  destruct l; naive_solver.
Qed.

Lemma bool_field_false (name : string) :
  foundBool (NestedBool (Object item) (getPodSpecPath item ++ [name])) = false
  ↔ ¬ flagSet item name.
Proof.
  fold_fieldAt. unfold flagSet.
  destruct (fieldAt item name) as [[| [] | | | | |]| |]; cbn; naive_solver.
Qed.

Lemma map_field_None (name : string) :
  match NestedMap (Object item) (getPodSpecPath item ++ [name]) with
  | Found m => nonEmptyMap m
  | _ => None
  end = None ↔ ¬ mapPresent item name.
Proof.
  fold_fieldAt. unfold mapPresent.
  destruct (fieldAt item name) as [[]| |]; try naive_solver.
  rewrite nonEmptyMap_None. split.
  - by intros -> (m' & [= <-] & Hne).
  - intros Hno. destruct (decide (m = ∅)) as [|Hne]; [done|].
    exfalso. apply Hno. eauto.
Qed.

Lemma stringMap_field_None (name : string) :
  match NestedStringMap (Object item) (getPodSpecPath item ++ [name]) with
  | Found m => nonEmptyMap m
  | _ => None
  end = None ↔ ¬ stringMapPresent item name.
Proof.
  fold_fieldAt. unfold stringMapPresent.
  destruct (fieldAt item name) as [[]| |]; try naive_solver.
  case_bool_decide as Hall; [|naive_solver].
  rewrite nonEmptyMap_None. split.
  - intros Hempty (m' & [= <-] & Hne & _). apply Hne.
    apply map_empty. intros k. destruct (m !! k) as [v|] eqn:Hk; [|done].
    destruct (Hall k v Hk) as [s Hs].
    assert (omap asString m !! k = Some s) as Hl.
    { rewrite lookup_omap, Hk. done. }
    rewrite Hempty, lookup_empty in Hl. done.
  - intros Hno. destruct (decide (m = ∅)) as [->|Hne].
    + apply omap_empty.
    + exfalso. apply Hno. eauto.
Qed.

Lemma stringMap_field_present (name : string) (m : gmap string string) :
  NestedStringMap (Object item) (getPodSpecPath item ++ [name]) = Found m →
  m ≠ ∅ → stringMapPresent item name.
Proof.
  fold_fieldAt. unfold stringMapPresent.
  destruct (fieldAt item name) as [[| | | | | |m0]| |]; try done.
  case_bool_decide as Hall; [|done]. intros [= <-] Hne.
  exists m0. split_and!; [done| |done]. intros ->. apply Hne, omap_empty.
Qed.

Lemma int_field_None (name : string) :
  match NestedInt64 (Object item) (getPodSpecPath item ++ [name]) with
  | Found priority => Some (int32 priority)
  | _ => None
  end = None ↔ ¬ intPresent item name.
Proof.
  fold_fieldAt. unfold intPresent.
  destruct (fieldAt item name) as [[]| |]; naive_solver.
Qed.

Lemma requests_field :
  ResourceRequests (schedulingFields item)
  = match fieldAt item "containers" with
    | Found (VSlice containers) => nonEmptyMap (mergeContainers containers).1
    | _ => None
    end.
Proof.
  unfold schedulingFields. cbn [ResourceRequests]. fold_fieldAt.
  by destruct (fieldAt item "containers") as [[]| |].
Qed.

Lemma limits_field :
  ResourceLimits (schedulingFields item)
  = match fieldAt item "containers" with
    | Found (VSlice containers) => nonEmptyMap (mergeContainers containers).2
    | _ => None
    end.
Proof.
  unfold schedulingFields. cbn [ResourceLimits]. fold_fieldAt.
  by destruct (fieldAt item "containers") as [[]| |].
Qed.

Lemma requests_field_None :
  ResourceRequests (schedulingFields item) = None
  ↔ ¬ resourcesPresent item "requests".
Proof.
  rewrite requests_field. unfold resourcesPresent.
  destruct (fieldAt item "containers") as [[| | | | |cs|]| |];
    try naive_solver.
  rewrite nonEmptyMap_None. split.
  - intros Hempty (cs' & c & k & v & [= <-] & Hin & Hd).
    assert ((mergeContainers cs).1 !! k = None) as Hk
      by (by rewrite Hempty, lookup_empty).
    apply mergeContainers_requests_None in Hk.
    rewrite Forall_forall in Hk. specialize (Hk c Hin). congruence.
  - intros Hno. apply map_empty. intros k.
    apply mergeContainers_requests_None, Forall_forall. intros c Hin.
    destruct (declared "requests" k c) as [v|] eqn:Hd; [|done].
    exfalso. apply Hno. eauto 10.
Qed.

Lemma limits_field_None :
  ResourceLimits (schedulingFields item) = None
  ↔ ¬ resourcesPresent item "limits".
Proof.
  rewrite limits_field. unfold resourcesPresent.
  destruct (fieldAt item "containers") as [[| | | | |cs|]| |];
    try naive_solver.
  rewrite nonEmptyMap_None. split.
  - intros Hempty (cs' & c & k & v & [= <-] & Hin & Hd).
    assert ((mergeContainers cs).2 !! k = None) as Hk
      by (by rewrite Hempty, lookup_empty).
    apply mergeContainers_limits_None in Hk.
    rewrite Forall_forall in Hk. specialize (Hk c Hin). congruence.
  - intros Hno. apply map_empty. intros k.
    apply mergeContainers_limits_None, Forall_forall. intros c Hin.
    destruct (declared "limits" k c) as [v|] eqn:Hd; [|done].
    exfalso. apply Hno. eauto 10.
Qed.

(** The nil test of [extractSchedulingInfo] fires exactly when no field
    is present. *)
Lemma noSchedulingInfo_spec :
  noSchedulingInfo (schedulingFields item) = true ↔ ¬ anyFieldPresent item.
Proof.
  unfold noSchedulingInfo.
  rewrite !andb_true_iff, !bool_decide_eq_true, !negb_true_iff.
  rewrite requests_field_None, limits_field_None.
  unfold schedulingFields; cbn [NodeSelector NodeName Affinity Tolerations
    TopologySpreadConstraints SchedulerName PriorityClassName Priority
    PreemptionPolicy RuntimeClassName HostNetwork HostPID HostIPC].
  rewrite stringMap_field_None, map_field_None, int_field_None.
  rewrite !string_field_empty, !slice_field_empty, !bool_field_false.
  unfold anyFieldPresent. tauto.
Qed.

End Presence.

(** ** The field groups of the subcommands *)
Section Groups.

Variable item : Unstructured.

Lemma size_pos_nonempty {A} (m : gmap string A) : 0 < size m ↔ m ≠ ∅.
Proof. rewrite <- map_size_non_empty_iff. lia. Qed.

Lemma putIf_empty (cond : bool) (k : string) (v : Value)
    (m : gmap string Value) :
  putIf cond k v m = ∅ ↔ cond = false ∧ m = ∅.
Proof.
  destruct cond; cbn; [|naive_solver].
  split; [|by intros []]. intros H. by apply insert_non_empty in H.
Qed.

Lemma putString_empty (name k : string) (m : gmap string Value) :
  putString (NestedString (Object item) (getPodSpecPath item ++ [name])) k m = ∅
  ↔ ¬ stringPresent item name ∧ m = ∅.
Proof.
  fold_fieldAt. unfold stringPresent.
  destruct (fieldAt item name) as [[]| |]; cbn [putString];
    try naive_solver.
  rewrite putIf_empty, bool_decide_eq_false.
  destruct (decide (s = "")); naive_solver.
Qed.

Lemma putBool_empty (name k : string) (m : gmap string Value) :
  putBool (NestedBool (Object item) (getPodSpecPath item ++ [name])) k m = ∅
  ↔ ¬ boolPresent item name ∧ m = ∅.
Proof.
  fold_fieldAt. unfold boolPresent.
  destruct (fieldAt item name) as [[]| |]; cbn [putBool];
    try naive_solver.
  split; [|naive_solver]. intros H. by apply insert_non_empty in H.
Qed.

Lemma putInt64_empty (name k : string) (m : gmap string Value) :
  putInt64 (NestedInt64 (Object item) (getPodSpecPath item ++ [name])) k m = ∅
  ↔ ¬ intPresent item name ∧ m = ∅.
Proof.
  fold_fieldAt. unfold intPresent.
  destruct (fieldAt item name) as [[]| |]; cbn [putInt64];
    try naive_solver.
  split; [|naive_solver]. intros H. by apply insert_non_empty in H.
Qed.

Lemma priorityMap_empty :
  priorityMap item = ∅
  ↔ ¬ (stringPresent item "priorityClassName" ∨ intPresent item "priority"
       ∨ stringPresent item "preemptionPolicy").
Proof.
  unfold priorityMap. cbv zeta.
  rewrite putString_empty, putInt64_empty, putString_empty. tauto.
Qed.

Lemma runtimeMap_empty :
  runtimeMap item = ∅
  ↔ ¬ (stringPresent item "runtimeClassName" ∨ boolPresent item "hostNetwork"
       ∨ boolPresent item "hostPID" ∨ boolPresent item "hostIPC").
Proof.
  unfold runtimeMap. cbv zeta.
  rewrite !putBool_empty, putString_empty. tauto.
Qed.

Lemma overwrite_requests_empty (cs : list Value) :
  (overwriteContainers cs).1 = ∅ ↔ (mergeContainers cs).1 = ∅.
Proof.
  rewrite !map_empty. apply forall_proper. intros k.
  by rewrite overwriteContainers_requests_None, mergeContainers_requests_None.
Qed.

Lemma overwrite_limits_empty (cs : list Value) :
  (overwriteContainers cs).2 = ∅ ↔ (mergeContainers cs).2 = ∅.
Proof.
  rewrite !map_empty. apply forall_proper. intros k.
  by rewrite overwriteContainers_limits_None, mergeContainers_limits_None.
Qed.

Lemma resourcesMap_empty :
  resourcesMap item = ∅
  ↔ ¬ (resourcesPresent item "requests" ∨ resourcesPresent item "limits").
Proof.
  transitivity (¬ resourcesPresent item "requests"
                ∧ ¬ resourcesPresent item "limits"); [|tauto].
  rewrite <- requests_field_None, <- limits_field_None.
  rewrite requests_field, limits_field. unfold resourcesMap.
  fold_fieldAt.
  destruct (fieldAt item "containers") as [[| | | | |cs|]| |];
    try naive_solver.
  cbv zeta. rewrite !putIf_empty, !bool_decide_eq_false, !nonEmptyMap_None.
  rewrite !size_pos_nonempty.
  rewrite <- overwrite_requests_empty, <- overwrite_limits_empty.
  destruct (decide ((overwriteContainers cs).1 = ∅)),
    (decide ((overwriteContainers cs).2 = ∅)); tauto.
Qed.

(** Each subcommand leaves the item as it was exactly when its group is
    absent, for an item that starts with no field set. *)
Lemma subcommand_collapse (outputItem : OutputItem) (subCommand : string) :
  ¬ groupPresent item subCommand →
  extractSchedulingSubcommand item outputItem subCommand = outputItem.
Proof.
  intros Hno. unfold extractSchedulingSubcommand. cbv zeta.
  repeat (destruct (decide (subCommand = _)) as [->|?]); try done.
  - fold_fieldAt.
    destruct (fieldAt item "tolerations") as [[| | | | |l|]| |] eqn:E;
      try done.
    destruct (decide _) as [Hl|]; [|done]. exfalso. apply Hno.
    left. split; [done|]. exists l. split; [done|]. intros ->. cbn in Hl. lia.
  - fold_fieldAt.
    destruct (fieldAt item "affinity") as [[| | | | | |m]| |] eqn:E;
      try done.
    destruct (decide _) as [Hl|]; [|done]. exfalso. apply Hno.
    right; left. split; [done|]. exists m. split; [done|].
    by apply size_pos_nonempty.
  - destruct (NestedStringMap _ _) as [m| |] eqn:Hs; try done.
    destruct (decide _) as [Hl|]; [|done]. exfalso.
    apply size_pos_nonempty in Hl.
    apply Hno. right; right; left. split; [done|].
    by apply (stringMap_field_present item "nodeSelector" m).
  - destruct (decide _) as [Hl|]; [|done]. exfalso.
    apply size_pos_nonempty in Hl. apply Hl, resourcesMap_empty.
    intros H. apply Hno. do 3 right. left. done.
  - fold_fieldAt.
    destruct (fieldAt item "topologySpreadConstraints")
      as [[| | | | |l|]| |] eqn:E; try done.
    destruct (decide _) as [Hl|]; [|done]. exfalso. apply Hno.
    do 4 right. left. split; [done|]. exists l. split; [done|].
    intros ->. cbn in Hl. lia.
  - destruct (decide _) as [Hl|]; [|done]. exfalso.
    apply size_pos_nonempty in Hl. apply Hl, priorityMap_empty.
    intros H. apply Hno. do 5 right. left. done.
  - destruct (decide _) as [Hl|]; [|done]. exfalso.
    apply size_pos_nonempty in Hl. apply Hl, runtimeMap_empty.
    intros H. apply Hno. do 6 right. done.
Qed.

End Groups.

(** ** The full snapshot *)
Section Snapshot.

Lemma noSchedulingInfo_resources (s : SchedulingInfo) :
  noSchedulingInfo s = true →
  ResourceRequests s = None ∧ ResourceLimits s = None
  ∧ Priority s = None ∧ length (Tolerations s) = 0.
Proof.
  unfold noSchedulingInfo.
  rewrite !andb_true_iff, !bool_decide_eq_true. tauto.
Qed.

(** A key bound in the running requests map reaches the snapshot. *)
Lemma snapshot_requests (item : Unstructured) (cs : list Value)
    (k : string) (v : Value) :
  fieldAt item "containers" = Found (VSlice cs) →
  (mergeContainers cs).1 !! k = Some v →
  ∃ s requests, extractSchedulingInfo item = Some s
    ∧ ResourceRequests s = Some requests ∧ requests !! k = Some v.
Proof.
  intros Hc Hk. pose proof (requests_field item) as Hr. rewrite Hc in Hr.
  rewrite (nonEmptyMap_Some _ (map_nonempty_lookup _ _ _ Hk)) in Hr.
  unfold extractSchedulingInfo. cbv zeta.
  destruct (noSchedulingInfo _) eqn:Hn.
  - apply noSchedulingInfo_resources in Hn as (Hn & _). congruence.
  - eauto.
Qed.

Lemma snapshot_limits (item : Unstructured) (cs : list Value)
    (k : string) (v : Value) :
  fieldAt item "containers" = Found (VSlice cs) →
  (mergeContainers cs).2 !! k = Some v →
  ∃ s limits, extractSchedulingInfo item = Some s
    ∧ ResourceLimits s = Some limits ∧ limits !! k = Some v.
Proof.
  intros Hc Hk. pose proof (limits_field item) as Hr. rewrite Hc in Hr.
  rewrite (nonEmptyMap_Some _ (map_nonempty_lookup _ _ _ Hk)) in Hr.
  unfold extractSchedulingInfo. cbv zeta.
  destruct (noSchedulingInfo _) eqn:Hn.
  - apply noSchedulingInfo_resources in Hn as (_ & Hn & _). congruence.
  - eauto.
Qed.

End Snapshot.

(** C1 (the code departs from the claim).  On a pod whose two containers
    request cpu "1" and cpu "2", the [resources] subcommand stores one
    mapping for the whole pod: its only key is [requests], bound to the
    mapping [cpu -> "2"].  There is no entry per container and no container
    name, and the first container's request is overwritten by the second. *)
Theorem C1_resources_subcommand_merges_containers :
  itemResources
    (extractSchedulingSubcommand twoContainerPod (newOutputItem "p" "default")
       "resources")
  = Some {[ "requests" := VMap {[ "cpu" := VString "2" ]} ]}.
Proof. vm_compute. reflexivity. Qed.

(** C2.  In the full snapshot, two containers that declare the same key in
    [resources.requests] with the strings "1" and "2" yield a requests
    mapping that binds the key to the string "1,2"; in general the value of
    a key declared with strings by several containers is the comma-joined
    concatenation of these strings in container order. *)
Theorem C2_duplicate_requests_comma_joined :
  (∀ (item : Unstructured) (c1 c2 : Value) (k : string),
     fieldAt item "containers" = Found (VSlice [c1; c2]) →
     declared "requests" k c1 = Some (VString "1") →
     declared "requests" k c2 = Some (VString "2") →
     ∃ s requests, extractSchedulingInfo item = Some s
       ∧ ResourceRequests s = Some requests
       ∧ requests !! k = Some (VString "1,2"))
  ∧ (∀ (item : Unstructured) (containers : list Value) (k : string)
       (strs : list string),
     fieldAt item "containers" = Found (VSlice containers) →
     omap (declared "requests" k) containers = VString <$> strs →
     strs ≠ [] →
     ∃ s requests, extractSchedulingInfo item = Some s
       ∧ ResourceRequests s = Some requests
       ∧ requests !! k = Some (VString (commaJoin strs))).
Proof.
  assert (∀ (item : Unstructured) (containers : list Value) (k : string)
            (strs : list string),
     fieldAt item "containers" = Found (VSlice containers) →
     omap (declared "requests" k) containers = VString <$> strs →
     strs ≠ [] →
     ∃ s requests, extractSchedulingInfo item = Some s
       ∧ ResourceRequests s = Some requests
       ∧ requests !! k = Some (VString (commaJoin strs))) as General.
  { intros item containers k strs Hc Hd Hne.
    apply (snapshot_requests item containers k); [done|].
    rewrite (mergeContainers_requests_strings _ _ strs Hd).
    by destruct strs. }
  split; [|exact General].
  intros item c1 c2 k Hc H1 H2.
  apply (General item [c1; c2] k ["1"; "2"]); [done| |done].
  cbn [omap list_omap]. by rewrite H1, H2.
Qed.

Lemma C2_witness :
  ∃ s requests, extractSchedulingInfo twoContainerPod = Some s
    ∧ ResourceRequests s = Some requests
    ∧ requests !! "cpu" = Some (VString "1,2").
Proof.
  apply (proj1 C2_duplicate_requests_comma_joined twoContainerPod
           (containerOf "a" {[ "cpu" := VString "1" ]})
           (containerOf "b" {[ "cpu" := VString "2" ]}) "cpu");
    vm_compute; reflexivity.
Defined.

(** C3.  When a later container declares a key that the accumulated
    requests (or limits) mapping already binds, the two values are
    comma-joined only if both are strings; if either is not a string the
    accumulated mapping keeps the earlier value and the later one is
    dropped, and the snapshot is still returned. *)
Theorem C3_non_string_duplicate_keeps_earlier
    (cs : list Value) (c : Value) (k : string) (existing v : Value) :
  ((mergeContainers cs).1 !! k = Some existing →
   declared "requests" k c = Some v →
   (asString existing = None ∨ asString v = None →
      (mergeContainers (cs ++ [c])).1 !! k = Some existing
      ∧ ∀ item, fieldAt item "containers" = Found (VSlice (cs ++ [c])) →
          ∃ s requests, extractSchedulingInfo item = Some s
            ∧ ResourceRequests s = Some requests
            ∧ requests !! k = Some existing)
   ∧ (∀ existingStr vStr,
        existing = VString existingStr → v = VString vStr →
        (mergeContainers (cs ++ [c])).1 !! k
        = Some (VString (existingStr +:+ "," +:+ vStr))))
  ∧ ((mergeContainers cs).2 !! k = Some existing →
     declared "limits" k c = Some v →
     (asString existing = None ∨ asString v = None →
        (mergeContainers (cs ++ [c])).2 !! k = Some existing
        ∧ ∀ item, fieldAt item "containers" = Found (VSlice (cs ++ [c])) →
            ∃ s limits, extractSchedulingInfo item = Some s
              ∧ ResourceLimits s = Some limits
              ∧ limits !! k = Some existing)
     ∧ (∀ existingStr vStr,
          existing = VString existingStr → v = VString vStr →
          (mergeContainers (cs ++ [c])).2 !! k
          = Some (VString (existingStr +:+ "," +:+ vStr)))).
Proof.
  split.
  - intros He Hd.
    assert ((mergeContainers (cs ++ [c])).1 !! k
            = joined (Some existing) (Some v)) as Hstep.
    { by rewrite mergeContainers_snoc, mergeContainer_requests, He, Hd. }
    split.
    + intros Hns.
      assert ((mergeContainers (cs ++ [c])).1 !! k = Some existing) as Hk.
      { rewrite Hstep. cbn [joined].
        destruct Hns as [-> | ->]; [done|]. by destruct (asString existing). }
      split; [done|]. intros item Hc.
      by apply (snapshot_requests item (cs ++ [c]) k).
    + intros existingStr vStr -> ->. by rewrite Hstep.
  - intros He Hd.
    assert ((mergeContainers (cs ++ [c])).2 !! k
            = joined (Some existing) (Some v)) as Hstep.
    { by rewrite mergeContainers_snoc, mergeContainer_limits, He, Hd. }
    split.
    + intros Hns.
      assert ((mergeContainers (cs ++ [c])).2 !! k = Some existing) as Hk.
      { rewrite Hstep. cbn [joined].
        destruct Hns as [-> | ->]; [done|]. by destruct (asString existing). }
      split; [done|]. intros item Hc.
      by apply (snapshot_limits item (cs ++ [c]) k).
    + intros existingStr vStr -> ->. by rewrite Hstep.
Qed.

Lemma C3_witness :
  ∃ s requests, extractSchedulingInfo mixedContainerPod = Some s
    ∧ ResourceRequests s = Some requests
    ∧ requests !! "cpu" = Some (VString "1").
Proof.
  refine (proj2 (proj1 (proj1 (C3_non_string_duplicate_keeps_earlier
            [containerOf "a" {[ "cpu" := VString "1" ]}]
            (containerOf "b" {[ "cpu" := VInt64 2 ]})
            "cpu" (VString "1") (VInt64 2)) _ _) _) mixedContainerPod _);
    try (vm_compute; reflexivity).
  right. reflexivity.
Defined.

(** C4, as stated, fails: the key [priority] exists under the spec root of
    [fractionalPriorityPod] (it holds 0.5), so a field is present under the
    rules as they are worded, yet no snapshot is returned. *)
Lemma C4_counterexample :
  keyExists fractionalPriorityPod "priority"
  ∧ anyFieldPresentAsWorded fractionalPriorityPod
  ∧ extractSchedulingInfo fractionalPriorityPod = None.
Proof.
  assert (keyExists fractionalPriorityPod "priority") as Hkey.
  { eexists. vm_compute. reflexivity. }
  split_and!; [done| |vm_compute; reflexivity].
  unfold anyFieldPresentAsWorded. do 9 right. by left.
Qed.

(** C4 (amended).  [extractSchedulingInfo] returns nil exactly when every
    one of the fifteen fields of the snapshot is absent under the rule the
    code applies to it: a string, a sequence or a mapping is present when
    it has that type and is not empty (the node selector when, in
    addition, all its values are strings), requests and limits when some
    container declares one, the priority when its key holds an integer, a
    host flag when it is true.  Whenever some field is present the record
    is returned; and a subcommand whose field group is absent leaves the
    output item untouched, so nothing empty is stored. *)
Theorem C4_all_absent_collapses :
  (∀ item : Unstructured,
     extractSchedulingInfo item = None ↔ ¬ anyFieldPresent item)
  ∧ (∀ item : Unstructured,
       anyFieldPresent item →
       extractSchedulingInfo item = Some (schedulingFields item))
  ∧ (∀ (item : Unstructured) (outputItem : OutputItem) (subCommand : string),
       ¬ groupPresent item subCommand →
       extractSchedulingSubcommand item outputItem subCommand = outputItem).
Proof.
  split_and!.
  - intros item. rewrite <- noSchedulingInfo_spec.
    unfold extractSchedulingInfo. cbv zeta.
    by destruct (noSchedulingInfo _).
  - intros item Hany. unfold extractSchedulingInfo. cbv zeta.
    destruct (noSchedulingInfo _) eqn:Hn; [|done].
    by apply noSchedulingInfo_spec in Hn.
  - intros item outputItem subCommand. apply subcommand_collapse.
Qed.

Lemma C4_witness :
  extractSchedulingInfo zeroPriorityPod = Some (schedulingFields zeroPriorityPod)
  ∧ extractSchedulingSubcommand barePod (newOutputItem "p" "default") "runtime"
    = newOutputItem "p" "default".
Proof.
  destruct C4_all_absent_collapses as (_ & Hsome & Hsub). split.
  - apply Hsome. do 9 right. left. exists 0%Z. vm_compute. reflexivity.
  - apply Hsub. unfold groupPresent.
    intros [[H _]|[[H _]|[[H _]|[[H _]|[[H _]|[[H _]|[_ H]]]]]]];
      try discriminate H.
    destruct H as [(s & H & _)|[(b & H)|[(b & H)|(b & H)]]];
      vm_compute in H; discriminate H.
Defined.

(** ** Removing a key from a document *)
Section DeleteField.

Lemma deleteField_cons2 (obj : gmap string Value) (k k' : string)
    (rest : list string) :
  deleteField obj (k :: k' :: rest)
  = match obj !! k with
    | Some (VMap m) => <[k := VMap (deleteField m (k' :: rest))]> obj
    | _ => obj
    end.
Proof. done. Qed.

(** Paths that leave the removed path at some key are unaffected. *)
Lemma nestedField_deleteField_other (c : list string) (a b : string)
    (f q : list string) (obj : gmap string Value) :
  a ≠ b →
  nestedField (VMap (deleteField obj (c ++ a :: f))) (c ++ b :: q)
  = nestedField (VMap obj) (c ++ b :: q).
Proof.
  intros Hab. revert obj. induction c as [|x c IH]; intros obj.
  - cbn [app]. destruct f as [|k' f].
    + cbn [deleteField nestedField]. by rewrite lookup_delete_ne.
    + rewrite deleteField_cons2. cbn [nestedField].
      destruct (obj !! a) as [[]|]; try done.
      by rewrite lookup_insert_ne.
  - cbn [app]. destruct (c ++ a :: f) as [|k' rest] eqn:E.
    { by destruct c. }
    rewrite deleteField_cons2. cbn [nestedField].
    destruct (obj !! x) as [[| | | | | |m]|] eqn:Hx; rewrite ?Hx; try done.
    rewrite lookup_insert_eq. apply IH.
Qed.

(** The removed key is gone. *)
Lemma nestedField_deleteField_same (p : list string) (k : string)
    (obj : gmap string Value) (v : Value) :
  nestedField (VMap obj) (p ++ [k]) = Found v →
  nestedField (VMap (deleteField obj (p ++ [k]))) (p ++ [k]) = Absent.
Proof.
  revert obj. induction p as [|x p IH]; intros obj.
  - intros _. cbn [app deleteField nestedField].
    by rewrite lookup_delete_eq.
  - cbn [app]. destruct (p ++ [k]) as [|k' rest] eqn:E.
    { by destruct p. }
    rewrite deleteField_cons2. cbn [nestedField].
    destruct (obj !! x) as [[| | | | | |m]|] eqn:Hx; rewrite ?Hx; try done.
    rewrite lookup_insert_eq. apply IH.
Qed.

Variable item : Unstructured.
Variable removed : string.

Lemma withoutField_kind : GetKind (withoutField item removed) = GetKind item.
Proof.
  unfold GetKind, NestedString, NestedFieldNoCopy, withoutField.
  cbn [Object].
  destruct (getPodSpecPath_cases item) as [-> | ->]; cbn [app].
  - pose proof (nestedField_deleteField_other
                  [] "spec" "kind" [removed] [] (Object item)) as H.
    cbn [app] in H. by rewrite H.
  - pose proof (nestedField_deleteField_other
                  [] "spec" "kind" ["template"; "spec"; removed] []
                  (Object item)) as H.
    cbn [app] in H. by rewrite H.
Qed.

Lemma withoutField_path :
  getPodSpecPath (withoutField item removed) = getPodSpecPath item.
Proof. apply getPodSpecPath_kind, withoutField_kind. Qed.

Lemma withoutField_other (name : string) :
  name ≠ removed →
  fieldAt (withoutField item removed) name = fieldAt item name.
Proof.
  intros Hne. unfold fieldAt, NestedFieldNoCopy. rewrite withoutField_path.
  unfold withoutField. cbn [Object].
  by apply nestedField_deleteField_other.
Qed.

Lemma withoutField_same (v : Value) :
  fieldAt item removed = Found v →
  fieldAt (withoutField item removed) removed = Absent.
Proof.
  unfold fieldAt, NestedFieldNoCopy. rewrite withoutField_path.
  unfold withoutField. cbn [Object]. apply nestedField_deleteField_same.
Qed.

End DeleteField.

(** C8.  [getPodSpecPath] is [spec] for kind Pod, [spec, template, spec]
    exactly for Deployment, StatefulSet, DaemonSet, ReplicaSet, Job and
    CronJob, and [spec] for every other kind.  So for a Deployment a
    non-empty tolerations list at [spec.template.spec.tolerations] is
    extracted, by the full snapshot and by the [tolerations] subcommand,
    while a list placed at [spec.tolerations] only leaves the tolerations
    field absent. *)
Theorem C8_spec_root_by_kind :
  (∀ item : Unstructured, GetKind item = "Pod" → getPodSpecPath item = ["spec"])
  ∧ (∀ item : Unstructured,
       getPodSpecPath item = ["spec"; "template"; "spec"]
       ↔ GetKind item ∈ ["Deployment"; "StatefulSet"; "DaemonSet";
                          "ReplicaSet"; "Job"; "CronJob"])
  ∧ (∀ item : Unstructured,
       GetKind item ∉ ["Deployment"; "StatefulSet"; "DaemonSet";
                        "ReplicaSet"; "Job"; "CronJob"] →
       getPodSpecPath item = ["spec"])
  ∧ (∀ (item : Unstructured) (X : list Value) (outputItem : OutputItem),
       GetKind item = "Deployment" → X ≠ [] →
       NestedFieldNoCopy (Object item) ["spec"; "template"; "spec"; "tolerations"]
       = Found (VSlice X) →
       (∃ s, extractSchedulingInfo item = Some s ∧ Tolerations s = X)
       ∧ itemTolerations
           (extractSchedulingSubcommand item outputItem "tolerations") = X)
  ∧ (∀ (item : Unstructured) (X : list Value) (name namespace : string),
       GetKind item = "Deployment" →
       NestedFieldNoCopy (Object item) ["spec"; "tolerations"]
       = Found (VSlice X) →
       NestedFieldNoCopy (Object item) ["spec"; "template"; "spec"; "tolerations"]
       = Absent →
       (∀ s, extractSchedulingInfo item = Some s → Tolerations s = [])
       ∧ itemTolerations
           (extractSchedulingSubcommand item (newOutputItem name namespace)
              "tolerations") = []).
Proof.
  assert (∀ item : Unstructured, GetKind item = "Deployment" →
            getPodSpecPath item = ["spec"; "template"; "spec"]) as Hdep.
  { intros item Hk. apply getPodSpecPath_template. rewrite Hk.
    apply list_elem_of_here. }
  split_and!.
  - intros item Hk. unfold getPodSpecPath. by rewrite Hk.
  - apply getPodSpecPath_template.
  - intros item Hk.
    destruct (getPodSpecPath_cases item) as [|Ht]; [done|].
    by apply getPodSpecPath_template in Ht.
  - intros item X outputItem Hk HX Hf.
    assert (fieldAt item "tolerations" = Found (VSlice X)) as Hfa.
    { unfold fieldAt. by rewrite (Hdep item Hk). }
    assert (0 < length X) as Hlen by (destruct X; [done|cbn; lia]).
    split.
    + exists (schedulingFields item).
      assert (Tolerations (schedulingFields item) = X) as HT.
      { unfold schedulingFields. cbn [Tolerations].
        by rewrite slice_field, Hfa. }
      split; [|done]. unfold extractSchedulingInfo. cbv zeta.
      destruct (noSchedulingInfo _) eqn:Hn; [|done].
      apply noSchedulingInfo_resources in Hn as (_ & _ & _ & Hn).
      rewrite HT in Hn. lia.
    + unfold extractSchedulingSubcommand. cbv zeta.
      destruct (decide _) as [_|]; [|done]. fold_fieldAt. rewrite Hfa.
      by destruct (decide _).
  - intros item X name namespace Hk _ Hf.
    assert (fieldAt item "tolerations" = Absent) as Hfa.
    { unfold fieldAt. by rewrite (Hdep item Hk). }
    split.
    + unfold extractSchedulingInfo. cbv zeta.
      destruct (noSchedulingInfo _); [done|]. intros s [= <-].
      unfold schedulingFields. cbn [Tolerations].
      by rewrite slice_field, Hfa.
    + unfold extractSchedulingSubcommand. cbv zeta.
      destruct (decide _) as [_|]; [|done]. fold_fieldAt. by rewrite Hfa.
Qed.

Lemma C8_witness :
  ((∃ s, extractSchedulingInfo nestedDeployment = Some s
         ∧ Tolerations s = [toleration])
   ∧ itemTolerations
       (extractSchedulingSubcommand nestedDeployment (newOutputItem "d" "default")
          "tolerations") = [toleration])
  ∧ ((∀ s, extractSchedulingInfo misplacedDeployment = Some s
           → Tolerations s = [])
     ∧ itemTolerations
         (extractSchedulingSubcommand misplacedDeployment
            (newOutputItem "d" "default") "tolerations") = []).
Proof.
  destruct C8_spec_root_by_kind as (_ & _ & _ & Hin & Hout). split.
  - apply (Hin nestedDeployment [toleration]); [| done |];
      vm_compute; reflexivity.
  - apply (Hout misplacedDeployment [toleration]); vm_compute; reflexivity.
Defined.

(** ** Numeric priority and the node selector *)

Lemma priority_field (item : Unstructured) :
  Priority (schedulingFields item)
  = match fieldAt item "priority" with
    | Found (VInt64 n) => Some (int32 n)
    | _ => None
    end.
Proof.
  unfold schedulingFields. cbn [Priority]. fold_fieldAt.
  by destruct (fieldAt item "priority") as [[]| |].
Qed.

Lemma snapshot_of_priority (item : Unstructured) (p : Z) :
  Priority (schedulingFields item) = Some p →
  extractSchedulingInfo item = Some (schedulingFields item).
Proof.
  intros Hp. unfold extractSchedulingInfo. cbv zeta.
  destruct (noSchedulingInfo _) eqn:Hn; [|done].
  apply noSchedulingInfo_resources in Hn as (_ & _ & Hn & _). congruence.
Qed.

(** C9, as stated, fails: the key [priority] exists under the spec root of
    [fractionalPriorityPod] (it holds 0.5), yet no priority is present in
    the result. *)
Lemma C9_counterexample :
  (∃ v, fieldAt fractionalPriorityPod "priority" = Found v)
  ∧ ¬ (∃ s p, extractSchedulingInfo fractionalPriorityPod = Some s
              ∧ Priority s = Some p).
Proof.
  split.
  - eexists. vm_compute. reflexivity.
  - intros (s & p & Hs & _). vm_compute in Hs. discriminate.
Qed.

(** C9 (amended).  The priority field of the snapshot is present exactly
    when the key [priority] under the spec root holds an integer, whatever
    the integer: for [priority = 0] the snapshot is returned with priority
    0, and this result differs from that of any document in which the key
    is missing, where the field is absent. *)
Theorem C9_priority_present_iff_integer :
  (∀ item : Unstructured,
     (∃ s p, extractSchedulingInfo item = Some s ∧ Priority s = Some p)
     ↔ ∃ n, fieldAt item "priority" = Found (VInt64 n))
  ∧ (∀ (item : Unstructured) (n : Z),
       fieldAt item "priority" = Found (VInt64 n) →
       ∃ s, extractSchedulingInfo item = Some s
            ∧ Priority s = Some (int32 n))
  ∧ (∀ item : Unstructured,
       fieldAt item "priority" = Found (VInt64 0) →
       (∃ s, extractSchedulingInfo item = Some s ∧ Priority s = Some 0%Z)
       ∧ ∀ item' : Unstructured,
           fieldAt item' "priority" = Absent →
           (∀ s', extractSchedulingInfo item' = Some s' → Priority s' = None)
           ∧ extractSchedulingInfo item ≠ extractSchedulingInfo item').
Proof.
  assert (∀ (item : Unstructured) (n : Z),
       fieldAt item "priority" = Found (VInt64 n) →
       ∃ s, extractSchedulingInfo item = Some s
            ∧ Priority s = Some (int32 n)) as Hint.
  { intros item n Hf. exists (schedulingFields item).
    assert (Priority (schedulingFields item) = Some (int32 n)) as Hp
      by (by rewrite priority_field, Hf).
    split; [|done]. by apply (snapshot_of_priority item (int32 n)). }
  assert (∀ item : Unstructured,
       fieldAt item "priority" = Absent →
       ∀ s, extractSchedulingInfo item = Some s → Priority s = None) as Habs.
  { intros item Hf s. unfold extractSchedulingInfo. cbv zeta.
    destruct (noSchedulingInfo _); [done|]. intros [= <-].
    by rewrite priority_field, Hf. }
  split_and!.
  - intros item. split.
    + intros (s & p & Hs & Hp). revert Hs. unfold extractSchedulingInfo.
      cbv zeta. destruct (noSchedulingInfo _); [done|]. intros [= <-].
      rewrite priority_field in Hp.
      destruct (fieldAt item "priority") as [[]| |]; try done. eauto.
    + intros (n & Hf). destruct (Hint item n Hf) as (s & Hs & Hp). eauto.
  - exact Hint.
  - intros item Hf. split; [exact (Hint item 0%Z Hf)|].
    intros item' Hf'. split; [exact (Habs item' Hf')|].
    destruct (Hint item 0%Z Hf) as (s & Hs & Hp). rewrite Hs.
    intros Heq. symmetry in Heq.
    pose proof (Habs item' Hf' s Heq) as Hnone. congruence.
Qed.

Lemma C9_witness :
  (∃ s, extractSchedulingInfo zeroPriorityPod = Some s
        ∧ Priority s = Some 0%Z)
  ∧ (∀ s', extractSchedulingInfo barePod = Some s' → Priority s' = None)
  ∧ extractSchedulingInfo zeroPriorityPod ≠ extractSchedulingInfo barePod.
Proof.
  destruct (proj2 (proj2 C9_priority_present_iff_integer) zeroPriorityPod)
    as (Hzero & Hother).
  - vm_compute. reflexivity.
  - split; [exact Hzero|]. apply (Hother barePod). vm_compute. reflexivity.
Defined.

(** C10.  A document whose [nodeSelector] under the spec root is an empty
    mapping gives the same result as the same document with the key
    removed, and in both the node selector of the snapshot is absent; a
    node selector that is present is never empty. *)
Theorem C10_empty_nodeSelector_as_missing :
  (∀ item : Unstructured,
     fieldAt item "nodeSelector" = Found (VMap ∅) →
     fieldAt (withoutField item "nodeSelector") "nodeSelector" = Absent
     ∧ extractSchedulingInfo item
       = extractSchedulingInfo (withoutField item "nodeSelector")
     ∧ (∀ s, extractSchedulingInfo item = Some s → NodeSelector s = None)
     ∧ (∀ s, extractSchedulingInfo (withoutField item "nodeSelector") = Some s
             → NodeSelector s = None))
  ∧ (∀ (item : Unstructured) s nodeSelector,
       extractSchedulingInfo item = Some s →
       NodeSelector s = Some nodeSelector → nodeSelector ≠ ∅).
Proof.
  split.
  - intros item Hf.
    pose proof (withoutField_same item "nodeSelector" _ Hf) as Hgone.
    assert (NodeSelector (schedulingFields item) = None) as Hns.
    { unfold schedulingFields. cbn [NodeSelector]. fold_fieldAt.
      rewrite Hf. rewrite bool_decide_eq_true_2 by apply map_Forall_empty.
      rewrite omap_empty. by apply nonEmptyMap_None. }
    assert (NodeSelector (schedulingFields (withoutField item "nodeSelector"))
            = None) as Hns'.
    { unfold schedulingFields. cbn [NodeSelector]. fold_fieldAt.
      by rewrite Hgone. }
    assert (schedulingFields item
            = schedulingFields (withoutField item "nodeSelector")) as Hsame.
    { pose proof (withoutField_other item "nodeSelector") as Hother.
      revert Hns Hns'. unfold schedulingFields. cbv zeta.
      cbn [NodeSelector]. fold_fieldAt.
      rewrite !(Hother "nodeName"), !(Hother "affinity"),
        !(Hother "tolerations"), !(Hother "topologySpreadConstraints"),
        !(Hother "containers"), !(Hother "schedulerName"),
        !(Hother "priorityClassName"), !(Hother "priority"),
        !(Hother "preemptionPolicy"), !(Hother "runtimeClassName"),
        !(Hother "hostNetwork"), !(Hother "hostPID"), !(Hother "hostIPC")
        by done.
      by intros -> ->. }
    split_and!; [done| | |].
    + unfold extractSchedulingInfo. by rewrite <- Hsame.
    + unfold extractSchedulingInfo. cbv zeta.
      destruct (noSchedulingInfo _); [done|]. by intros s [= <-].
    + unfold extractSchedulingInfo. cbv zeta.
      destruct (noSchedulingInfo _); [done|]. by intros s [= <-].
  - intros item s nodeSelector. unfold extractSchedulingInfo. cbv zeta.
    destruct (noSchedulingInfo _); [done|]. intros [= <-].
    unfold schedulingFields. cbn [NodeSelector].
    destruct (NestedStringMap _ _) as [m| |]; try done.
    intros Hm ->. unfold nonEmptyMap in Hm.
    destruct (decide _) as [Hp|]; [|done]. injection Hm as ->.
    rewrite map_size_empty in Hp. lia.
Qed.

Lemma C10_witness :
  fieldAt (withoutField emptySelectorPod "nodeSelector") "nodeSelector" = Absent
  ∧ extractSchedulingInfo emptySelectorPod
    = extractSchedulingInfo (withoutField emptySelectorPod "nodeSelector")
  ∧ (∀ s, extractSchedulingInfo emptySelectorPod = Some s
          → NodeSelector s = None)
  ∧ (∀ s, extractSchedulingInfo (withoutField emptySelectorPod "nodeSelector")
          = Some s → NodeSelector s = None).
Proof.
  apply (proj1 C10_empty_nodeSelector_as_missing emptySelectorPod).
  vm_compute. reflexivity.
Defined.

(** ** Lowering of ASCII text *)
Section Letters.

Lemma byte_listed (c : ascii) : c ∈ map ascii_of_nat (seq 0 256).
Proof.
  apply list_elem_of_In, in_map_iff. exists (nat_of_ascii c).
  split; [apply ascii_nat_embedding|].
  apply in_seq. pose proof (nat_ascii_bounded c). lia.
Qed.

(** [lowerByte] sends two bytes to the same byte exactly when they are the
    same letter up to case; checked on all pairs of bytes. *)
Lemma lowerByte_sameLetter (c d : ascii) :
  gostrings.lowerByte c = gostrings.lowerByte d ↔ sameLetter c d.
Proof.
  assert (forallb (λ c, forallb (λ d,
            Bool.eqb (bool_decide (gostrings.lowerByte c = gostrings.lowerByte d))
                     (bool_decide (sameLetter c d)))
            (map ascii_of_nat (seq 0 256))) (map ascii_of_nat (seq 0 256))
          = true) as Hall by (vm_compute; reflexivity).
  rewrite forallb_forall in Hall.
  pose proof (Hall c (proj1 (list_elem_of_In _ _) (byte_listed c))) as Hc.
  rewrite forallb_forall in Hc.
  pose proof (Hc d (proj1 (list_elem_of_In _ _) (byte_listed d))) as Hcd.
  apply Bool.eqb_prop in Hcd.
  split; intros H.
  - eapply bool_decide_eq_true_1. rewrite <- Hcd.
    by apply bool_decide_eq_true_2.
  - eapply bool_decide_eq_true_1. rewrite Hcd.
    by apply bool_decide_eq_true_2.
Qed.

Lemma sameLetter_isASCIIByte (c d : ascii) :
  sameLetter c d → gostrings.isASCIIByte c = gostrings.isASCIIByte d.
Proof.
  intros [->|[Hin|Hin]]; [done| |];
    unfold capitals, smalls in Hin; cbn in Hin;
    repeat (apply elem_of_cons in Hin as [[= -> ->]|Hin]; [done|]);
    by apply elem_of_nil in Hin.
Qed.

Lemma lowerASCII_equalIgnoringCase (a b : string) :
  gostrings.lowerASCII a = gostrings.lowerASCII b ↔ equalIgnoringCase a b.
Proof.
  revert b. induction a as [|c a IH]; intros [|d b];
    cbn [gostrings.lowerASCII equalIgnoringCase]; try done.
  rewrite <- IH, <- lowerByte_sameLetter. split.
  - by intros [= -> ->].
  - by intros [-> ->].
Qed.

Lemma equalIgnoringCase_isASCII (a b : string) :
  equalIgnoringCase a b → gostrings.isASCII a = gostrings.isASCII b.
Proof.
  revert b. induction a as [|c a IH]; intros [|d b];
    cbn [gostrings.isASCII equalIgnoringCase]; try done.
  intros [Hcd Hab]. by rewrite (sameLetter_isASCIIByte c d), (IH b).
Qed.

Lemma lowerASCII_no_capital (s : string) :
  gostrings.hasUpper s = false → gostrings.lowerASCII s = s.
Proof.
  induction s as [|c s IH]; cbn [gostrings.hasUpper gostrings.lowerASCII];
    [done|].
  intros [Hc Hs]%orb_false_iff. unfold gostrings.lowerByte.
  by rewrite Hc, IH.
Qed.

Lemma lowerByte_not_upper (c : ascii) :
  gostrings.isUpperByte (gostrings.lowerByte c) = false.
Proof. destruct c as [[] [] [] [] [] [] [] []]; reflexivity. Qed.

Lemma lowerASCII_hasUpper (s : string) :
  gostrings.hasUpper (gostrings.lowerASCII s) = false.
Proof.
  induction s as [|c s IH]; [done|].
  cbn [gostrings.lowerASCII gostrings.hasUpper].
  by rewrite lowerByte_not_upper, IH.
Qed.

Context {tables : unicode.Tables}.

(** On ASCII text [strings.ToLower] is the byte-wise lowering. *)
Lemma ToLower_ascii (s : string) :
  gostrings.isASCII s = true → gostrings.ToLower s = gostrings.lowerASCII s.
Proof.
  intros Hs. unfold gostrings.ToLower. rewrite Hs.
  destruct (gostrings.hasUpper s) eqn:Hu; cbn [negb]; [done|].
  by rewrite lowerASCII_no_capital.
Qed.

(** On ASCII text the comparison of the resolver is equality up to the
    case of letters. *)
Lemma equalFold_ascii (a b : string) :
  gostrings.isASCII a = true → gostrings.isASCII b = true →
  equalFold a b ↔ equalIgnoringCase a b.
Proof.
  intros Ha Hb. unfold equalFold. rewrite !ToLower_ascii by done.
  apply lowerASCII_equalIgnoringCase.
Qed.

Lemma equalIgnoringCase_equalFold (a b : string) :
  gostrings.isASCII a = true → equalIgnoringCase a b → equalFold a b.
Proof.
  intros Ha Hab. apply equalFold_ascii; [done| |done].
  by rewrite <- (equalIgnoringCase_isASCII a b).
Qed.

End Letters.

(** ** The resolver *)
Section Resolver.

Context {tables : unicode.Tables}.

Lemma find_app {A} (f : A → bool) (l1 l2 : list A) :
  find f (l1 ++ l2)
  = match find f l1 with Some x => Some x | None => find f l2 end.
Proof.
  induction l1 as [|x l1 IH]; [done|]. cbn [app find].
  by destruct (f x).
Qed.

Lemma find_none_Forall {A} (f : A → bool) (l : list A) :
  find f l = None ↔ Forall (λ x, f x = false) l.
Proof.
  induction l as [|x l IH]; cbn [find].
  - split; [constructor|done].
  - rewrite Forall_cons. destruct (f x); [naive_solver|].
    rewrite IH. naive_solver.
Qed.

Lemma find_some_selected {A} (f : A → bool) (l : list A) (x : A) :
  find f l = Some x → f x = true ∧ x ∈ l.
Proof.
  induction l as [|y l IH]; cbn [find]; [done|].
  destruct (f y) eqn:Hy.
  - intros [= ->]. split; [done|]. apply list_elem_of_here.
  - intros Hx. destruct (IH Hx). split; [done|].
    by apply list_elem_of_further.
Qed.

Lemma selects_coordinate (resourceType : string)
    (entry : string * metav1.APIResource) :
  selects resourceType entry = true → is_Some (coordinate entry).
Proof.
  unfold selects, coordinate. rewrite andb_true_iff, bool_decide_eq_true.
  intros (_ & [[group version] ->]). eauto.
Qed.

Lemma shortNameLoop_spec (resourceTypeLower : string) (shortNames : list string) :
  shortNameLoop resourceTypeLower shortNames = true
  ↔ ∃ alias, alias ∈ shortNames ∧ gostrings.ToLower alias = resourceTypeLower.
Proof.
  induction shortNames as [|shortName rest IH]; cbn [shortNameLoop].
  - split; [done|]. intros (alias & Hin & _). by apply elem_of_nil in Hin.
  - destruct (decide _) as [Heq|Hne].
    + split; [|done]. intros _. exists shortName.
      split; [apply list_elem_of_here|done].
    + rewrite IH. split.
      * intros (alias & Hin & Ha). exists alias.
        split; [by apply list_elem_of_further|done].
      * intros (alias & Hin & Ha). apply elem_of_cons in Hin as [->|Hin];
          [done|]. eauto.
Qed.

(** The value of [matched]: one of the three keys equals the input,
    both sides lowered. *)
Lemma matched_spec (resourceType : string) (apiResource : metav1.APIResource) :
  matched (gostrings.ToLower resourceType) apiResource = true
  ↔ equalFold resourceType (metav1.Name apiResource)
    ∨ equalFold resourceType (metav1.Kind apiResource)
    ∨ ∃ alias, alias ∈ metav1.ShortNames apiResource
               ∧ equalFold resourceType alias.
Proof.
  unfold matched, equalFold. cbv zeta.
  destruct (bool_decide (gostrings.ToLower (metav1.Name apiResource)
                         = gostrings.ToLower resourceType)) eqn:Hn.
  { apply bool_decide_eq_true in Hn. cbn. split; [auto|done]. }
  destruct (bool_decide (gostrings.ToLower (metav1.Kind apiResource)
                         = gostrings.ToLower resourceType)) eqn:Hk.
  { apply bool_decide_eq_true in Hk. cbn. split; [auto|done]. }
  apply bool_decide_eq_false in Hn, Hk. cbn. rewrite shortNameLoop_spec.
  split.
  - intros (alias & Hin & Ha). right; right. eauto.
  - intros [Hx | [Hx | (alias & Hin & Ha)]]; [done|done|]. eauto.
Qed.

(** The inner loop returns on the first entry that [selects] accepts. *)
Lemma resourceLoop_find (resourceType groupVersion : string)
    (apiResources : list metav1.APIResource) :
  resourceLoop (gostrings.ToLower resourceType) groupVersion apiResources
  = find (selects resourceType) (map (pair groupVersion) apiResources)
      ≫= coordinate.
Proof.
  induction apiResources as [|apiResource rest IH];
    cbn [resourceLoop map find]; [done|].
  unfold selects at 1, entryMatches, coordinate at 1. cbn [fst snd].
  destruct (gostrings.Contains _ _); cbn [negb andb]; [done|].
  destruct (matched _ _); cbn [andb]; [|done].
  destruct (schema.ParseGroupVersion groupVersion) as [[group version]|] eqn:Hgv.
  - rewrite bool_decide_eq_true_2 by eauto. cbn. unfold coordinate.
    cbn [fst snd]. by rewrite Hgv.
  - rewrite bool_decide_eq_false_2 by (by intros [? ?]). done.
Qed.

Lemma listLoop_find (resourceType : string)
    (lists : list (option metav1.APIResourceList)) :
  listLoop (gostrings.ToLower resourceType) lists
  = find (selects resourceType) (entries lists) ≫= coordinate.
Proof.
  induction lists as [|[apiResourceList|] rest IH]; cbn [listLoop]; [done| |].
  - unfold entries. cbn [flat_map]. fold (entries rest).
    rewrite find_app, resourceLoop_find.
    destruct (find _ (map _ _)) as [entry|] eqn:Hf; cbn; [|done].
    apply find_some_selected in Hf as [Hs _].
    by destruct (selects_coordinate _ _ Hs) as [r ->].
  - done.
Qed.

(** Whenever discovery gave a slice or no error, the outcome of [getGVR]
    is that of the scan of the entries in catalog order. *)
Lemma getGVR_scan (resourceType : string) (config : discovery) :
  clientErr config = None →
  discoveryErr config = None ∨ apiResourceLists config ≠ None →
  getGVR resourceType config
  = match find (selects resourceType)
            (entries (sliceOf (apiResourceLists config))) ≫= coordinate with
    | Some r => inr r
    | None => inl (ErrNotFound resourceType)
    end.
Proof.
  intros Hc Hd. unfold getGVR. rewrite Hc, <- listLoop_find.
  destruct (discoveryErr config), (apiResourceLists config);
    try done. by destruct Hd.
Qed.

(** The resolver's helpers on the strings the API serves. *)
Example ParseGroupVersion_core : schema.ParseGroupVersion "v1" = Some ("", "v1").
Proof. reflexivity. Qed.

Example ParseGroupVersion_group :
  schema.ParseGroupVersion "apps/v1" = Some ("apps", "v1").
Proof. reflexivity. Qed.

Example ParseGroupVersion_two_separators :
  schema.ParseGroupVersion "apps/v1/extra" = None.
Proof. reflexivity. Qed.

Example ToLower_mixed : gostrings.ToLower "StatefulSets" = "statefulsets".
Proof. reflexivity. Qed.

Example Contains_subresource : gostrings.Contains "pods/log" "/" = true.
Proof. reflexivity. Qed.

Example getGVR_discovery_failed :
  getGVR "pods" {| clientErr := None; apiResourceLists := None;
                   discoveryErr := Some "connection refused" |}
  = inl (ErrDiscoveryFailed "connection refused").
Proof. reflexivity. Qed.

End Resolver.

(** C5, as stated, fails: [shadowedCatalog] holds two entries named [pods]
    under different group/version strings and the input "pods" matches
    both, yet [getGVR] returns the coordinate of the one that comes second;
    the first has no coordinate, its group/version string does not parse. *)
Lemma C5_counterexample :
  entries (sliceOf (apiResourceLists shadowedCatalog))
  = [("apps/v1/extra", podsEntry); ("v1", podsEntry)]
  ∧ entryMatches (tables := exampleTables) "pods" podsEntry = true
  ∧ coordinate ("apps/v1/extra", podsEntry) = None
  ∧ coordinate ("v1", podsEntry)
    = Some ({| schema.Group := ""; schema.Version := "v1";
               schema.Resource := "pods" |}, true)
  ∧ getGVR (tables := exampleTables) "pods" shadowedCatalog
    = inr ({| schema.Group := ""; schema.Version := "v1";
              schema.Resource := "pods" |}, true).
Proof. split_and!; vm_compute; reflexivity. Qed.

(** C5 (amended).  [getGVR] returns the coordinate of the first entry, in
    catalog iteration order, that it selects: one that is no sub-resource,
    matches the input and has a group/version string that parses.  So when
    the catalog holds two entries with the same plural name under different
    group/version strings, the earlier is no sub-resource and its
    group/version string parses, and the input equals that name up to case,
    the result is the coordinate of an entry at or before the earlier of
    the two, never of the later one; it is the earlier one's coordinate
    when nothing before it is selected. *)
Theorem C5_first_match_wins {tables : unicode.Tables} :
  (∀ (input : string) (config : discovery),
     clientErr config = None →
     discoveryErr config = None ∨ apiResourceLists config ≠ None →
     getGVR input config
     = match find (selects input)
               (entries (sliceOf (apiResourceLists config))) ≫= coordinate with
       | Some r => inr r
       | None => inl (ErrNotFound input)
       end)
  ∧ (∀ (input : string) (config : discovery)
       (pre mid post : list (string * metav1.APIResource))
       (gv1 gv2 group1 version1 : string) (e1 e2 : metav1.APIResource),
       clientErr config = None →
       discoveryErr config = None ∨ apiResourceLists config ≠ None →
       entries (sliceOf (apiResourceLists config))
       = pre ++ (gv1, e1) :: mid ++ (gv2, e2) :: post →
       metav1.Name e1 = metav1.Name e2 →
       gv1 ≠ gv2 →
       schema.ParseGroupVersion gv1 = Some (group1, version1) →
       gostrings.Contains (metav1.Name e1) "/" = false →
       equalFold input (metav1.Name e1) →
       (∃ entry r,
          find (selects input) (pre ++ [(gv1, e1)]) = Some entry
          ∧ coordinate entry = Some r
          ∧ getGVR input config = inr r)
       ∧ (Forall (λ entry, selects input entry = false) pre →
          getGVR input config
          = inr ({| schema.Group := group1;
                    schema.Version := version1;
                    schema.Resource := metav1.Name e1 |},
                 metav1.Namespaced e1))).
Proof.
  split; [exact getGVR_scan|].
  intros input config pre mid post gv1 gv2 group1 version1 e1 e2
    Hc Hd Hentries Hname Hgv Hparse Hsub Hfold.
  assert (selects input (gv1, e1) = true) as Hsel.
  { unfold selects, entryMatches. cbn [fst snd]. rewrite Hsub, Hparse.
    rewrite bool_decide_eq_true_2 by eauto. rewrite andb_true_r.
    cbn [negb andb]. apply matched_spec. by left. }
  assert (coordinate (gv1, e1)
          = Some ({| schema.Group := group1;
                     schema.Version := version1;
                     schema.Resource := metav1.Name e1 |},
                  metav1.Namespaced e1)) as Hcoord.
  { unfold coordinate. cbn [fst snd]. by rewrite Hparse. }
  rewrite (getGVR_scan input config Hc Hd), Hentries.
  replace (pre ++ (gv1, e1) :: mid ++ (gv2, e2) :: post)
    with ((pre ++ [(gv1, e1)]) ++ mid ++ (gv2, e2) :: post)
    by (by rewrite <- app_assoc).
  rewrite (find_app _ (pre ++ [(gv1, e1)])).
  rewrite (find_app _ pre [(gv1, e1)]). cbn [find]. rewrite Hsel.
  split.
  - destruct (find (selects input) pre) as [entry|] eqn:Hpre.
    + apply find_some_selected in Hpre as Hs. destruct Hs as [Hs _].
      destruct (selects_coordinate _ _ Hs) as [r Hr].
      exists entry, r. cbn. by rewrite Hr.
    + eexists _, _. cbn. by rewrite Hcoord.
  - intros Hnone. apply find_none_Forall in Hnone. rewrite Hnone. cbn.
    by rewrite Hcoord.
Qed.

Lemma C5_witness :
  getGVR (tables := exampleTables) "Ingresses" migrationCatalog
  = inr ({| schema.Group := "extensions";
            schema.Version := "v1beta1";
            schema.Resource := "ingresses" |}, true).
Proof.
  refine (proj2 (proj2 (C5_first_match_wins (tables := exampleTables))
            "Ingresses" migrationCatalog
            [("v1", podsEntry); ("v1", podsLogEntry)] [] []
            "extensions/v1beta1" "networking.k8s.io/v1" "extensions" "v1beta1"
            ingressEntry ingressEntry _ _ _ _ _ _ _ _) _);
    try (vm_compute; reflexivity).
  - left. reflexivity.
  - discriminate.
  - repeat constructor.
Defined.

(** C6.  An entry whose name contains "/" is skipped by the scan and is
    never the result.  Any other entry matches an input exactly when the
    lowered input is the lowered name, the lowered kind or a lowered short
    name of the entry; for ASCII text this says, without any lowering, that
    the input is the name, the kind or a short name up to the case of
    letters.  Every result comes from an entry that matches.  With the
    entry pods / Pod / [po] first in the catalog, the inputs "Pods",
    "pods", "PODS", "Pod" and "po" all resolve to its coordinate. *)
Theorem C6_match_predicate {tables : unicode.Tables} :
  (∀ (input : string) (apiResource : metav1.APIResource),
     gostrings.Contains (metav1.Name apiResource) "/" = true →
     entryMatches input apiResource = false
     ∧ ∀ groupVersion rest,
         resourceLoop (gostrings.ToLower input) groupVersion (apiResource :: rest)
         = resourceLoop (gostrings.ToLower input) groupVersion rest)
  ∧ (∀ (input : string) (apiResource : metav1.APIResource),
       gostrings.Contains (metav1.Name apiResource) "/" = false →
       gostrings.isASCII input = true →
       asciiKeys apiResource →
       entryMatches input apiResource = true
       ↔ equalIgnoringCase input (metav1.Name apiResource)
         ∨ equalIgnoringCase input (metav1.Kind apiResource)
         ∨ ∃ alias, alias ∈ metav1.ShortNames apiResource
                    ∧ equalIgnoringCase input alias)
  ∧ (∀ (input : string) (apiResource : metav1.APIResource),
       gostrings.Contains (metav1.Name apiResource) "/" = false →
       (entryMatches input apiResource = true
        ↔ equalFold input (metav1.Name apiResource)
          ∨ equalFold input (metav1.Kind apiResource)
          ∨ ∃ alias, alias ∈ metav1.ShortNames apiResource
                     ∧ equalFold input alias)
       ∧ ∀ groupVersion rest,
           resourceLoop (gostrings.ToLower input) groupVersion
             (apiResource :: rest)
           = if entryMatches input apiResource
             then match coordinate (groupVersion, apiResource) with
                  | Some r => Some r
                  | None => resourceLoop (gostrings.ToLower input)
                              groupVersion rest
                  end
             else resourceLoop (gostrings.ToLower input) groupVersion rest)
  ∧ (∀ (input : string) (config : discovery) gvr namespaced,
       getGVR input config = inr (gvr, namespaced) →
       gostrings.Contains (schema.Resource gvr) "/" = false
       ∧ ∃ entry, entry ∈ entries (sliceOf (apiResourceLists config))
                  ∧ entryMatches input entry.2 = true
                  ∧ coordinate entry = Some (gvr, namespaced))
  ∧ (∀ (config : discovery) (groupVersion group version : string)
       (namespaced : bool) (rest : list metav1.APIResource)
       (more : list (option metav1.APIResourceList)) (input : string),
       clientErr config = None →
       apiResourceLists config
       = Some (Some {| metav1.GroupVersion := groupVersion;
                       metav1.APIResources :=
                         {| metav1.Name := "pods";
                            metav1.Namespaced := namespaced;
                            metav1.Kind := "Pod";
                            metav1.ShortNames := ["po"] |} :: rest |}
               :: more) →
       schema.ParseGroupVersion groupVersion = Some (group, version) →
       input ∈ ["Pods"; "pods"; "PODS"; "Pod"; "po"] →
       getGVR input config
       = inr ({| schema.Group := group;
                 schema.Version := version;
                 schema.Resource := "pods" |}, namespaced)).
Proof.
  split_and!.
  - intros input apiResource Hsub. unfold entryMatches. rewrite Hsub.
    split; [done|]. intros groupVersion rest. cbn [resourceLoop].
    by rewrite Hsub.
  - intros input apiResource Hsub Hin (Hname & Hkind & Haliases).
    unfold entryMatches. rewrite Hsub. cbn [negb andb].
    rewrite matched_spec, !equalFold_ascii by done.
    rewrite Forall_forall in Haliases. split.
    + intros [H|[H|(alias & Ha & H)]]; [by left|by right; left|].
      right; right. exists alias. split; [done|].
      by apply equalFold_ascii; [|apply Haliases|].
    + intros [H|[H|(alias & Ha & H)]]; [by left|by right; left|].
      right; right. exists alias. split; [done|].
      by apply equalFold_ascii; [|apply Haliases|].
  - intros input apiResource Hsub. unfold entryMatches. rewrite Hsub.
    cbn [negb andb]. split; [apply matched_spec|].
    intros groupVersion rest. cbn [resourceLoop]. rewrite Hsub.
    unfold coordinate. cbn [fst snd].
    destruct (matched _ _); [|done].
    by destruct (schema.ParseGroupVersion groupVersion) as [[? ?]|].
  - intros input config gvr namespaced Hr.
    assert (listLoop (gostrings.ToLower input)
              (sliceOf (apiResourceLists config)) = Some (gvr, namespaced))
      as Hscan.
    { revert Hr. unfold getGVR. destruct (clientErr config); [done|].
      destruct (discoveryErr config), (apiResourceLists config); try done;
        by destruct (listLoop _ _) as [r|]; intros [= <-]. }
    rewrite listLoop_find in Hscan.
    destruct (find _ _) as [entry|] eqn:Hf; [|done]. cbn in Hscan.
    apply find_some_selected in Hf as [Hs Hin].
    unfold selects in Hs. apply andb_true_iff in Hs as [Hm _].
    split; [|by exists entry].
    revert Hscan. unfold coordinate.
    destruct (schema.ParseGroupVersion entry.1) as [[? ?]|]; [|done].
    intros [= <- _]. cbn [schema.Resource].
    unfold entryMatches in Hm. apply andb_true_iff in Hm as [Hm _].
    by apply negb_true_iff in Hm.
  - intros config groupVersion group version namespaced rest more input
      Hc Hl Hparse Hin.
    rewrite (getGVR_scan input config Hc) by (right; by rewrite Hl).
    rewrite Hl. unfold sliceOf, entries. cbn [flat_map metav1.GroupVersion
      metav1.APIResources map app find].
    assert (selects input
              (groupVersion,
               {| metav1.Name := "pods"; metav1.Namespaced := namespaced;
                  metav1.Kind := "Pod"; metav1.ShortNames := ["po"] |})
            = true) as ->.
    { unfold selects. cbn [fst snd]. rewrite Hparse.
      rewrite bool_decide_eq_true_2 by eauto. rewrite andb_true_r.
      repeat (apply elem_of_cons in Hin as [-> | Hin];
              [vm_compute; reflexivity|]).
      by apply elem_of_nil in Hin. }
    cbn. unfold coordinate. cbn [fst snd]. by rewrite Hparse.
Qed.

Lemma C6_witness :
  (entryMatches (tables := exampleTables) "log" podsLogEntry = false
   ∧ entryMatches (tables := exampleTables) "pods/log" podsLogEntry = false)
  ∧ entryMatches (tables := exampleTables) "INGRESS" ingressEntry = true
  ∧ entryMatches (tables := exampleTables) "ingres" ingressEntry = false
  ∧ getGVR (tables := exampleTables) "PODS" migrationCatalog
    = inr ({| schema.Group := ""; schema.Version := "v1";
              schema.Resource := "pods" |}, true)
  ∧ getGVR (tables := exampleTables) "po" migrationCatalog
    = inr ({| schema.Group := ""; schema.Version := "v1";
              schema.Resource := "pods" |}, true).
Proof.
  destruct (C6_match_predicate (tables := exampleTables))
    as (Hsub & Hletters & _ & _ & Hpods).
  assert (asciiKeys ingressEntry) as Hkeys.
  { split_and!; [reflexivity|reflexivity|]. by repeat constructor. }
  split_and!.
  - apply (Hsub "log" podsLogEntry). vm_compute. reflexivity.
  - apply (Hsub "pods/log" podsLogEntry). vm_compute. reflexivity.
  - apply (Hletters "INGRESS" ingressEntry); [reflexivity|reflexivity|done|].
    right; left. apply lowerASCII_equalIgnoringCase. reflexivity.
  - apply not_true_is_false.
    rewrite (Hletters "ingres" ingressEntry) by (reflexivity || done).
    intros [H|[H|(alias & Ha & H)]].
    + apply lowerASCII_equalIgnoringCase in H. discriminate H.
    + apply lowerASCII_equalIgnoringCase in H. discriminate H.
    + apply list_elem_of_singleton in Ha as ->.
      apply lowerASCII_equalIgnoringCase in H. discriminate H.
  - apply (Hpods migrationCatalog "v1" "" "v1" true [podsLogEntry]
             (tail migrationLists) "PODS");
      try (vm_compute; reflexivity).
    do 2 apply list_elem_of_further. apply list_elem_of_here.
  - apply (Hpods migrationCatalog "v1" "" "v1" true [podsLogEntry]
             (tail migrationLists) "po");
      try (vm_compute; reflexivity).
    do 4 apply list_elem_of_further. apply list_elem_of_here.
Defined.

(** Outside ASCII the outcome follows the Unicode tables: when they lower
    U+0130 to i, the input "İNG" resolves through the short name [ing]. *)
Example getGVR_dotted_capital {tables : unicode.Tables} :
  unicode.MapToLower dottedING = "ing" →
  getGVR dottedING migrationCatalog
  = inr ({| schema.Group := "extensions";
            schema.Version := "v1beta1";
            schema.Resource := "ingresses" |}, true).
Proof.
  intros Hlower. unfold getGVR. cbn [clientErr discoveryErr migrationCatalog].
  assert (gostrings.ToLower dottedING = "ing") as -> by exact Hlower.
  reflexivity.
Qed.

Example getGVR_dotted_capital_exampleTables :
  getGVR (tables := exampleTables) dottedING migrationCatalog
  = inr ({| schema.Group := "extensions";
            schema.Version := "v1beta1";
            schema.Resource := "ingresses" |}, true).
Proof. by apply getGVR_dotted_capital. Qed.

(** C7, as stated, fails: [unparsableCatalog] holds an entry that matches
    the input "pods", yet [getGVR] reports that the type was not found. *)
Lemma C7_counterexample :
  getGVR (tables := exampleTables) "pods" unparsableCatalog
  = inl (ErrNotFound "pods")
  ∧ ∃ entry, entry ∈ entries (sliceOf (apiResourceLists unparsableCatalog))
             ∧ entryMatches (tables := exampleTables) "pods" entry.2 = true.
Proof.
  split; [vm_compute; reflexivity|].
  exists ("apps/v1/extra", podsEntry).
  split; [apply list_elem_of_here|vm_compute; reflexivity].
Qed.

(** C7 (amended).  [getGVR] reports not-found exactly when the scan of the
    whole catalog meets no entry that matches and whose group/version
    string parses (a matching entry with an unparsable group/version is
    passed over); it reports a failed discovery exactly when discovery
    returned an error and no slice at all; with an error and a slice the
    outcome is that of the same slice without the error; and a catalog that
    was obtained but has no entries gives not-found for every input. *)
Theorem C7_not_found_and_unavailable {tables : unicode.Tables} :
  (∀ (input reported : string) (config : discovery),
     getGVR input config = inl (ErrNotFound reported)
     ↔ reported = input
       ∧ clientErr config = None
       ∧ (discoveryErr config = None ∨ apiResourceLists config ≠ None)
       ∧ Forall (λ entry, selects input entry = false)
           (entries (sliceOf (apiResourceLists config))))
  ∧ (∀ (input cause : string) (config : discovery),
       getGVR input config = inl (ErrDiscoveryFailed cause)
       ↔ clientErr config = None
         ∧ discoveryErr config = Some cause
         ∧ apiResourceLists config = None)
  ∧ (∀ (input err : string) (lists : list (option metav1.APIResourceList))
       (config : discovery),
       clientErr config = None →
       discoveryErr config = Some err →
       apiResourceLists config = Some lists →
       getGVR input config
       = getGVR input {| clientErr := None;
                         apiResourceLists := Some lists;
                         discoveryErr := None |})
  ∧ (∀ (input : string) (config : discovery),
       clientErr config = None →
       discoveryErr config = None ∨ apiResourceLists config ≠ None →
       entries (sliceOf (apiResourceLists config)) = [] →
       getGVR input config = inl (ErrNotFound input)).
Proof.
  split_and!.
  - intros input reported config. split.
    + intros Hr.
      destruct (clientErr config) as [e|] eqn:Hc.
      { unfold getGVR in Hr. by rewrite Hc in Hr. }
      assert (discoveryErr config = None ∨ apiResourceLists config ≠ None)
        as Hd.
      { unfold getGVR in Hr. rewrite Hc in Hr.
        destruct (discoveryErr config), (apiResourceLists config);
          try done; auto. }
      rewrite (getGVR_scan input config Hc Hd) in Hr.
      destruct (find _ _) as [entry|] eqn:Hf.
      * apply find_some_selected in Hf as [Hs _].
        destruct (selects_coordinate _ _ Hs) as [r Hcoord].
        cbn in Hr. by rewrite Hcoord in Hr.
      * cbn in Hr. injection Hr as <-.
        by apply find_none_Forall in Hf.
    + intros (-> & Hc & Hd & Hnone).
      rewrite (getGVR_scan input config Hc Hd).
      apply find_none_Forall in Hnone. by rewrite Hnone.
  - intros input cause config. unfold getGVR.
    destruct (clientErr config); [naive_solver|].
    destruct (discoveryErr config), (apiResourceLists config);
      try destruct (listLoop _ _); naive_solver.
  - intros input err lists config Hc Hd Hl. unfold getGVR.
    by rewrite Hc, Hd, Hl.
  - intros input config Hc Hd Hempty.
    by rewrite (getGVR_scan input config Hc Hd), Hempty.
Qed.

Lemma C7_witness :
  getGVR (tables := exampleTables) "ing" partialCatalog
  = getGVR (tables := exampleTables) "ing" migrationCatalog
  ∧ getGVR (tables := exampleTables) "pods"
      {| clientErr := None; apiResourceLists := Some [None];
         discoveryErr := None |}
    = inl (ErrNotFound "pods").
Proof.
  destruct (C7_not_found_and_unavailable (tables := exampleTables))
    as (_ & _ & Hpartial & Hempty). split.
  - apply (Hpartial "ing"
             "unable to retrieve the complete list of server APIs"
             migrationLists partialCatalog); reflexivity.
  - apply Hempty; [reflexivity|by left|reflexivity].
Defined.

(** * Further properties *)

(** ** What the extractors read *)
Section Reads.

Lemma nestedField_app (v : Value) (p q : list string) :
  nestedField v (p ++ q)
  = match nestedField v p with
    | Found w => nestedField w q
    | Absent => Absent
    | Mismatch => Mismatch
    end.
Proof.
  revert v. induction p as [|field p IH]; intros v; [done|].
  cbn [app nestedField]. destruct v as [| | | | | |m]; try done.
  destruct (m !! field); [apply IH|done].
Qed.

Lemma fieldAt_specRoot (item : Unstructured) (name : string) :
  fieldAt item name
  = match specRoot item with
    | Found w => nestedField w [name]
    | Absent => Absent
    | Mismatch => Mismatch
    end.
Proof. unfold fieldAt, specRoot, NestedFieldNoCopy. apply nestedField_app. Qed.

Lemma schedulingFields_ext (item1 item2 : Unstructured) :
  (∀ name, fieldAt item1 name = fieldAt item2 name) →
  schedulingFields item1 = schedulingFields item2.
Proof.
  intros Hsame. unfold schedulingFields. cbv zeta. fold_fieldAt.
  by rewrite !Hsame.
Qed.

Lemma subcommand_ext (item1 item2 : Unstructured) (outputItem : OutputItem)
    (subCommand : string) :
  (∀ name, fieldAt item1 name = fieldAt item2 name) →
  extractSchedulingSubcommand item1 outputItem subCommand
  = extractSchedulingSubcommand item2 outputItem subCommand.
Proof.
  intros Hsame.
  unfold extractSchedulingSubcommand, resourcesMap, priorityMap, runtimeMap.
  cbv zeta. fold_fieldAt. by rewrite !Hsame.
Qed.

Lemma fieldAt_not_found (item : Unstructured) (name : string) :
  (∀ m, specRoot item ≠ Found (VMap m)) →
  ∀ v, fieldAt item name ≠ Found v.
Proof.
  intros Hroot v. rewrite fieldAt_specRoot.
  destruct (specRoot item) as [[| | | | | |m]| |]; try done.
  by destruct (Hroot m).
Qed.

End Reads.

(** X1.  Both extractors read the document only through its kind and the
    value at the spec root: two documents with the same spec-root value give
    the same snapshot and the same result for every subcommand.  So a
    Deployment whose [spec.template.spec] is a given mapping is treated
    exactly like a Pod whose [spec] is that mapping. *)
Theorem X1_extraction_depends_on_spec_root_only :
  (∀ item1 item2 : Unstructured,
     specRoot item1 = specRoot item2 →
     extractSchedulingInfo item1 = extractSchedulingInfo item2
     ∧ ∀ (outputItem : OutputItem) (subCommand : string),
         extractSchedulingSubcommand item1 outputItem subCommand
         = extractSchedulingSubcommand item2 outputItem subCommand)
  ∧ (∀ spec : gmap string Value,
       extractSchedulingInfo
         (deploymentOf {[ "template" := VMap {[ "spec" := VMap spec ]} ]})
       = extractSchedulingInfo (podOf spec)).
Proof.
  assert (∀ item1 item2 : Unstructured,
     specRoot item1 = specRoot item2 →
     extractSchedulingInfo item1 = extractSchedulingInfo item2
     ∧ ∀ (outputItem : OutputItem) (subCommand : string),
         extractSchedulingSubcommand item1 outputItem subCommand
         = extractSchedulingSubcommand item2 outputItem subCommand) as Hroot.
  { intros item1 item2 Hr.
    assert (∀ name, fieldAt item1 name = fieldAt item2 name) as Hsame.
    { intros name. by rewrite !fieldAt_specRoot, Hr. }
    split.
    - unfold extractSchedulingInfo.
      by rewrite (schedulingFields_ext item1 item2 Hsame).
    - intros outputItem subCommand. by apply subcommand_ext. }
  split; [exact Hroot|].
  intros spec. apply Hroot. vm_compute. reflexivity.
Qed.

Lemma X1_witness :
  extractSchedulingInfo nestedDeployment
  = extractSchedulingInfo (podOf {[ "tolerations" := VSlice [toleration] ]}).
Proof.
  apply (proj1 X1_extraction_depends_on_spec_root_only).
  vm_compute. reflexivity.
Defined.

(** X2.  Extraction never fails on a malformed document: when the spec
    root is missing or is not a mapping, no snapshot is returned and every
    subcommand leaves the output item as it was. *)
Theorem X2_no_spec_root_no_scheduling (item : Unstructured) :
  (∀ m, specRoot item ≠ Found (VMap m)) →
  extractSchedulingInfo item = None
  ∧ ∀ (outputItem : OutputItem) (subCommand : string),
      extractSchedulingSubcommand item outputItem subCommand = outputItem.
Proof.
  intros Hroot. pose proof (fieldAt_not_found item) as Hnf.
  assert (∀ name, ¬ stringPresent item name) as Hstr
    by (intros name (s & H & _); by eapply Hnf).
  assert (∀ name, ¬ slicePresent item name) as Hsl
    by (intros name (s & H & _); by eapply Hnf).
  assert (∀ name, ¬ mapPresent item name) as Hmp
    by (intros name (s & H & _); by eapply Hnf).
  assert (∀ name, ¬ stringMapPresent item name) as Hsm
    by (intros name (s & H & _); by eapply Hnf).
  assert (∀ name, ¬ intPresent item name) as Hint
    by (intros name (s & H); by eapply Hnf).
  assert (∀ name, ¬ boolPresent item name) as Hbl
    by (intros name (s & H); by eapply Hnf).
  assert (∀ name, ¬ flagSet item name) as Hfl
    by (intros name H; by eapply Hnf).
  assert (∀ part, ¬ resourcesPresent item part) as Hres
    by (intros part (cs & c & k & v & H & _); by eapply Hnf).
  split.
  - unfold extractSchedulingInfo. cbv zeta.
    destruct (noSchedulingInfo _) eqn:Hn; [done|]. exfalso.
    assert (noSchedulingInfo (schedulingFields item) = true) as Ht.
    { apply noSchedulingInfo_spec. unfold anyFieldPresent. naive_solver. }
    congruence.
  - intros outputItem subCommand. apply subcommand_collapse.
    unfold groupPresent. naive_solver.
Qed.

Lemma X2_witness :
  extractSchedulingInfo {| Object := {[ "kind" := VString "Pod";
                                        "spec" := VString "oops" ]} |} = None.
Proof.
  apply X2_no_spec_root_no_scheduling. intros m H. vm_compute in H.
  discriminate H.
Defined.

(** X3.  A subcommand never touches the identity of the output item (name,
    namespace, labels, annotations, owner references, full snapshot) and
    writes at most the one field it is named after: every other subcommand
    field keeps its value. *)
Theorem X3_subcommand_writes_only_its_field
    (item : Unstructured) (outputItem : OutputItem) (subCommand : string) :
  let result := extractSchedulingSubcommand item outputItem subCommand in
  itemName result = itemName outputItem
  ∧ itemNamespace result = itemNamespace outputItem
  ∧ itemLabels result = itemLabels outputItem
  ∧ itemAnnotations result = itemAnnotations outputItem
  ∧ itemOwnerReferences result = itemOwnerReferences outputItem
  ∧ itemScheduling result = itemScheduling outputItem
  ∧ (subCommand ≠ "tolerations" →
     itemTolerations result = itemTolerations outputItem)
  ∧ (subCommand ≠ "affinity" → itemAffinity result = itemAffinity outputItem)
  ∧ (subCommand ≠ "nodeselector" →
     itemNodeSelector result = itemNodeSelector outputItem)
  ∧ (subCommand ≠ "resources" →
     itemResources result = itemResources outputItem)
  ∧ (subCommand ≠ "topology" →
     itemTopologySpreadConstraints result
     = itemTopologySpreadConstraints outputItem)
  ∧ (subCommand ≠ "priority" → itemPriority result = itemPriority outputItem)
  ∧ (subCommand ≠ "runtime" → itemRuntime result = itemRuntime outputItem).
Proof.
  cbv zeta. unfold extractSchedulingSubcommand. cbv zeta.
  repeat (destruct (decide (subCommand = _)) as [->|?]);
    repeat match goal with
      | |- context [match ?r with Found _ => _ | Absent => _ | Mismatch => _ end] =>
          destruct r
      | |- context [if decide (0 < ?n) then _ else _] =>
          destruct (decide (0 < n))
      end;
    split_and!; done.
Qed.

Lemma X3_witness :
  itemTolerations
    (extractSchedulingSubcommand nestedDeployment (newOutputItem "d" "default")
       "affinity") = [].
Proof.
  apply (X3_subcommand_writes_only_its_field nestedDeployment
           (newOutputItem "d" "default") "affinity").
  discriminate.
Defined.

(** X4.  The subcommands [tolerations], [affinity], [nodeselector] and
    [topology] report exactly the corresponding field of the full snapshot
    when there is one, and nothing when there is none. *)
Theorem X4_single_fields_agree_with_snapshot
    (item : Unstructured) (name namespace : string) :
  let fresh := newOutputItem name namespace in
  match extractSchedulingInfo item with
  | Some s =>
      itemTolerations (extractSchedulingSubcommand item fresh "tolerations")
      = Tolerations s
      ∧ itemAffinity (extractSchedulingSubcommand item fresh "affinity")
        = Affinity s
      ∧ itemNodeSelector (extractSchedulingSubcommand item fresh "nodeselector")
        = NodeSelector s
      ∧ itemTopologySpreadConstraints
          (extractSchedulingSubcommand item fresh "topology")
        = TopologySpreadConstraints s
  | None =>
      ∀ subCommand,
        subCommand ∈ ["tolerations"; "affinity"; "nodeselector"; "topology"] →
        extractSchedulingSubcommand item fresh subCommand = fresh
  end.
Proof.
  cbv zeta. unfold extractSchedulingInfo. cbv zeta.
  destruct (noSchedulingInfo _) eqn:Hn.
  - apply noSchedulingInfo_spec in Hn. intros subCommand Hin.
    apply subcommand_collapse. unfold anyFieldPresent in Hn.
    unfold groupPresent. intros Hg.
    rewrite !elem_of_cons, elem_of_nil in Hin.
    destruct Hin as [->|[->|[->|[->|[]]]]];
      destruct Hg as [[? ?]|[[? ?]|[[? ?]|[[? ?]|[[? ?]|[[? ?]|[? ?]]]]]]];
      try discriminate; tauto.
  - unfold extractSchedulingSubcommand, schedulingFields, nonEmptySlice,
      nonEmptyMap. cbv zeta.
    cbn [Tolerations Affinity NodeSelector TopologySpreadConstraints].
    repeat (destruct (decide (_ = _)) as [?|?]; try done).
    split_and!.
    + destruct (NestedSlice _ _) as [l| |]; try done.
      by destruct (decide _).
    + destruct (NestedMap _ _) as [m| |]; try done.
      by destruct (decide _).
    + destruct (NestedStringMap _ _) as [m| |]; try done.
      by destruct (decide _).
    + destruct (NestedSlice _ _) as [l| |]; try done.
      by destruct (decide _).
Qed.

(** X5.  A node selector with a member that is not a string is dropped as
    a whole, by the snapshot and by the [nodeselector] subcommand; when all
    members are strings and there is at least one, the snapshot carries the
    mapping with the same keys and strings. *)
Theorem X5_nodeSelector_all_strings_or_nothing
    (item : Unstructured) (m : gmap string Value) :
  fieldAt item "nodeSelector" = Found (VMap m) →
  (∀ k v, m !! k = Some v → asString v = None →
     (∀ s, extractSchedulingInfo item = Some s → NodeSelector s = None)
     ∧ ∀ outputItem,
         extractSchedulingSubcommand item outputItem "nodeselector"
         = outputItem)
  ∧ (m ≠ ∅ → map_Forall (λ _ v, is_Some (asString v)) m →
     ∃ s nodeSelector,
       extractSchedulingInfo item = Some s
       ∧ NodeSelector s = Some nodeSelector
       ∧ ∀ k, VString <$> nodeSelector !! k = m !! k).
Proof.
  intros Hf. split.
  - intros k v Hk Hv.
    assert (NestedStringMap (Object item) (getPodSpecPath item ++ ["nodeSelector"])
            = Mismatch) as Hm.
    { fold_fieldAt. rewrite Hf. rewrite bool_decide_eq_false_2; [done|].
      intros Hall. destruct (Hall k v Hk) as [s Hs]. congruence. }
    split.
    + unfold extractSchedulingInfo. cbv zeta.
      destruct (noSchedulingInfo _); [done|]. intros s [= <-].
      unfold schedulingFields. cbn [NodeSelector]. by rewrite Hm.
    + intros outputItem. unfold extractSchedulingSubcommand. cbv zeta.
      repeat (destruct (decide (_ = _)) as [?|?]; try done).
      by rewrite Hm.
  - intros Hne Hall.
    assert (NestedStringMap (Object item) (getPodSpecPath item ++ ["nodeSelector"])
            = Found (omap asString m)) as Hm.
    { fold_fieldAt. rewrite Hf. by rewrite bool_decide_eq_true_2. }
    assert (∀ k, VString <$> omap asString m !! k = m !! k) as Hkeys.
    { intros k. rewrite lookup_omap. destruct (m !! k) as [v|] eqn:Hk; [|done].
      destruct (Hall k v Hk) as [s Hs]. cbn. rewrite Hs. cbn.
      destruct v; try done. by injection Hs as ->. }
    assert (omap asString m ≠ ∅) as Hne'.
    { intros He. apply Hne, map_empty. intros k.
      rewrite <- Hkeys, He, lookup_empty. done. }
    assert (NodeSelector (schedulingFields item) = Some (omap asString m))
      as Hns.
    { unfold schedulingFields. cbn [NodeSelector]. rewrite Hm.
      by apply nonEmptyMap_Some. }
    exists (schedulingFields item), (omap asString m).
    split_and!; [|done|done].
    unfold extractSchedulingInfo. cbv zeta.
    destruct (noSchedulingInfo _) eqn:Hn; [|done].
    unfold noSchedulingInfo in Hn. rewrite Hns in Hn.
    rewrite bool_decide_eq_false_2 in Hn by done. done.
Qed.

Lemma X5_witness :
  NodeSelector <$> extractSchedulingInfo mixedSelectorPod = Some None
  ∧ extractSchedulingSubcommand mixedSelectorPod (newOutputItem "p" "")
      "nodeselector"
    = newOutputItem "p" "".
Proof.
  assert (fieldAt mixedSelectorPod "nodeSelector"
          = Found (VMap {[ "disk" := VString "ssd"; "zone" := VInt64 3 ]}))
    as Hf by (vm_compute; reflexivity).
  destruct (proj1 (X5_nodeSelector_all_strings_or_nothing mixedSelectorPod _ Hf)
              "zone" (VInt64 3)) as [Hs Ho].
  - vm_compute. reflexivity.
  - reflexivity.
  - split; [|apply Ho].
    destruct (extractSchedulingInfo mixedSelectorPod) as [s|] eqn:He.
    + cbn. f_equal. by apply Hs.
    + vm_compute in He. discriminate.
Defined.

(** ** Priority and runtime groups *)
Section SmallMaps.

Lemma putString_lookup_ne (r : nested string) (k k' : string)
    (m : gmap string Value) :
  k ≠ k' → putString r k m !! k' = m !! k'.
Proof.
  intros Hne. destruct r as [s| |]; cbn [putString]; try done.
  unfold putIf. destruct (bool_decide _); [|done].
  by rewrite lookup_insert_ne.
Qed.

Lemma putBool_lookup_ne (r : nested bool) (k k' : string)
    (m : gmap string Value) :
  k ≠ k' → putBool r k m !! k' = m !! k'.
Proof.
  intros Hne. destruct r as [b| |]; cbn [putBool]; try done.
  by rewrite lookup_insert_ne.
Qed.

Lemma putInt64_lookup_ne (r : nested Z) (k k' : string)
    (m : gmap string Value) :
  k ≠ k' → putInt64 r k m !! k' = m !! k'.
Proof.
  intros Hne. destruct r as [n| |]; cbn [putInt64]; try done.
  by rewrite lookup_insert_ne.
Qed.

Lemma putBool_lookup (r : nested bool) (k : string) (m : gmap string Value) :
  m !! k = None →
  putBool r k m !! k = match r with Found b => Some (VBool b) | _ => None end.
Proof.
  intros Hm. destruct r as [b| |]; cbn [putBool]; try done.
  by rewrite lookup_insert_eq.
Qed.

Lemma int32_range (x : Z) : (- 2 ^ 31 ≤ int32 x < 2 ^ 31)%Z.
Proof.
  unfold int32.
  pose proof (Z.mod_pos_bound (x + 2 ^ 31) (2 ^ 32) eq_refl). lia.
Qed.

Lemma int32_congruent (x : Z) : (int32 x mod 2 ^ 32 = x mod 2 ^ 32)%Z.
Proof.
  unfold int32. rewrite Zminus_mod_idemp_l. f_equal. lia.
Qed.

Lemma int32_small (x : Z) : (- 2 ^ 31 ≤ x < 2 ^ 31)%Z → int32 x = x.
Proof. intros Hx. unfold int32. rewrite Z.mod_small; lia. Qed.

End SmallMaps.

(** X6.  The snapshot stores the priority as an [int32]: it lies in the
    32-bit signed range, is congruent to the document's integer modulo 2^32
    and equals it exactly when the integer is in that range.  The [priority]
    subcommand stores the document's integer itself, not truncated. *)
Theorem X6_snapshot_priority_is_truncated (item : Unstructured) (n : Z) :
  fieldAt item "priority" = Found (VInt64 n) →
  (∃ s p, extractSchedulingInfo item = Some s ∧ Priority s = Some p
          ∧ (- 2 ^ 31 ≤ p < 2 ^ 31)%Z
          ∧ (p mod 2 ^ 32 = n mod 2 ^ 32)%Z
          ∧ (p = n ↔ (- 2 ^ 31 ≤ n < 2 ^ 31)%Z))
  ∧ (∀ outputItem, ∃ priority,
       itemPriority (extractSchedulingSubcommand item outputItem "priority")
       = Some priority
       ∧ priority !! "priority" = Some (VInt64 n)).
Proof.
  intros Hf. split.
  - exists (schedulingFields item), (int32 n).
    assert (Priority (schedulingFields item) = Some (int32 n)) as Hp
      by (by rewrite priority_field, Hf).
    split; [by apply (snapshot_of_priority item (int32 n))|].
    split; [done|]. split; [apply int32_range|].
    split; [apply int32_congruent|].
    split; [|apply int32_small].
    intros <-. apply int32_range.
  - intros outputItem.
    assert (priorityMap item !! "priority" = Some (VInt64 n)) as Hk.
    { unfold priorityMap. cbv zeta. rewrite putString_lookup_ne by done.
      fold_fieldAt. rewrite Hf. cbn [putInt64]. by rewrite lookup_insert_eq. }
    exists (priorityMap item). split; [|done].
    unfold extractSchedulingSubcommand. cbv zeta.
    repeat (destruct (decide (_ = _)) as [?|?]; try done).
    destruct (decide _) as [|Hn]; [done|]. exfalso. apply Hn.
    apply size_pos_nonempty. by apply (map_nonempty_lookup _ "priority" (VInt64 n)).
Qed.

Lemma X6_witness :
  (∃ s p, extractSchedulingInfo hugePriorityPod = Some s
          ∧ Priority s = Some p
          ∧ (- 2 ^ 31 ≤ p < 2 ^ 31)%Z
          ∧ (p mod 2 ^ 32 = 4294967301 mod 2 ^ 32)%Z
          ∧ (p = 4294967301%Z ↔ (- 2 ^ 31 ≤ 4294967301 < 2 ^ 31)%Z))
  ∧ (∃ priority,
       itemPriority
         (extractSchedulingSubcommand hugePriorityPod (newOutputItem "p" "")
            "priority")
       = Some priority
       ∧ priority !! "priority" = Some (VInt64 4294967301)).
Proof.
  destruct (X6_snapshot_priority_is_truncated hugePriorityPod 4294967301)
    as [Hs Ho].
  - vm_compute. reflexivity.
  - split; [exact Hs|apply Ho].
Defined.

(** X7.  The [runtime] subcommand records a host flag exactly when the
    document holds a boolean under that key, [false] included; the snapshot
    cannot tell a flag that is [false] from one that is missing: its flag is
    true exactly when the document says [true]. *)
Theorem X7_runtime_keeps_false_flags
    (item : Unstructured) (name namespace : string) :
  (∀ flag b,
     flag ∈ ["hostNetwork"; "hostPID"; "hostIPC"] →
     fieldAt item flag = Found (VBool b)
     ↔ ∃ runtime,
         itemRuntime
           (extractSchedulingSubcommand item (newOutputItem name namespace)
              "runtime") = Some runtime
         ∧ runtime !! flag = Some (VBool b))
  ∧ (∀ s, extractSchedulingInfo item = Some s →
       (HostNetwork s = true ↔ fieldAt item "hostNetwork" = Found (VBool true))
       ∧ (HostPID s = true ↔ fieldAt item "hostPID" = Found (VBool true))
       ∧ (HostIPC s = true ↔ fieldAt item "hostIPC" = Found (VBool true))).
Proof.
  split.
  - intros flag b Hin.
    assert (runtimeMap item !! flag
            = match fieldAt item flag with
              | Found (VBool b') => Some (VBool b')
              | _ => None
              end) as Hk.
    { unfold runtimeMap. cbv zeta.
      rewrite !elem_of_cons, elem_of_nil in Hin.
      destruct Hin as [->|[->|[->|[]]]].
      - rewrite !putBool_lookup_ne by done. rewrite putBool_lookup.
        + fold_fieldAt. by destruct (fieldAt item "hostNetwork") as [[]| |].
        + by rewrite putString_lookup_ne, lookup_empty.
      - rewrite !putBool_lookup_ne by done. rewrite putBool_lookup.
        + fold_fieldAt. by destruct (fieldAt item "hostPID") as [[]| |].
        + by rewrite putBool_lookup_ne, putString_lookup_ne, lookup_empty.
      - rewrite putBool_lookup.
        + fold_fieldAt. by destruct (fieldAt item "hostIPC") as [[]| |].
        + by rewrite !putBool_lookup_ne, putString_lookup_ne, lookup_empty. }
    assert (itemRuntime
              (extractSchedulingSubcommand item (newOutputItem name namespace)
                 "runtime")
            = if decide (0 < size (runtimeMap item))
              then Some (runtimeMap item) else None) as Hr.
    { unfold extractSchedulingSubcommand. cbv zeta.
      repeat (destruct (decide (_ = _)) as [?|?]; try done).
      by destruct (decide _). }
    rewrite Hr. split.
    + intros Hf. rewrite Hf in Hk. exists (runtimeMap item).
      split; [|done]. destruct (decide _) as [|Hn]; [done|]. exfalso.
      apply Hn, size_pos_nonempty.
      by apply (map_nonempty_lookup _ flag (VBool b)).
    + intros (runtime & Hsome & Hl). destruct (decide _); [|done].
      injection Hsome as <-. rewrite Hk in Hl.
      destruct (fieldAt item flag) as [[]| |]; try done. congruence.
  - intros s. unfold extractSchedulingInfo. cbv zeta.
    destruct (noSchedulingInfo _); [done|]. intros [= <-].
    unfold schedulingFields. cbn [HostNetwork HostPID HostIPC]. fold_fieldAt.
    split_and!.
    + destruct (fieldAt item "hostNetwork") as [[| [] | | | | |]| |]; cbn;
        naive_solver.
    + destruct (fieldAt item "hostPID") as [[| [] | | | | |]| |]; cbn;
        naive_solver.
    + destruct (fieldAt item "hostIPC") as [[| [] | | | | |]| |]; cbn;
        naive_solver.
Qed.

Lemma X7_witness :
  (∃ runtime,
     itemRuntime
       (extractSchedulingSubcommand hostNetworkOffPod (newOutputItem "p" "")
          "runtime") = Some runtime
     ∧ runtime !! "hostNetwork" = Some (VBool false))
  ∧ extractSchedulingInfo hostNetworkOffPod = None.
Proof.
  split.
  - apply (proj1 (X7_runtime_keeps_false_flags hostNetworkOffPod "p" "")
             "hostNetwork" false).
    + apply list_elem_of_here.
    + vm_compute. reflexivity.
  - vm_compute. reflexivity.
Defined.

(** ** The two accumulations of requests and limits *)
Section Accumulations.

Lemma overwriteContainers_requests_last (cs : list Value) (k : string) :
  (overwriteContainers cs).1 !! k = last (omap (declared "requests" k) cs).
Proof.
  induction cs as [|c cs IH] using rev_ind; [done|].
  rewrite overwriteContainers_snoc, overwriteContainer_requests, omap_app, IH.
  cbn [omap list_omap]. destruct (declared "requests" k c) as [v|]; cbn.
  - by rewrite last_snoc.
  - by rewrite app_nil_r.
Qed.

Lemma overwriteContainers_limits_last (cs : list Value) (k : string) :
  (overwriteContainers cs).2 !! k = last (omap (declared "limits" k) cs).
Proof.
  induction cs as [|c cs IH] using rev_ind; [done|].
  rewrite overwriteContainers_snoc, overwriteContainer_limits, omap_app, IH.
  cbn [omap list_omap]. destruct (declared "limits" k c) as [v|]; cbn.
  - by rewrite last_snoc.
  - by rewrite app_nil_r.
Qed.

(** The running map of the snapshot folds [joined] over the declared
    values. *)
Lemma mergeContainers_requests_fold (cs : list Value) (k : string) :
  (mergeContainers cs).1 !! k
  = fold_left (λ acc v, joined acc (Some v))
      (omap (declared "requests" k) cs) None.
Proof.
  induction cs as [|c cs IH] using rev_ind; [done|].
  rewrite mergeContainers_snoc, mergeContainer_requests, omap_app, IH.
  cbn [omap list_omap]. destruct (declared "requests" k c) as [v|]; cbn.
  - by rewrite fold_left_app.
  - by rewrite app_nil_r.
Qed.

Lemma mergeContainers_limits_fold (cs : list Value) (k : string) :
  (mergeContainers cs).2 !! k
  = fold_left (λ acc v, joined acc (Some v))
      (omap (declared "limits" k) cs) None.
Proof.
  induction cs as [|c cs IH] using rev_ind; [done|].
  rewrite mergeContainers_snoc, mergeContainer_limits, omap_app, IH.
  cbn [omap list_omap]. destruct (declared "limits" k c) as [v|]; cbn.
  - by rewrite fold_left_app.
  - by rewrite app_nil_r.
Qed.

(** Once the accumulated value is not a string it never changes. *)
Lemma fold_joined_stuck (vs : list Value) (e : Value) :
  asString e = None →
  fold_left (λ acc v, joined acc (Some v)) vs (Some e) = Some e.
Proof.
  intros He. induction vs as [|v vs IH]; [done|].
  cbn [fold_left joined]. by rewrite He.
Qed.

Lemma fold_joined_is_Some (vs : list Value) (acc : option Value) :
  is_Some (fold_left (λ acc v, joined acc (Some v)) vs acc)
  ↔ is_Some acc ∨ vs ≠ [].
Proof.
  revert acc. induction vs as [|v vs IH]; intros acc; cbn [fold_left].
  - naive_solver.
  - rewrite IH. split; [naive_solver|]. intros _. left.
    destruct acc as [e|]; cbn; [|eauto].
    destruct (asString e), (asString v); eauto.
Qed.

Lemma snapshotResource_requests (item : Unstructured) (k : string) :
  snapshotResource item "requests" k
  = fold_left (λ acc v, joined acc (Some v))
      (declarations item "requests" k) None.
Proof.
  unfold snapshotResource, declarations, extractSchedulingInfo. cbv zeta.
  pose proof (requests_field item) as Hr.
  destruct (decide ("requests" = "requests")) as [Hpart|Hpart]; try done.
  remember (schedulingFields item) as sf eqn:Hsf. clear Hsf.
  destruct (noSchedulingInfo sf) eqn:Hn; cbn.
  - apply noSchedulingInfo_resources in Hn as (Hn & _). rewrite Hn in Hr.
    destruct (fieldAt item "containers") as [[| | | | |cs|]| |]; try done.
    symmetry in Hr. apply nonEmptyMap_None in Hr.
    by rewrite <- mergeContainers_requests_fold, Hr, lookup_empty.
  - rewrite Hr.
    destruct (fieldAt item "containers") as [[| | | | |cs|]| |]; try done.
    rewrite <- mergeContainers_requests_fold.
    destruct (nonEmptyMap _) as [m|] eqn:Hm; cbn.
    + unfold nonEmptyMap in Hm. destruct (decide _); [|done].
      by injection Hm as <-.
    + apply nonEmptyMap_None in Hm. by rewrite Hm, lookup_empty.
Qed.

Lemma snapshotResource_limits (item : Unstructured) (k : string) :
  snapshotResource item "limits" k
  = fold_left (λ acc v, joined acc (Some v))
      (declarations item "limits" k) None.
Proof.
  unfold snapshotResource, declarations, extractSchedulingInfo. cbv zeta.
  pose proof (limits_field item) as Hr.
  destruct (decide ("limits" = "requests")) as [Hpart|Hpart]; try done.
  remember (schedulingFields item) as sf eqn:Hsf. clear Hsf.
  destruct (noSchedulingInfo sf) eqn:Hn; cbn.
  - apply noSchedulingInfo_resources in Hn as (_ & Hn & _). rewrite Hn in Hr.
    destruct (fieldAt item "containers") as [[| | | | |cs|]| |]; try done.
    symmetry in Hr. apply nonEmptyMap_None in Hr.
    by rewrite <- mergeContainers_limits_fold, Hr, lookup_empty.
  - rewrite Hr.
    destruct (fieldAt item "containers") as [[| | | | |cs|]| |]; try done.
    rewrite <- mergeContainers_limits_fold.
    destruct (nonEmptyMap _) as [m|] eqn:Hm; cbn.
    + unfold nonEmptyMap in Hm. destruct (decide _); [|done].
      by injection Hm as <-.
    + apply nonEmptyMap_None in Hm. by rewrite Hm, lookup_empty.
Qed.

Lemma putIf_lookup (cond : bool) (k k' : string) (v : Value)
    (m : gmap string Value) :
  putIf cond k v m !! k'
  = if cond && bool_decide (k = k') then Some v else m !! k'.
Proof.
  unfold putIf. destruct cond; cbn; [|done]. case_bool_decide as Hk.
  - subst. apply lookup_insert_eq.
  - by apply lookup_insert_ne.
Qed.

(** What the subcommand stores under [requests] or [limits], read through
    the stored item. *)
Lemma subcommandResource_unfold (item : Unstructured) (part k : string) :
  subcommandResource item part k
  = asMap (resourcesMap item !! part) ≫= (.!! k).
Proof.
  unfold subcommandResource, extractSchedulingSubcommand. cbv zeta.
  repeat (destruct (decide (_ = _)) as [?|?]; try done).
  destruct (decide _) as [Hs|Hs]; [done|]. cbn.
  assert (resourcesMap item = ∅) as -> by (apply map_size_empty_inv; lia).
  by rewrite lookup_empty.
Qed.

Lemma subcommandResource_requests (item : Unstructured) (k : string) :
  subcommandResource item "requests" k = last (declarations item "requests" k).
Proof.
  rewrite subcommandResource_unfold. unfold declarations, resourcesMap.
  fold_fieldAt.
  destruct (fieldAt item "containers") as [[| | | | |cs|]| |]; try done.
  cbv zeta. rewrite <- overwriteContainers_requests_last.
  rewrite !putIf_lookup, lookup_empty.
  rewrite (bool_decide_eq_false_2 ("limits" = "requests")) by done.
  rewrite (bool_decide_eq_true_2 ("requests" = "requests")) by done.
  rewrite andb_false_r, andb_true_r. case_bool_decide as Hs; [done|]. cbn.
  assert ((overwriteContainers cs).1 = ∅) as ->
    by (apply map_size_empty_inv; lia).
  by rewrite lookup_empty.
Qed.

Lemma subcommandResource_limits (item : Unstructured) (k : string) :
  subcommandResource item "limits" k = last (declarations item "limits" k).
Proof.
  rewrite subcommandResource_unfold. unfold declarations, resourcesMap.
  fold_fieldAt.
  destruct (fieldAt item "containers") as [[| | | | |cs|]| |]; try done.
  cbv zeta. rewrite <- overwriteContainers_limits_last.
  rewrite !putIf_lookup.
  rewrite (bool_decide_eq_true_2 ("limits" = "limits")) by done.
  rewrite andb_true_r. case_bool_decide as Hs; [done|]. cbn.
  rewrite (bool_decide_eq_false_2 ("requests" = "limits")) by done.
  rewrite andb_false_r, lookup_empty. cbn.
  assert ((overwriteContainers cs).2 = ∅) as ->
    by (apply map_size_empty_inv; lia).
  by rewrite lookup_empty.
Qed.

End Accumulations.

(** X8.  In the [resources] subcommand the last container wins: the value
    stored for a resource key, under requests or under limits, is the one
    declared by the last container that declares the key, and there is
    none exactly when no container declares it. *)
Theorem X8_resources_subcommand_last_container_wins
    (item : Unstructured) (part k : string) :
  part ∈ ["requests"; "limits"] →
  subcommandResource item part k = last (declarations item part k).
Proof.
  rewrite !elem_of_cons, elem_of_nil. intros [->|[->|[]]].
  - apply subcommandResource_requests.
  - apply subcommandResource_limits.
Qed.

Lemma X8_witness :
  subcommandResource threeContainerPod "requests" "cpu" = Some (VString "3").
Proof.
  rewrite (X8_resources_subcommand_last_container_wins
             threeContainerPod "requests" "cpu").
  - vm_compute. reflexivity.
  - apply list_elem_of_here.
Defined.

(** X9.  The snapshot and the [resources] subcommand bind the same resource
    keys.  They bind a key to the same value when a single container
    declares it; when several do, the subcommand keeps the last value,
    while the snapshot keeps the first one if that is not a string. *)
Theorem X9_snapshot_and_subcommand_resources
    (item : Unstructured) (part k : string) :
  part ∈ ["requests"; "limits"] →
  (is_Some (snapshotResource item part k)
   ↔ is_Some (subcommandResource item part k))
  ∧ (∀ v, declarations item part k = [v] →
       snapshotResource item part k = Some v
       ∧ subcommandResource item part k = Some v)
  ∧ (∀ v rest, declarations item part k = v :: rest →
       asString v = None →
       snapshotResource item part k = Some v
       ∧ subcommandResource item part k = last (v :: rest)).
Proof.
  intros Hpart.
  assert (snapshotResource item part k
          = fold_left (λ acc v, joined acc (Some v))
              (declarations item part k) None) as Hsnap.
  { revert Hpart. rewrite !elem_of_cons, elem_of_nil. intros [->|[->|[]]].
    - apply snapshotResource_requests.
    - apply snapshotResource_limits. }
  assert (subcommandResource item part k = last (declarations item part k))
    as Hsub.
  { revert Hpart. rewrite !elem_of_cons, elem_of_nil. intros [->|[->|[]]].
    - apply subcommandResource_requests.
    - apply subcommandResource_limits. }
  rewrite Hsnap, Hsub. split_and!.
  - rewrite fold_joined_is_Some.
    destruct (declarations item part k) as [|v vs] using rev_ind.
    + cbn. split; [intros [[? [=]]|?]; done|intros [? [=]]].
    + rewrite last_snoc. split; [eauto|]. intros _. right. by destruct vs.
  - intros v ->. done.
  - intros v rest -> Hv. split; [|done].
    cbn [fold_left joined]. by apply fold_joined_stuck.
Qed.

Lemma X9_witness :
  snapshotResource threeContainerPod "requests" "memory" = Some (VString "1Gi")
  ∧ subcommandResource threeContainerPod "requests" "memory"
    = Some (VString "1Gi").
Proof.
  apply (proj1 (proj2 (X9_snapshot_and_subcommand_resources
                         threeContainerPod "requests" "memory"
                         (list_elem_of_here _ _)))).
  vm_compute. reflexivity.
Defined.

(** ** Owner references *)
Section Owners.

Variable item : Unstructured.

Lemma ownerLoop_spec (metadata : list Value) (ownerRefs : list OwnerReference) :
  ownerLoop item metadata ownerRefs
  = ownerRefs
    ++ (ownerReferenceOf item
        <$> omap (λ ref, match ref with
                         | VMap refMap => Some refMap
                         | _ => None
                         end) metadata).
Proof.
  revert ownerRefs. induction metadata as [|ref rest IH]; intros ownerRefs.
  - cbn. by rewrite app_nil_r.
  - cbn [ownerLoop omap list_omap].
    destruct ref as [| | | | | |refMap]; try apply IH.
    rewrite IH, <- app_assoc. done.
Qed.

Lemma extractOwnerReferences_spec :
  extractOwnerReferences item = ownerReferenceOf item <$> ownerEntries item.
Proof.
  unfold extractOwnerReferences, ownerEntries, NestedSlice.
  destruct (NestedFieldNoCopy _ _) as [[| | | | |metadata|]| |]; try done.
  by rewrite ownerLoop_spec.
Qed.

End Owners.

(** X10.  [extractOwnerReferences] returns one reference for every entry
    of [metadata.ownerReferences] that is a mapping, in the order of the
    list; entries of any other shape are skipped, and a missing or
    ill-typed list gives no reference.  A kind or name that is missing or
    not a string is reported as the empty string. *)
Theorem X10_owner_references_follow_the_entries (item : Unstructured) :
  length (extractOwnerReferences item) = length (ownerEntries item)
  ∧ ∀ i refMap,
      ownerEntries item !! i = Some refMap →
      ∃ ref, extractOwnerReferences item !! i = Some ref
        ∧ ownerKind ref = default "" (stringAt refMap "kind")
        ∧ ownerName ref = default "" (stringAt refMap "name").
Proof.
  rewrite extractOwnerReferences_spec. split; [apply length_fmap|].
  intros i refMap Hi. exists (ownerReferenceOf item refMap).
  rewrite list_lookup_fmap, Hi. split_and!; [done| |].
  - cbn. by destruct (stringAt refMap "kind").
  - cbn. by destruct (stringAt refMap "name").
Qed.

Lemma X10_witness :
  ∃ ref, extractOwnerReferences ownedPod !! 1 = Some ref
    ∧ ownerKind ref = "Node" ∧ ownerName ref = "n1".
Proof.
  destruct (proj2 (X10_owner_references_follow_the_entries ownedPod) 1
              {[ "kind" := VString "Node"; "name" := VString "n1";
                 "namespace" := VString "infra" ]})
    as (ref & Hi & Hk & Hn).
  - vm_compute. reflexivity.
  - exists ref. split; [exact Hi|]. split.
    + rewrite Hk. vm_compute. reflexivity.
    + rewrite Hn. vm_compute. reflexivity.
Defined.

(** X11.  The namespace of a returned owner reference is the entry's own
    [namespace] when that is a non-empty string and the namespace of the
    owned object otherwise.  So for an object that has a namespace no
    returned reference has an empty one. *)
Theorem X11_owner_namespace_falls_back_to_object (item : Unstructured) :
  (∀ i refMap,
     ownerEntries item !! i = Some refMap →
     ∃ ref, extractOwnerReferences item !! i = Some ref
       ∧ ((∃ namespace, stringAt refMap "namespace" = Some namespace
                        ∧ namespace ≠ "" ∧ ownerNamespace ref = namespace)
          ∨ ((stringAt refMap "namespace" = None
              ∨ stringAt refMap "namespace" = Some "")
             ∧ ownerNamespace ref = GetNamespace item)))
  ∧ (GetNamespace item ≠ "" →
     ∀ ref, ref ∈ extractOwnerReferences item → ownerNamespace ref ≠ "").
Proof.
  rewrite extractOwnerReferences_spec.
  assert (∀ refMap,
     (∃ namespace, stringAt refMap "namespace" = Some namespace
                   ∧ namespace ≠ ""
                   ∧ ownerNamespace (ownerReferenceOf item refMap) = namespace)
     ∨ ((stringAt refMap "namespace" = None
         ∨ stringAt refMap "namespace" = Some "")
        ∧ ownerNamespace (ownerReferenceOf item refMap) = GetNamespace item))
    as Hcases.
  { intros refMap. cbn. destruct (stringAt refMap "namespace") as [ns|]; [|auto].
    destruct (decide (ns ≠ "")) as [Hne|He]; [left; eauto|].
    apply dec_stable in He. subst. auto. }
  split.
  - intros i refMap Hi. exists (ownerReferenceOf item refMap).
    rewrite list_lookup_fmap, Hi. split; [done|]. apply Hcases.
  - intros Hns ref Hin. apply list_elem_of_fmap in Hin as (refMap & -> & _).
    destruct (Hcases refMap) as [(ns & _ & Hne & ->)|[_ ->]]; done.
Qed.

Lemma X11_witness :
  Forall (λ ref, ownerNamespace ref ≠ "") (extractOwnerReferences ownedPod).
Proof.
  apply Forall_forall.
  apply (proj2 (X11_owner_namespace_falls_back_to_object ownedPod)).
  vm_compute. discriminate.
Defined.

(** ** Retrieval *)
Section Retrieval.

Variable get : string → string + Unstructured.

Lemma getLoop_ok (resourceNames : list string) (items result : list Unstructured) :
  getLoop get resourceNames items = inr result
  ↔ ∃ fetched, result = items ++ fetched
      ∧ Forall2 (λ name item, get name = inr item) resourceNames fetched.
Proof.
  revert items. induction resourceNames as [|name rest IH]; intros items;
    cbn [getLoop].
  - split.
    + intros [= <-]. exists []. by rewrite app_nil_r.
    + intros (fetched & -> & Hf). apply Forall2_nil_inv_l in Hf as ->.
      by rewrite app_nil_r.
  - destruct (get name) as [err|item] eqn:Hg.
    + split; [done|]. intros (fetched & _ & Hf).
      apply Forall2_cons_inv_l in Hf as (y & l' & Hy & _). congruence.
    + rewrite IH. split.
      * intros (fetched & -> & Hf). exists (item :: fetched).
        split; [by rewrite <- app_assoc|]. by constructor.
      * intros (fetched & -> & Hf).
        apply Forall2_cons_inv_l in Hf as (y & l' & Hy & Hl & ->).
        assert (y = item) as -> by congruence.
        exists l'. split; [by rewrite <- app_assoc|done].
Qed.

Lemma getLoop_err (resourceNames : list string) (items : list Unstructured)
    (e : retrievalError) :
  getLoop get resourceNames items = inl e
  ↔ ∃ pre name post cause,
      resourceNames = pre ++ name :: post
      ∧ Forall (λ n, ∃ item, get n = inr item) pre
      ∧ get name = inl cause
      ∧ e = ErrGetting name cause.
Proof.
  revert items. induction resourceNames as [|name rest IH]; intros items;
    cbn [getLoop].
  - split; [done|]. intros (pre & n & post & cause & Hl & _).
    by destruct pre.
  - destruct (get name) as [err|item] eqn:Hg.
    + split.
      * intros [= <-]. exists [], name, rest, err. by split_and!.
      * intros (pre & n & post & cause & Hl & Hpre & Hn & ->).
        destruct pre as [|p pre]; cbn in Hl; injection Hl as -> ->.
        -- congruence.
        -- apply Forall_cons in Hpre as [[item Hi] _]. congruence.
    + rewrite IH. split.
      * intros (pre & n & post & cause & -> & Hpre & Hn & ->).
        exists (name :: pre), n, post, cause. split_and!; try done.
        constructor; eauto.
      * intros (pre & n & post & cause & Hl & Hpre & Hn & ->).
        destruct pre as [|p pre]; cbn in Hl; injection Hl as -> ->.
        -- congruence.
        -- apply Forall_cons in Hpre as [_ Hpre].
           exists pre, n, post, cause. by split_and!.
Qed.

End Retrieval.

(** X12.  With resource names given, [getResources] succeeds exactly when
    every name can be fetched, and then returns the fetched objects, one
    per name and in the order of the names; the label selector plays no
    part. *)
Theorem X12_named_retrieval_returns_objects_in_order
    (client : dynamicInterface) (gvr : schema.GroupVersionResource)
    (namespaced : bool) (namespace : string) (resourceNames : list string)
    (labelSelector : option string) (items : list Unstructured) :
  resourceNames ≠ [] →
  getResources client gvr namespaced namespace resourceNames labelSelector
  = inr items
  ↔ Forall2 (λ name item,
               Get client gvr (resourceScope namespaced namespace) name
               = inr item)
      resourceNames items.
Proof.
  intros Hne. unfold getResources. cbv zeta.
  destruct (decide _) as [_|Hn].
  - rewrite getLoop_ok. split.
    + by intros (fetched & -> & Hf).
    + intros Hf. by exists items.
  - destruct resourceNames; [done|]. cbn in Hn. lia.
Qed.

(** X13.  With resource names given, [getResources] fails exactly when
    some name cannot be fetched; the error then names the first such name
    with its cause, whatever names follow it. *)
Theorem X13_named_retrieval_fails_on_first_error
    (client : dynamicInterface) (gvr : schema.GroupVersionResource)
    (namespaced : bool) (namespace : string) (resourceNames : list string)
    (labelSelector : option string) (e : retrievalError) :
  resourceNames ≠ [] →
  getResources client gvr namespaced namespace resourceNames labelSelector
  = inl e
  ↔ ∃ pre name post cause,
      resourceNames = pre ++ name :: post
      ∧ Forall (λ n, ∃ item,
                  Get client gvr (resourceScope namespaced namespace) n
                  = inr item) pre
      ∧ Get client gvr (resourceScope namespaced namespace) name = inl cause
      ∧ e = ErrGetting name cause.
Proof.
  intros Hne. unfold getResources. cbv zeta.
  destruct (decide _) as [_|Hn].
  - apply getLoop_err.
  - destruct resourceNames; [done|]. cbn in Hn. lia.
Qed.

Lemma X12_witness :
  getResources exampleClient podsGVR true "prod" ["web-0"; "bare"]
    (Some "app=x")
  = inr [ownedPod; barePod].
Proof.
  apply X12_named_retrieval_returns_objects_in_order; [discriminate|].
  repeat constructor.
Defined.

Lemma X13_witness :
  getResources exampleClient podsGVR true "prod" ["web-0"; "gone"; "bare"]
    None
  = inl (ErrGetting "gone" "not found").
Proof.
  apply X13_named_retrieval_fails_on_first_error; [discriminate|].
  exists ["web-0"], "gone", ["bare"], "not found".
  split_and!; try reflexivity. repeat constructor. by exists ownedPod.
Defined.

(** ** Namespace of a query *)

(** X14.  [getCurrentNamespace] is the namespace the current context of
    the kubeconfig names, when it names one, and "default" in every other
    case: no file to read, a file that does not load, no current context,
    a context without entry or with a nil entry, an entry without
    namespace.  It is never empty.  So, with [allNamespaces] and
    [namespace] the values of the flags [-A] and [-n], a namespaced
    resource is read across all namespaces exactly when [allNamespaces] is
    set (which then overrides [namespace]), otherwise in exactly one
    namespace: the given one, else the current one.  A cluster-scoped
    resource is never narrowed to a namespace. *)
Theorem X14_namespace_scope_of_a_query
    (os : system) (allNamespaces namespaced : bool) (namespace : string) :
  (∀ current, currentContextNames os current →
              getCurrentNamespace os = current)
  ∧ ((¬ ∃ current, currentContextNames os current) →
     getCurrentNamespace os = "default")
  ∧ getCurrentNamespace os ≠ ""
  ∧ (resourceScope namespaced
       (chosenNamespace os allNamespaces namespace namespaced) = None
     ↔ namespaced = false ∨ allNamespaces = true)
  ∧ (namespaced = true → allNamespaces = false →
     resourceScope namespaced
       (chosenNamespace os allNamespaces namespace namespaced)
     = Some (if decide (namespace = "") then getCurrentNamespace os
             else namespace)).
Proof.
  assert (getCurrentNamespace os ≠ "") as Hne.
  { unfold getCurrentNamespace.
    repeat (match goal with
            | |- context [decide ?P] => destruct (decide P)
            | |- context [match ?x with Some _ => _ | None => _ end] =>
                destruct x
            end; try done). }
  assert ((∃ current, currentContextNames os current
                      ∧ getCurrentNamespace os = current)
          ∨ ((¬ ∃ current, currentContextNames os current)
             ∧ getCurrentNamespace os = "default")) as Hcases.
  { unfold getCurrentNamespace.
    destruct (decide (KUBECONFIG os = "")) as [Hk|Hk].
    - destruct (UserHomeDir os) as [home|] eqn:Hh.
      + destruct (LoadFromFile os (Join os [home; ".kube"; "config"]))
          as [config|] eqn:Hl.
        * destruct (decide (CurrentContext config = "")) as [Hc|Hc].
          { right. split; [|done].
            intros (current & path & config' & context & [[? _]|(_ & home' & Hh' & ->)]
                    & Hl' & Hc' & _); [done|].
            rewrite Hh in Hh'. injection Hh' as <-. congruence. }
          destruct (Contexts config !! CurrentContext config)
            as [[context|]|] eqn:Hx.
          -- destruct (decide (contextNamespace context ≠ "")) as [Hn|Hn].
             ++ left. exists (contextNamespace context). split; [|done].
                exists (Join os [home; ".kube"; "config"]), config, context.
                split_and!; try done. right. split; [done|]. by exists home.
             ++ right. split; [|done].
                intros (current & path & config' & context'
                        & [[? _]|(_ & home' & Hh' & ->)]
                        & Hl' & _ & Hx' & Hn' & Hne'); [done|].
                rewrite Hh in Hh'. injection Hh' as <-.
                rewrite Hl in Hl'. injection Hl' as <-.
                rewrite Hx in Hx'. injection Hx' as <-.
                apply Hn. by rewrite Hn'.
          -- right. split; [|done].
             intros (current & path & config' & context'
                     & [[? _]|(_ & home' & Hh' & ->)]
                     & Hl' & _ & Hx' & _); [done|].
             rewrite Hh in Hh'. injection Hh' as <-.
             rewrite Hl in Hl'. injection Hl' as <-. congruence.
          -- right. split; [|done].
             intros (current & path & config' & context'
                     & [[? _]|(_ & home' & Hh' & ->)]
                     & Hl' & _ & Hx' & _); [done|].
             rewrite Hh in Hh'. injection Hh' as <-.
             rewrite Hl in Hl'. injection Hl' as <-. congruence.
        * right. split; [|done].
          intros (current & path & config' & context'
                  & [[? _]|(_ & home' & Hh' & ->)] & Hl' & _); [done|].
          rewrite Hh in Hh'. injection Hh' as <-. congruence.
      + right. split; [|done].
        intros (current & path & config' & context'
                & [[? _]|(_ & home' & Hh' & _)] & _); [done|congruence].
    - destruct (LoadFromFile os (KUBECONFIG os)) as [config|] eqn:Hl.
      + destruct (decide (CurrentContext config = "")) as [Hc|Hc].
        { right. split; [|done].
          intros (current & path & config' & context' & [[_ ->]|[? _]]
                  & Hl' & Hc' & _); [|done]. congruence. }
        destruct (Contexts config !! CurrentContext config)
          as [[context|]|] eqn:Hx.
        * destruct (decide (contextNamespace context ≠ "")) as [Hn|Hn].
          -- left. exists (contextNamespace context). split; [|done].
             exists (KUBECONFIG os), config, context.
             split_and!; try done. by left.
          -- right. split; [|done].
             intros (current & path & config' & context' & [[_ ->]|[? _]]
                     & Hl' & _ & Hx' & Hn' & Hne'); [|done].
             rewrite Hl in Hl'. injection Hl' as <-.
             rewrite Hx in Hx'. injection Hx' as <-.
             apply Hn. by rewrite Hn'.
        * right. split; [|done].
          intros (current & path & config' & context' & [[_ ->]|[? _]]
                  & Hl' & _ & Hx' & _); [|done].
          rewrite Hl in Hl'. injection Hl' as <-. congruence.
        * right. split; [|done].
          intros (current & path & config' & context' & [[_ ->]|[? _]]
                  & Hl' & _ & Hx' & _); [|done].
          rewrite Hl in Hl'. injection Hl' as <-. congruence.
      + right. split; [|done].
        intros (current & path & config' & context' & [[_ ->]|[? _]]
                & Hl' & _); [|done]. congruence. }
  split_and!; [| |done| |].
  - intros current Hcur.
    destruct Hcases as [(current' & Hcur' & Hr)|[Hno _]].
    + rewrite Hr.
      destruct Hcur as (path & config & context & Hp & Hl & _ & Hx & <- & _).
      destruct Hcur' as (path' & config' & context' & Hp' & Hl' & _ & Hx'
                         & <- & _).
      assert (path' = path) as ->.
      { destruct Hp as [[Hk ->]|(Hk & home & Hh & ->)],
                 Hp' as [[Hk' ->]|(Hk' & home' & Hh' & ->)]; try done.
        congruence. }
      rewrite Hl in Hl'. injection Hl' as <-.
      rewrite Hx in Hx'. by injection Hx' as <-.
    + exfalso. apply Hno. by exists current.
  - intros Hno. destruct Hcases as [(current & Hcur & _)|[_ Hr]]; [|done].
    exfalso. apply Hno. by exists current.
  - unfold resourceScope, chosenNamespace.
    destruct namespaced, allNamespaces; cbn [andb].
    + rewrite decide_True by done. naive_solver.
    + rewrite andb_true_r. case_bool_decide as Hn.
      * rewrite decide_False by done. naive_solver.
      * rewrite decide_False by done. naive_solver.
    + naive_solver.
    + naive_solver.
  - intros -> ->. unfold resourceScope, chosenNamespace.
    rewrite andb_true_r. case_bool_decide as Hn.
    + rewrite decide_False by done. by rewrite decide_True.
    + by rewrite !decide_False.
Qed.

Lemma X14_witness :
  getCurrentNamespace exampleSystem = "team-a"
  ∧ resourceScope true (chosenNamespace exampleSystem false "" true)
    = Some "team-a".
Proof.
  destruct (X14_namespace_scope_of_a_query exampleSystem false true "")
    as (Hcurrent & _ & _ & _ & Hscope).
  split.
  - apply Hcurrent.
    exists "/etc/kube/config",
           {| CurrentContext := "dev";
              Contexts := {[ "dev" := Some {| contextNamespace := "team-a" |} ]} |},
           {| contextNamespace := "team-a" |}.
    split_and!; try done. by left.
  - by apply Hscope.
Defined.

(** ** Routing of the command line *)
Section Routing.

Lemma subcommandLoop_spec (cmd : string) (valid : list string) :
  subcommandLoop cmd valid = true ↔ cmd ∈ valid.
Proof.
  induction valid as [|v rest IH]; cbn [subcommandLoop].
  - split; [done|]. by intros ?%elem_of_nil.
  - destruct (decide (cmd = v)) as [->|Hne].
    + split; [|done]. intros _. apply list_elem_of_here.
    + rewrite IH, elem_of_cons. naive_solver.
Qed.

Lemma containsHelpFlag_spec (args : list string) :
  containsHelpFlag args = true ↔ ∃ arg, arg ∈ args ∧ isHelpFlag arg = true.
Proof.
  induction args as [|arg rest IH]; cbn [containsHelpFlag].
  - split; [done|]. intros (arg & Hin & _). by apply elem_of_nil in Hin.
  - destruct (isHelpFlag arg) eqn:Ha.
    + split; [|done]. intros _. exists arg. split; [apply list_elem_of_here|done].
    + rewrite IH. split.
      * intros (a & Hin & Hh). exists a. split; [by apply list_elem_of_further|done].
      * intros (a & Hin & Hh). apply elem_of_cons in Hin as [->|Hin];
          [congruence|eauto].
Qed.

Lemma subcommand_not_help (cmd : string) :
  isSchedulingSubcommand cmd = true → isHelpFlag cmd = false.
Proof.
  intros Hs. apply subcommandLoop_spec in Hs. unfold validSubcommands in Hs.
  rewrite !elem_of_cons, elem_of_nil in Hs.
  destruct Hs as [->|[->|[->|[->|[->|[->|[->|[]]]]]]]]; reflexivity.
Qed.

End Routing.

(** X15.  The subcommands that [main] accepts are exactly those that
    [extractSchedulingSubcommand] handles: a word passes
    [isSchedulingSubcommand] if and only if there is a document on which
    the extractor, called with that word, stores something. *)
Theorem X15_accepted_subcommands_are_the_handled_ones (cmd : string) :
  isSchedulingSubcommand cmd = true
  ↔ ∃ item, extractSchedulingSubcommand item (newOutputItem "" "") cmd
            ≠ newOutputItem "" "".
Proof.
  split.
  - intros Hs. apply subcommandLoop_spec in Hs. unfold validSubcommands in Hs.
    rewrite !elem_of_cons, elem_of_nil in Hs. exists fullPod.
    destruct Hs as [->|[->|[->|[->|[->|[->|[->|[]]]]]]]];
      intros H; vm_compute in H; discriminate H.
  - intros (item & Hch). apply subcommandLoop_spec. unfold validSubcommands.
    rewrite !elem_of_cons, elem_of_nil.
    destruct (decide (cmd = "tolerations")); [auto|].
    destruct (decide (cmd = "affinity")); [auto|].
    destruct (decide (cmd = "nodeselector")); [auto|].
    destruct (decide (cmd = "resources")); [auto 10|].
    destruct (decide (cmd = "topology")); [auto 10|].
    destruct (decide (cmd = "priority")); [auto 10|].
    destruct (decide (cmd = "runtime")); [auto 10|].
    exfalso. apply Hch, subcommand_collapse. unfold groupPresent. naive_solver.
Qed.

(** X16.  When [main] goes on to query the cluster, the command is one of
    labels, annotations, owner and scheduling, the subcommand is empty or an
    accepted one (only under scheduling), the resource type is the word
    right after them, and no argument at all is a help flag.  Conversely a
    help flag anywhere after one of these four commands ends in the usage
    text of that command. *)
Theorem X16_routing_of_the_command_line :
  (∀ (osArgs : list string) (cmdType subCommand resourceType : string)
     (argsOffset : nat),
     parseCommand osArgs = Proceed cmdType subCommand resourceType argsOffset →
     cmdType ∈ ["labels"; "annotations"; "owner"; "scheduling"]
     ∧ ((subCommand = "" ∧ argsOffset = 3
         ∧ ∃ prog, osArgs = prog :: cmdType :: resourceType
                            :: drop argsOffset osArgs)
        ∨ (cmdType = "scheduling" ∧ isSchedulingSubcommand subCommand = true
           ∧ argsOffset = 4
           ∧ ∃ prog, osArgs = prog :: cmdType :: subCommand :: resourceType
                              :: drop argsOffset osArgs))
     ∧ containsHelpFlag (drop 1 osArgs) = false)
  ∧ (∀ (prog cmdType : string) (rest : list string),
       cmdType ∈ ["labels"; "annotations"; "owner"; "scheduling"] →
       containsHelpFlag rest = true →
       (cmdType = "scheduling"
        ∧ ∃ subCommand,
            parseCommand (prog :: cmdType :: rest)
            = PrintSchedulingUsage subCommand)
       ∨ (cmdType ≠ "scheduling"
          ∧ parseCommand (prog :: cmdType :: rest)
            = PrintCommandUsage cmdType)).
Proof.
  split.
  - intros osArgs cmdType subCommand resourceType argsOffset.
    destruct osArgs as [|prog [|cmd rest]]; [done|done|].
    unfold parseCommand. cbn [length Nat.ltb Nat.leb orb].
    change ((prog :: cmd :: rest) !!! 1) with cmd.
    destruct (isHelpFlag cmd) eqn:Hcmd; [done|]. cbv zeta.
    destruct (decide (cmd = "completion")); [done|].
    destruct (decide (cmd = "scheduling")) as [->|Hns].
    + destruct rest as [|a rest]; [done|].
      cbn [length Nat.ltb Nat.leb orb].
      change ((prog :: "scheduling" :: a :: rest) !!! 2) with a.
      destruct (isHelpFlag a) eqn:Ha; [done|].
      destruct (isSchedulingSubcommand a) eqn:Hsub.
      * destruct rest as [|b rest]; [done|].
        cbn [length Nat.ltb Nat.leb orb].
        change ((prog :: "scheduling" :: a :: b :: rest) !!! 3) with b.
        destruct (isHelpFlag b) eqn:Hb; [done|]. cbn [drop skipn]; rewrite ?drop_0.
        destruct (containsHelpFlag rest) eqn:Hrest; [done|].
        intros [= <- <- <- <-]. split_and!.
        -- do 3 apply list_elem_of_further. apply list_elem_of_here.
        -- right. split_and!; try done. by exists prog.
        -- cbn [drop skipn containsHelpFlag]. by rewrite Ha, Hb.
      * cbn [drop skipn]; rewrite ?drop_0. destruct (containsHelpFlag rest) eqn:Hrest; [done|].
        intros [= <- <- <- <-]. split_and!.
        -- do 3 apply list_elem_of_further. apply list_elem_of_here.
        -- left. split_and!; try done. by exists prog.
        -- cbn [drop skipn containsHelpFlag]. by rewrite Ha.
    + destruct (bool_decide (cmd ≠ "labels") && bool_decide (cmd ≠ "annotations")
                && bool_decide (cmd ≠ "owner")) eqn:Hk; [done|].
      destruct rest as [|a rest]; [done|].
      cbn [length Nat.ltb Nat.leb orb].
      change ((prog :: cmd :: a :: rest) !!! 2) with a.
      destruct (isHelpFlag a) eqn:Ha; [done|]. cbn [drop skipn]; rewrite ?drop_0.
      destruct (containsHelpFlag rest) eqn:Hrest; [done|].
      intros [= <- <- <- <-]. split_and!.
      * rewrite !andb_false_iff, !bool_decide_eq_false in Hk.
        rewrite !elem_of_cons.
        destruct Hk as [[Hk|Hk]|Hk]; apply dec_stable in Hk; auto.
      * left. split_and!; try done. by exists prog.
      * cbn [drop skipn containsHelpFlag]. by rewrite Hcmd, Ha.
  - intros prog cmdType rest Hcmd Hhelp.
    assert (isHelpFlag cmdType = false ∧ cmdType ≠ "completion") as [Hnh Hnc].
    { rewrite !elem_of_cons, elem_of_nil in Hcmd.
      destruct Hcmd as [->|[->|[->|[->|[]]]]]; done. }
    unfold parseCommand. cbn [length Nat.ltb Nat.leb orb].
    change ((prog :: cmdType :: rest) !!! 1) with cmdType.
    rewrite Hnh. cbv zeta. rewrite (decide_False (P := cmdType = "completion"))
      by done.
    destruct rest as [|a rest]; [done|].
    cbn [length Nat.ltb Nat.leb orb].
    change ((prog :: cmdType :: a :: rest) !!! 2) with a.
    cbn [containsHelpFlag] in Hhelp.
    destruct (decide (cmdType = "scheduling")) as [->|Hns].
    + left. split; [done|].
      destruct (isHelpFlag a) eqn:Ha; [by eexists|].
      destruct (isSchedulingSubcommand a) eqn:Hsub.
      * destruct rest as [|b rest]; [done|].
        cbn [length Nat.ltb Nat.leb orb].
        change ((prog :: "scheduling" :: a :: b :: rest) !!! 3) with b.
        cbn [containsHelpFlag drop skipn] in *; rewrite ?drop_0 in *.
        destruct (isHelpFlag b); [by eexists|]. rewrite Hhelp. by eexists.
      * cbn [drop skipn]; rewrite ?drop_0. rewrite Hhelp. by eexists.
    + right. split; [done|].
      rewrite !elem_of_cons, elem_of_nil in Hcmd.
      assert (bool_decide (cmdType ≠ "labels")
              && bool_decide (cmdType ≠ "annotations")
              && bool_decide (cmdType ≠ "owner") = false) as ->.
      { destruct Hcmd as [->|[->|[->|[->|[]]]]]; done. }
      destruct (isHelpFlag a); [done|]. cbn [drop skipn]; rewrite ?drop_0. by rewrite Hhelp.
Qed.

Lemma X16_witness :
  parseCommand ["kubectl-getinfo"; "scheduling"; "affinity"; "pods"; "-o";
                "--help"]
  = PrintSchedulingUsage "affinity".
Proof.
  destruct (proj2 X16_routing_of_the_command_line "kubectl-getinfo"
              "scheduling" ["affinity"; "pods"; "-o"; "--help"])
    as [[_ [subCommand Hs]]|[Hn _]].
  - do 3 apply list_elem_of_further. apply list_elem_of_here.
  - reflexivity.
  - reflexivity.
  - by destruct Hn.
Defined.

(** X17.  Everything after the word completion goes to
    [handleCompletion], which prints its usage only for no argument or for
    -h or --help in first place, and reports any first word other than
    these and bash, zsh and fish as an unsupported shell: so -help, which
    the other commands take as a help flag, is an unsupported shell here. *)
Theorem X17_completion_arguments :
  (∀ (prog : string) (args : list string),
     parseCommand (prog :: "completion" :: args) = HandleCompletion args)
  ∧ (∀ args : list string,
       handleCompletion args = CompletionUsage
       ↔ args = [] ∨ ∃ rest, args = "-h" :: rest ∨ args = "--help" :: rest)
  ∧ (∀ (args : list string) (shell : string),
       handleCompletion args = UnsupportedShell shell
       ↔ (∃ rest, args = shell :: rest)
         ∧ shell ∉ ["-h"; "--help"; "bash"; "zsh"; "fish"])
  ∧ (∀ arg rest,
       isHelpFlag arg = true →
       handleCompletion (arg :: rest) = CompletionUsage
       ∨ (arg = "-help"
          ∧ handleCompletion (arg :: rest) = UnsupportedShell "-help")).
Proof.
  assert (∀ (shell : string) (rest : list string),
            (shell :: rest) !!! 0 = shell) as Hhead by done.
  split_and!.
  - intros prog args. done.
  - intros [|a rest]; [by split; [left|]|].
    unfold handleCompletion. rewrite !Hhead. cbn [length].
    rewrite (bool_decide_eq_false_2 (S (length rest) = 0)) by done.
    cbn [orb]. repeat case_bool_decide; subst; cbn [orb].
    + split; [|done]. intros _. right. exists rest. by left.
    + split; [|done]. intros _. right. exists rest. by left.
    + split; [|done]. intros _. right. exists rest. by right.
    + repeat (destruct (decide (_ = _)); try done);
        (split; [done|]; intros [?|[? [[= ? ?]|[= ? ?]]]]; done).
  - intros [|a rest] shell.
    { split; [done|]. by intros [[? ?] _]. }
    unfold handleCompletion. rewrite !Hhead. cbn [length].
    rewrite (bool_decide_eq_false_2 (S (length rest) = 0)) by done.
    cbn [orb]. rewrite !not_elem_of_cons.
    repeat case_bool_decide; subst; cbn [orb];
      try (split; [done|]; intros [[? [= <- _]] ?]; naive_solver).
    repeat (destruct (decide (_ = _)); subst;
            try (split; [done|]; intros [[? [= <- _]] ?]; naive_solver)).
    split.
    + intros [= <-]. split; [by eexists|]. split_and!; try done.
      apply not_elem_of_nil.
    + by intros [[? [= <- _]] ?].
  - intros arg rest Hh. unfold isHelpFlag in Hh.
    rewrite !orb_true_iff, !bool_decide_eq_true in Hh.
    destruct Hh as [[->| ->]| ->]; [by left|by left|by right].
Qed.

Lemma X4_witness :
  extractSchedulingSubcommand barePod (newOutputItem "p" "") "affinity"
  = newOutputItem "p" "".
Proof.
  pose proof (X4_single_fields_agree_with_snapshot barePod "p" "") as H.
  cbv zeta in H.
  assert (extractSchedulingInfo barePod = None) as E by (vm_compute; reflexivity).
  rewrite E in H. apply H. apply list_elem_of_further, list_elem_of_here.
Defined.

Lemma X17_witness :
  handleCompletion ["-help"] = CompletionUsage
  ∨ ("-help" = "-help" ∧ handleCompletion ["-help"] = UnsupportedShell "-help").
Proof.
  apply (proj2 (proj2 (proj2 X17_completion_arguments)) "-help" []).
  reflexivity.
Defined.

(** ** Rewriting of the arguments *)
Section Preprocess.

Lemma prefix_two (f1 f2 a b : ascii) (rest : string) :
  String.prefix (String f1 (String f2 "")) (String a (String b rest)) = true
  ↔ f1 = a ∧ f2 = b.
Proof.
  cbn. destruct (ascii_dec f1 a) as [->|H1].
  - destruct (ascii_dec f2 b) as [->|H2].
    + by destruct rest.
    + split; [done|]. by intros [_ ?].
  - split; [done|]. by intros [? _].
Qed.

Lemma length_two (s : string) :
  String.length s = 2 → ∃ f1 f2, s = String f1 (String f2 "").
Proof. destruct s as [|f1 [|f2 [|? ?]]]; try done. eauto. Qed.

(** The loop over the string flags finds the flag that is the first two
    bytes of the argument, if the argument goes on with a byte other than
    the equals sign. *)
Lemma stringFlagLoop_spec (order : list string) (arg : string) :
  Forall (λ flag, String.length flag = 2) order →
  stringFlagLoop order arg
  = match arg with
    | String a (String b (String c rest)) =>
        if bool_decide (String a (String b "") ∈ order)
           && negb (Ascii.eqb c "=")
        then Some [String a (String b ""); String c rest]
        else None
    | _ => None
    end.
Proof.
  induction order as [|flag order IH]; intros Hlen.
  - cbn. destruct arg as [|a [|b [|c rest]]]; done.
  - apply Forall_cons in Hlen as [Hflag Hlen]. specialize (IH Hlen).
    destruct (length_two flag Hflag) as (f1 & f2 & ->).
    cbn [stringFlagLoop]. unfold gobytes.HasPrefix.
    destruct arg as [|a [|b [|c rest]]].
    + cbn. by rewrite IH.
    + cbn. destruct (ascii_dec f1 a); by rewrite IH.
    + replace (String.length (String f1 (String f2 ""))
               <? String.length (String a (String b "")))%nat
        with false by done.
      by rewrite andb_false_r, IH.
    + replace (String.length (String f1 (String f2 ""))
               <? String.length (String a (String b (String c rest))))%nat
        with true by done.
      rewrite andb_true_r, IH.
      change (String.get (String.length (String f1 (String f2 "")))
                (String a (String b (String c rest)))) with (Some c).
      change (gobytes.from (String.length (String f1 (String f2 "")))
                (String a (String b (String c rest)))) with (String c rest).
      destruct (String.prefix _ _) eqn:Hp.
      * apply prefix_two in Hp as [-> ->].
        rewrite (bool_decide_eq_true_2 (_ ∈ _ :: _)) by apply list_elem_of_here.
        destruct (Ascii.eqb c "="); [|done]. by rewrite andb_false_r.
      * assert (String f1 (String f2 "") ≠ String a (String b "")) as Hne.
        { intros Heq. injection Heq as ? ?. subst.
          pose proof (proj2 (prefix_two a b a b (String c rest))
                        (conj eq_refl eq_refl)) as Hp'.
          congruence. }
        rewrite (bool_decide_ext
                   (String a (String b "") ∈ String f1 (String f2 "") :: order)
                   (String a (String b "") ∈ order)); [done|].
        rewrite elem_of_cons. split; [|auto]. by intros [?|?].
Qed.

Lemma stringFlagLoop_order (order : list string) (arg : string) :
  order ≡ₚ stringFlags →
  stringFlagLoop order arg = stringFlagLoop stringFlags arg.
Proof.
  intros Hp.
  assert (Forall (λ flag, String.length flag = 2) stringFlags) as Hlen
    by (repeat constructor).
  rewrite !stringFlagLoop_spec; [|done|by rewrite Hp].
  destruct arg as [|a [|b [|c rest]]]; try done.
  rewrite (bool_decide_ext (String a (String b "") ∈ order)
             (String a (String b "") ∈ stringFlags)); [done|].
  by rewrite Hp.
Qed.

Lemma splitLoop_spec (bytes : string) (result : list string) :
  splitLoop bytes result
  = result ++ ((λ c, "-" +:+ String c "") <$> String.list_ascii_of_string bytes).
Proof.
  revert result. induction bytes as [|c rest IH]; intros result; cbn.
  - by rewrite app_nil_r.
  - rewrite IH, <- app_assoc. done.
Qed.

Lemma preprocessArg_app (order result : list string) (arg : string) :
  preprocessArg order result arg = result ++ preprocessArg order [] arg.
Proof.
  unfold preprocessArg. destruct (negb _); [done|].
  destruct (gobytes.HasPrefix arg "--"); [done|].
  destruct (stringFlagLoop order arg); [done|].
  destruct (_ && _); [|done]. by rewrite !splitLoop_spec.
Qed.

Lemma preprocessArgs_flat (order args : list string) :
  preprocessArgs order args = args ≫= preprocessArg order [].
Proof.
  unfold preprocessArgs.
  assert (∀ acc, fold_left (preprocessArg order) args acc
                 = acc ++ (args ≫= preprocessArg order [])) as H.
  { induction args as [|arg args IH]; intros acc; cbn [fold_left].
    - by rewrite app_nil_r.
    - rewrite IH, preprocessArg_app, bind_cons, <- app_assoc. done. }
  by rewrite H.
Qed.

Lemma preprocessArg_order (order : list string) (arg : string) :
  order ≡ₚ stringFlags →
  preprocessArg order [] arg = preprocessArg stringFlags [] arg.
Proof. intros Hp. unfold preprocessArg. by rewrite (stringFlagLoop_order order). Qed.

Lemma preprocessArg_nonempty (order : list string) (arg : string) :
  (1 ≤ length (preprocessArg order [] arg))%nat.
Proof.
  unfold preprocessArg. destruct (negb _); [done|].
  destruct (gobytes.HasPrefix arg "--"); [done|].
  destruct (stringFlagLoop order arg) as [words|] eqn:Hw.
  - revert Hw. clear. revert words.
    induction order as [|flag order IH]; intros words; cbn [stringFlagLoop];
      [done|].
    destruct (_ && _); [|apply IH].
    destruct (String.get _ _); [|apply IH].
    destruct (Ascii.eqb _ _); [apply IH|]. intros [= <-]. cbn. lia.
  - destruct (_ && _) eqn:Hc; [|done].
    destruct arg as [|a [|b rest]]; try done.
    cbn [gobytes.from]. rewrite splitLoop_spec. cbn. lia.
Qed.

Lemma allBoolLoop_spec (bytes : string) :
  allBoolLoop bytes = true
  ↔ Forall (λ c, c = "A"%char ∨ c = "c"%char)
      (String.list_ascii_of_string bytes).
Proof.
  induction bytes as [|c rest IH]; cbn [allBoolLoop String.list_ascii_of_string].
  - split; [constructor|done].
  - rewrite Forall_cons, <- IH. unfold boolFlags.
    change ("-" +:+ String c "") with (String "-" (String c "")).
    destruct (bool_decide (String "-" (String c "") = "-A")) eqn:HA.
    { apply bool_decide_eq_true in HA. injection HA as ->. cbn [orb].
      split; [auto|by intros [_ ?]]. }
    destruct (bool_decide (String "-" (String c "") = "-c")) eqn:Hc.
    { apply bool_decide_eq_true in Hc. injection Hc as ->. cbn [orb].
      split; [auto|by intros [_ ?]]. }
    apply bool_decide_eq_false in HA, Hc. cbn [orb]. split; [done|].
    intros [[->| ->] _]; done.
Qed.

End Preprocess.

(** X18.  [preprocessArgs] gives the same words whatever order the range
    over the map of string flags takes.  It rewrites every argument on its
    own, so it distributes over concatenation of argument lists, and it
    never drops an argument: the result is at least as long as the input. *)
Theorem X18_preprocessArgs_rewrites_each_argument_alone
    (order args args' : list string) :
  order ≡ₚ stringFlags →
  preprocessArgs order args = preprocessArgs stringFlags args
  ∧ preprocessArgs order (args ++ args')
    = preprocessArgs order args ++ preprocessArgs order args'
  ∧ (length args ≤ length (preprocessArgs order args))%nat.
Proof.
  intros Hp. rewrite !preprocessArgs_flat. split_and!.
  - induction args as [|arg args IH]; [done|].
    by rewrite !bind_cons, IH, (preprocessArg_order order).
  - apply bind_app.
  - induction args as [|arg args IH]; [done|].
    rewrite bind_cons, length_app. cbn [length].
    pose proof (preprocessArg_nonempty order arg). lia.
Qed.

Lemma X18_witness :
  preprocessArgs ["-l"; "-o"; "-n"] ["pod1"; "-oyaml"; "-Ac"]
  = preprocessArgs stringFlags ["pod1"; "-oyaml"; "-Ac"].
Proof.
  apply (X18_preprocessArgs_rewrites_each_argument_alone
           ["-l"; "-o"; "-n"] ["pod1"; "-oyaml"; "-Ac"] []).
  apply (Permutation_cons_app ["-o"; "-n"] [] "-l"). reflexivity.
Defined.

(** X19.  A string flag [-o], [-n] or [-l] directly followed by anything
    that does not start with the equals sign is split in two words, the
    flag and the rest.  This also hits single-dash long spellings:
    -namespace becomes -n amespace. *)
Theorem X19_attached_value_is_split
    (order : list string) (flag : string) (c : ascii) (value : string) :
  order ≡ₚ stringFlags →
  flag ∈ stringFlags →
  c ≠ "="%char →
  preprocessArgs order [flag +:+ String c value] = [flag; String c value].
Proof.
  intros Hp Hflag Hc.
  change (preprocessArgs order [?a]) with (preprocessArg order [] a).
  rewrite (preprocessArg_order order) by done.
  assert (Ascii.eqb c "=" = false) as Heq by (by apply Ascii.eqb_neq).
  unfold stringFlags in Hflag. rewrite !elem_of_cons, elem_of_nil in Hflag.
  unfold preprocessArg.
  rewrite stringFlagLoop_spec by (repeat constructor).
  destruct Hflag as [->|[->|[->|[]]]].
  - change ("-o" +:+ String c value)
      with (String "-" (String "o" (String c value))).
    cbn. by rewrite Heq.
  - change ("-n" +:+ String c value)
      with (String "-" (String "n" (String c value))).
    cbn. by rewrite Heq.
  - change ("-l" +:+ String c value)
      with (String "-" (String "l" (String c value))).
    cbn. by rewrite Heq.
Qed.

Lemma X19_witness : preprocessArgs stringFlags ["-namespace"] = ["-n"; "amespace"].
Proof.
  apply (X19_attached_value_is_split stringFlags "-n" "a" "mespace").
  - reflexivity.
  - apply list_elem_of_further, list_elem_of_here.
  - discriminate.
Defined.

(** X20.  A dash followed by two or more bytes, all of them A or c, is
    split into one boolean flag per byte, in order. *)
Theorem X20_combined_boolean_flags_are_split
    (order : list string) (bytes : string) :
  order ≡ₚ stringFlags →
  (2 ≤ String.length bytes)%nat →
  Forall (λ c, c = "A"%char ∨ c = "c"%char)
    (String.list_ascii_of_string bytes) →
  preprocessArgs order ["-" +:+ bytes]
  = (λ c, "-" +:+ String c "") <$> String.list_ascii_of_string bytes.
Proof.
  intros Hp Hlen Hall.
  change (preprocessArgs order [?a]) with (preprocessArg order [] a).
  rewrite (preprocessArg_order order) by done.
  destruct bytes as [|b [|c rest]]; cbn in Hlen; try lia.
  pose proof Hall as Hall'. apply allBoolLoop_spec in Hall'.
  apply Forall_cons in Hall as [Hb _].
  change ("-" +:+ String b (String c rest))
    with (String "-" (String b (String c rest))).
  unfold preprocessArg.
  rewrite stringFlagLoop_spec by (repeat constructor).
  change (gobytes.from 1 (String "-" (String b (String c rest))))
    with (String b (String c rest)).
  rewrite Hall', splitLoop_spec.
  destruct Hb as [-> | ->]; reflexivity.
Qed.

Lemma X20_witness : preprocessArgs stringFlags ["-cA"] = ["-c"; "-A"].
Proof.
  apply (X20_combined_boolean_flags_are_split stringFlags "cA").
  - reflexivity.
  - cbn. lia.
  - constructor; [by right|]. constructor; [by left|]. constructor.
Defined.

(** X21.  Every other argument is passed on unchanged: a word that does
    not start with a dash, a word of at most two bytes, a string flag
    followed by the equals sign, a dash followed by a byte other than o, n,
    l, A and c (long flags among them), and a dash followed by A or c and
    then by some byte that is neither. *)
Theorem X21_other_arguments_are_unchanged (order : list string) (arg : string) :
  order ≡ₚ stringFlags →
  gobytes.HasPrefix arg "-" = false
  ∨ (String.length arg ≤ 2)%nat
  ∨ (∃ flag value, flag ∈ stringFlags ∧ arg = flag +:+ String "=" value)
  ∨ (∃ b rest, arg = String "-" (String b rest)
               ∧ b ∉ ["o"; "n"; "l"; "A"; "c"]%char)
  ∨ (∃ b rest, arg = String "-" (String b rest)
               ∧ b ∈ ["A"; "c"]%char
               ∧ ¬ Forall (λ c, c = "A"%char ∨ c = "c"%char)
                     (String.list_ascii_of_string rest)) →
  preprocessArgs order [arg] = [arg].
Proof.
  intros Hp Hcases.
  change (preprocessArgs order [?a]) with (preprocessArg order [] a).
  rewrite (preprocessArg_order order) by done.
  unfold preprocessArg.
  rewrite stringFlagLoop_spec by (repeat constructor).
  destruct Hcases as [Hno|[Hlen|[(flag & value & Hflag & ->)|
                     [(b & rest & -> & Hb)|(b & rest & -> & Hb & Hrest)]]]].
  - by rewrite Hno.
  - destruct (negb _); [done|]. destruct (gobytes.HasPrefix arg "--"); [done|].
    destruct arg as [|a [|b [|c rest]]]; cbn in Hlen; try done. lia.
  - unfold stringFlags in Hflag. rewrite !elem_of_cons, elem_of_nil in Hflag.
    destruct Hflag as [->|[->|[->|[]]]]; reflexivity.
  - rewrite !not_elem_of_cons in Hb. destruct Hb as (Ho & Hn & Hl & HA & Hc & _).
    change (gobytes.HasPrefix (String "-" (String b rest)) "-") with true.
    cbn [negb]. destruct (gobytes.HasPrefix _ "--"); [done|].
    destruct rest as [|c rest]; [done|].
    rewrite (bool_decide_eq_false_2 (_ ∈ stringFlags)).
    2:{ unfold stringFlags. rewrite !elem_of_cons, elem_of_nil.
        intros [[=]|[[=]|[[=]|[]]]]; done. }
    cbn [andb]. change (gobytes.from 1 (String "-" (String b (String c rest))))
      with (String b (String c rest)).
    assert (boolFlags ("-" +:+ String b "") = false) as Hbf.
    { unfold boolFlags. apply orb_false_iff.
      split; apply bool_decide_eq_false; intros [=]; done. }
    cbn [allBoolLoop]. rewrite Hbf. by rewrite andb_false_r.
  - change (gobytes.HasPrefix (String "-" (String b rest)) "-") with true.
    cbn [negb]. destruct (gobytes.HasPrefix _ "--"); [done|].
    destruct rest as [|c rest]; [done|].
    assert (bool_decide (String "-" (String b "") ∈ stringFlags) = false)
      as ->.
    { rewrite !elem_of_cons, elem_of_nil in Hb.
      destruct Hb as [->|[->|[]]]; reflexivity. }
    cbn [andb]. change (gobytes.from 1 (String "-" (String b (String c rest))))
      with (String b (String c rest)).
    destruct (allBoolLoop _) eqn:Hall; [|by rewrite andb_false_r].
    apply allBoolLoop_spec in Hall.
    cbn [String.list_ascii_of_string] in Hall.
    apply Forall_cons in Hall as [_ Hall]. by destruct Hrest.
Qed.

Lemma X21_witness : preprocessArgs stringFlags ["-o=yaml"] = ["-o=yaml"].
Proof.
  apply (X21_other_arguments_are_unchanged stringFlags "-o=yaml");
    [reflexivity|].
  right; right; left. exists "-o", "yaml". split; [apply list_elem_of_here|done].
Defined.

(** X24.  Nothing else is rewritten: an argument that [preprocessArgs]
    does not pass on as it is has one of the two shapes that are split, a
    string flag with an attached value that does not start with the equals
    sign, or a dash followed by two or more bytes that are all A or c. *)
Theorem X24_only_the_two_shapes_are_rewritten
    (order : list string) (arg : string) :
  order ≡ₚ stringFlags →
  preprocessArgs order [arg] ≠ [arg] →
  (∃ flag c value,
     flag ∈ stringFlags ∧ c ≠ "="%char ∧ arg = flag +:+ String c value)
  ∨ (∃ bytes,
       (2 ≤ String.length bytes)%nat
       ∧ Forall (λ c, c = "A"%char ∨ c = "c"%char)
           (String.list_ascii_of_string bytes)
       ∧ arg = "-" +:+ bytes).
Proof.
  intros Hp.
  change (preprocessArgs order [?a]) with (preprocessArg order [] a).
  rewrite (preprocessArg_order order) by done.
  unfold preprocessArg.
  rewrite stringFlagLoop_spec by (repeat constructor).
  destruct (gobytes.HasPrefix arg "-") eqn:Hdash; cbn [negb]; [|done].
  destruct (gobytes.HasPrefix arg "--"); [done|].
  destruct arg as [|a [|b [|c rest]]]; try done.
  assert (a = "-"%char) as ->.
  { unfold gobytes.HasPrefix in Hdash. cbn [String.prefix] in Hdash.
    by destruct (ascii_dec "-" a) as [<-|]. }
  destruct (bool_decide (String "-" (String b "") ∈ stringFlags)) eqn:Hflag;
    cbn [andb].
  - destruct (Ascii.eqb c "=") eqn:Hc; cbn [negb].
    + apply bool_decide_eq_true in Hflag. unfold stringFlags in Hflag.
      rewrite !elem_of_cons, elem_of_nil in Hflag.
      destruct Hflag as [[= ->]|[[= ->]|[[= ->]|[]]]]; intros Hr;
        by destruct Hr.
    + intros _. left. exists (String "-" (String b "")), c, rest.
      split_and!; [by eapply bool_decide_eq_true_1|by apply Ascii.eqb_neq|done].
  - change (gobytes.from 1 (String "-" (String b (String c rest))))
      with (String b (String c rest)).
    destruct (allBoolLoop (String b (String c rest))) eqn:Hall.
    + intros _. right. exists (String b (String c rest)).
      split_and!; [cbn; lia|by apply allBoolLoop_spec|done].
    + rewrite andb_false_r. done.
Qed.

Lemma X24_witness :
  (∃ flag c value,
     flag ∈ stringFlags ∧ c ≠ "="%char
     ∧ "-oyaml" = flag +:+ String c value)
  ∨ (∃ bytes,
       (2 ≤ String.length bytes)%nat
       ∧ Forall (λ c, c = "A"%char ∨ c = "c"%char)
           (String.list_ascii_of_string bytes)
       ∧ "-oyaml" = "-" +:+ bytes).
Proof.
  apply (X24_only_the_two_shapes_are_rewritten stringFlags "-oyaml");
    [reflexivity|].
  vm_compute. discriminate.
Defined.

(** ** More on the resolver *)
Section Folding.

Lemma lowerByte_isASCIIByte (c : ascii) :
  gostrings.isASCIIByte (gostrings.lowerByte c) = gostrings.isASCIIByte c.
Proof. destruct c as [[] [] [] [] [] [] [] []]; reflexivity. Qed.

Lemma lowerASCII_isASCII (s : string) :
  gostrings.isASCII (gostrings.lowerASCII s) = gostrings.isASCII s.
Proof.
  induction s as [|c s IH]; [done|].
  cbn [gostrings.lowerASCII gostrings.isASCII].
  by rewrite lowerByte_isASCIIByte, IH.
Qed.

Lemma lowerASCII_same_text (s : string) :
  equalIgnoringCase s (gostrings.lowerASCII s).
Proof.
  apply lowerASCII_equalIgnoringCase. symmetry.
  apply lowerASCII_no_capital, lowerASCII_hasUpper.
Qed.

Lemma CutSlash_spec (s group version : string) :
  gostrings.CutSlash s = Some (group, version) →
  s = group +:+ String "/" version
  ∧ gostrings.CountSlash group = 0
  ∧ gostrings.CountSlash s = S (gostrings.CountSlash version).
Proof.
  revert group. induction s as [|c s IH]; intros group; cbn [gostrings.CutSlash];
    [done|].
  destruct (Ascii.eqb c "/") eqn:Hc.
  - apply Ascii.eqb_eq in Hc as ->. intros [= <- <-]. by split_and!.
  - destruct (gostrings.CutSlash s) as [[before after]|]; [|done].
    intros [= <- <-]. destruct (IH before eq_refl) as (-> & Hb & Hs).
    split_and!.
    + done.
    + cbn [gostrings.CountSlash]. by rewrite Hc, Hb.
    + cbn [gostrings.CountSlash]. rewrite Hc. cbn. exact Hs.
Qed.

Lemma CutSlash_compose (group version : string) :
  gostrings.CountSlash group = 0 →
  gostrings.CutSlash (group +:+ String "/" version) = Some (group, version).
Proof.
  induction group as [|c group IH]; intros Hg.
  - done.
  - change (String c group +:+ String "/" version)
      with (String c (group +:+ String "/" version)).
    cbn [gostrings.CutSlash gostrings.CountSlash] in *.
    destruct (Ascii.eqb c "/"); [done|]. by rewrite IH.
Qed.

Lemma CountSlash_compose (group version : string) :
  gostrings.CountSlash (group +:+ String "/" version)
  = S (gostrings.CountSlash group + gostrings.CountSlash version).
Proof.
  induction group as [|c group IH]; [done|].
  change (String c group +:+ String "/" version)
    with (String c (group +:+ String "/" version)).
  cbn [gostrings.CountSlash]. rewrite IH. destruct (Ascii.eqb c "/"); lia.
Qed.

Lemma ParseGroupVersion_spec (gv group version : string) :
  schema.ParseGroupVersion gv = Some (group, version) →
  gostrings.CountSlash group = 0 ∧ gostrings.CountSlash version = 0
  ∧ ((group = "" ∧ version = gv) ∨ gv = group +:+ String "/" version).
Proof.
  unfold schema.ParseGroupVersion. destruct (decide _) as [[Hl| ->]|Hn].
  - destruct gv; [|done]. intros [= <- <-]. split_and!; auto.
  - intros [= <- <-]. split_and!; auto.
  - destruct (gostrings.CountSlash gv) as [|[|n]] eqn:Hc; [| |done].
    + intros [= <- <-]. split_and!; auto.
    + intros Hcut. apply CutSlash_spec in Hcut as (-> & Hg & Hs).
      split_and!; [done|lia|auto].
Qed.

End Folding.

(** X22.  Resolution does not look at the case of the letters of an
    ASCII input: two inputs that are the same text up to the case of
    letters give the same outcome, and when neither resolves the two
    errors differ only in the input they quote.  What the resolver compares
    is the input without its capitals: for an ASCII input [strings.ToLower]
    returns the same text up to case, ASCII again and free of capitals. *)
Theorem X22_resolution_ignores_case {tables : unicode.Tables} :
  (∀ (a b : string) (config : discovery),
     gostrings.isASCII a = true →
     equalIgnoringCase a b →
     getGVR b config
     = match getGVR a config with
       | inl (ErrNotFound _) => inl (ErrNotFound b)
       | outcome => outcome
       end)
  ∧ (∀ (a b : string) (config : discovery) r,
       gostrings.isASCII a = true →
       equalIgnoringCase a b →
       getGVR a config = inr r ↔ getGVR b config = inr r)
  ∧ (∀ a : string,
       gostrings.isASCII a = true →
       equalIgnoringCase a (gostrings.ToLower a)
       ∧ gostrings.isASCII (gostrings.ToLower a) = true
       ∧ gostrings.hasUpper (gostrings.ToLower a) = false).
Proof.
  assert (∀ (a b : string) (config : discovery),
     gostrings.isASCII a = true →
     equalIgnoringCase a b →
     getGVR b config
     = match getGVR a config with
       | inl (ErrNotFound _) => inl (ErrNotFound b)
       | outcome => outcome
       end) as Hsame.
  { intros a b config Ha Hab.
    pose proof (equalIgnoringCase_equalFold a b Ha Hab) as Hfold.
    unfold equalFold in Hfold. unfold getGVR.
    destruct (clientErr config); [done|].
    destruct (discoveryErr config), (apiResourceLists config);
      rewrite ?Hfold; try done; by destruct (listLoop _ _). }
  split_and!; [exact Hsame| |].
  - intros a b config r Ha Hab. rewrite (Hsame a b config Ha Hab).
    destruct (getGVR a config) as [[]|]; naive_solver.
  - intros a Ha. rewrite (ToLower_ascii a Ha). split_and!.
    + apply lowerASCII_same_text.
    + by rewrite lowerASCII_isASCII.
    + apply lowerASCII_hasUpper.
Qed.

Lemma X22_witness :
  getGVR (tables := exampleTables) "INGRESSES" migrationCatalog
  = getGVR (tables := exampleTables) "ingresses" migrationCatalog.
Proof.
  rewrite (proj1 (X22_resolution_ignores_case (tables := exampleTables))
             "ingresses" "INGRESSES" migrationCatalog); [reflexivity..|].
  apply lowerASCII_equalIgnoringCase. reflexivity.
Defined.

(** X23.  A resolved coordinate carries the name and the scope of a
    catalog entry unchanged, and its group and version are the two halves
    of the group/version string of the entry's list: the version alone when
    the string has no slash (the group is then empty), otherwise group and
    version around the single slash.  Neither half contains a slash, and a
    string built from two such halves is parsed back into them. *)
Theorem X23_coordinate_recomposes_the_group_version
    {tables : unicode.Tables} :
  (∀ (input : string) (config : discovery) gvr namespaced,
     getGVR input config = inr (gvr, namespaced) →
     ∃ entry,
       entry ∈ entries (sliceOf (apiResourceLists config))
       ∧ schema.Resource gvr = metav1.Name entry.2
       ∧ namespaced = metav1.Namespaced entry.2
       ∧ gostrings.CountSlash (schema.Group gvr) = 0
       ∧ gostrings.CountSlash (schema.Version gvr) = 0
       ∧ ((schema.Group gvr = "" ∧ schema.Version gvr = entry.1)
          ∨ entry.1 = schema.Group gvr +:+ String "/" (schema.Version gvr)))
  ∧ (∀ group version : string,
       gostrings.CountSlash group = 0 →
       gostrings.CountSlash version = 0 →
       schema.ParseGroupVersion (group +:+ String "/" version)
       = Some (group, version)).
Proof.
  split.
  - intros input config gvr namespaced Hr.
    assert (listLoop (gostrings.ToLower input)
              (sliceOf (apiResourceLists config)) = Some (gvr, namespaced))
      as Hscan.
    { revert Hr. unfold getGVR. destruct (clientErr config); [done|].
      destruct (discoveryErr config), (apiResourceLists config); try done;
        by destruct (listLoop _ _) as [r|]; intros [= <-]. }
    rewrite listLoop_find in Hscan.
    destruct (find _ _) as [entry|] eqn:Hf; [|done]. cbn in Hscan.
    apply find_some_selected in Hf as [_ Hin].
    exists entry. split; [done|]. revert Hscan. unfold coordinate.
    destruct (schema.ParseGroupVersion entry.1) as [[group version]|] eqn:Hp;
      [|done].
    intros [= <- <-]. cbn [schema.Resource schema.Group schema.Version].
    apply ParseGroupVersion_spec in Hp as (Hg & Hv & Hcases).
    by split_and!.
  - intros group version Hg Hv. unfold schema.ParseGroupVersion.
    destruct (decide _) as [[Hl|Heq]|Hn].
    + by destruct group.
    + destruct group as [|c group].
      * destruct version; [done|]. by injection Heq.
      * change (String c group +:+ String "/" version)
          with (String c (group +:+ String "/" version)) in Heq.
        injection Heq as -> Heq. by destruct group.
    + rewrite CountSlash_compose, Hg, Hv. by apply CutSlash_compose.
Qed.

Lemma X23_witness :
  schema.ParseGroupVersion ("networking.k8s.io" +:+ String "/" "v1")
  = Some ("networking.k8s.io", "v1").
Proof.
  apply (proj2 (X23_coordinate_recomposes_the_group_version
                  (tables := exampleTables))); reflexivity.
Defined.
